(** * p115client/client.py: a shallow embedding and its properties

  The first part follows the layout of [client.py]: the Python values
  and built-ins the module relies on, then response validation
  ([check_response]), attribute normalisation ([normalize_attr]), the
  cookie state of [P115Client], the header policy of
  [P115Client.request], the QR-code login loop, upload negotiation
  ([upload_file_init]) and the ranged readers ([read_bytes], [hash],
  [hashes]); then the endpoint addresses ([complete_api],
  [make_ed2k_url]), the payloads of the catalog operations, block
  reads ([read_block]), the invariant of the cookie jar, the cookie file
  and the retry loop of [request], the login sequences, the app variant
  of attribute normalisation and the download links ([download_url]).
  Sample inputs follow, and the second part states and proves the
  properties, one section for each of these areas. *)

From Stdlib Require Import ZArith List String Ascii Bool Lia DecimalString DecimalZ DecimalPos.
From stdpp Require Import gmap strings list fin_maps.

Set Warnings "-register-all".
Local Open Scope string_scope.
Local Open Scope list_scope.
Local Open Scope Z_scope.

(** ** Python values, exceptions and the built-ins used by the module *)

Module Py.

(** The exception classes raised or propagated by the code under study. *)
Inductive exn_kind : Type :=
| P115OSError | LoginError | AuthenticationError | BusyOSError
| NotSupportedError | OperationalError | DataError
| FileExistsError | FileNotFoundError | IsADirectoryError
| ValueError | TypeError | KeyError | IndexError | AttributeError
| CookieConflict | TransportError.

(** The [errno] constants the module passes as first argument. *)
Inductive errno : Type :=
| EIO | EEXIST | ENOENT | ENOTSUP | ENOSPC | EFBIG | ENOSYS | EBUSY
| EINVAL | EISDIR | ENODATA.

(** JSON-like values, byte strings and awaitables.  [VFuture v] is a
    pending value that resolves to [v] when awaited.  Floating-point
    numbers are left out. *)
Inductive pyval : Type :=
| VNone
| VBool (b : bool)
| VInt (z : Z)
| VStr (s : string)
| VBytes (b : list Byte.byte)
| VList (l : list pyval)
| VDict (d : gmap string pyval)
| VFuture (v : pyval).

(** A raised exception: its class, the errno it carries (if any) and
    its remaining argument (a response body or a message). *)
Record exn : Type := Exn { exn_kind_of : exn_kind; exn_errno : option errno; exn_arg : pyval }.

Inductive outcome (A : Type) : Type :=
| Return (a : A)
| Raise (e : exn).
Arguments Return {A} a.
Arguments Raise {A} e.

Definition obind {A B} (o : outcome A) (k : A -> outcome B) : outcome B :=
  match o with
  | Return a => k a
  | Raise e => Raise e
  end.

Definition is_dict (v : pyval) : bool :=
  match v with VDict _ => true | _ => false end.

(** [bool(v)] *)
Definition truthy (v : pyval) : bool :=
  match v with
  | VNone => false
  | VBool b => b
  | VInt z => negb (z =? 0)
  | VStr s => negb (String.eqb s "")
  | VBytes b => match b with [] => false | _ => true end
  | VList l => match l with [] => false | _ => true end
  | VDict d => match map_to_list d with [] => false | _ => true end
  | VFuture _ => true
  end.

(** [v == k] for an integer literal [k]; this is also the test a
    [case k:] arm of a [match] statement performs. *)
Definition eq_int (v : pyval) (k : Z) : bool :=
  match v with
  | VInt z => z =? k
  | VBool b => (if b then 1 else 0) =? k
  | _ => false
  end.

(** [d.get(key, default)] *)
Definition dict_get (d : gmap string pyval) (key : string) (dflt : pyval) : pyval :=
  match d !! key with
  | Some v => v
  | None => dflt
  end.

(** [d[key]] *)
Definition dict_item (d : gmap string pyval) (key : string) : outcome pyval :=
  match d !! key with
  | Some v => Return v
  | None => Raise (Exn KeyError None (VStr key))
  end.

(** [key in d] *)
Definition dict_has (d : gmap string pyval) (key : string) : bool :=
  match d !! key with
  | Some _ => true
  | None => false
  end.

(** [x or y] *)
Definition py_or (x y : pyval) : pyval := if truthy x then x else y.

#[global] Instance outcome_ret : MRet outcome := fun _ a => Return a.
#[global] Instance outcome_bind : MBind outcome := fun _ _ k o => obind o k.

Definition raise {A} (k : exn_kind) (arg : pyval) : outcome A :=
  Raise (Exn k None arg).

(** *** Strings

    Python strings are modelled by [string]; the case mappings and the
    character classes below are those of the ASCII range, which is what
    header names, cookie values and decimal numerals are made of. *)

Definition code (c : ascii) : Z := Z.of_N (N_of_ascii c).

Definition char_of (z : Z) : ascii := ascii_of_N (Z.to_N z).

Fixpoint str_map (f : ascii -> ascii) (s : string) : string :=
  match s with
  | EmptyString => EmptyString
  | String c s' => String (f c) (str_map f s')
  end.

Definition lower_char (c : ascii) : ascii :=
  if (65 <=? code c) && (code c <=? 90) then char_of (code c + 32) else c.

Definition upper_char (c : ascii) : ascii :=
  if (97 <=? code c) && (code c <=? 122) then char_of (code c - 32) else c.

(** [s.lower()] and [s.upper()] *)
Definition lower (s : string) : string := str_map lower_char s.
Definition upper (s : string) : string := str_map upper_char s.

(** [c.isspace()] on the code points below 256. *)
Definition is_space (c : ascii) : bool :=
  ((9 <=? code c) && (code c <=? 13)) || ((28 <=? code c) && (code c <=? 32))
  || (code c =? 133) || (code c =? 160).

Fixpoint drop_while (p : ascii -> bool) (l : list ascii) : list ascii :=
  match l with
  | [] => []
  | c :: l' => if p c then drop_while p l' else l
  end.

Definition lstrip_chars (p : ascii -> bool) (l : list ascii) : list ascii :=
  drop_while p l.

Definition rstrip_chars (p : ascii -> bool) (l : list ascii) : list ascii :=
  rev (drop_while p (rev l)).

(** [s.strip()] *)
Definition strip (s : string) : string :=
  string_of_list_ascii (rstrip_chars is_space (lstrip_chars is_space (list_ascii_of_string s))).

(** [s.rstrip(chars)] for a one-character [chars]. *)
Definition rstrip_char (ch : ascii) (s : string) : string :=
  string_of_list_ascii (rstrip_chars (Ascii.eqb ch) (list_ascii_of_string s)).

(** [s.split(sep)] for a one-character separator: the segments between
    the occurrences of [sep], never an empty list. *)
Fixpoint split_chars (sep : ascii) (l : list ascii) : list (list ascii) :=
  match l with
  | [] => [[]]
  | c :: l' =>
      if Ascii.eqb c sep then [] :: split_chars sep l'
      else
        match split_chars sep l' with
        | seg :: rest => (c :: seg) :: rest
        | [] => [[c]]
        end
  end.

Definition split (sep : ascii) (s : string) : list string :=
  map string_of_list_ascii (split_chars sep (list_ascii_of_string s)).

Definition is_digit (c : ascii) : bool := (48 <=? code c) && (code c <=? 57).

(** [s.isdecimal()] *)
Definition isdecimal (s : string) : bool :=
  match list_ascii_of_string s with
  | [] => false
  | l => forallb is_digit l
  end.

(** The digits of an [int] literal given as text: decimal digits, a
    single underscore allowed between two digits.  [prev] tells whether
    the previous character was a digit, [acc] is the value so far. *)
Fixpoint parse_digits (l : list ascii) (prev : bool) (acc : Z) : option Z :=
  match l with
  | [] => if prev then Some acc else None
  | c :: l' =>
      if is_digit c then parse_digits l' true (10 * acc + (code c - 48))
      else if Ascii.eqb c "_" then (if prev then parse_digits l' false acc else None)
      else None
  end.

(** The blanks [int] drops around a numeral given as text: the ASCII
    blanks and, of the code points from 128 on, the spaces (133 and
    160).  The separators 28 to 31, which [str.strip] drops, are not
    among them. *)
Definition is_int_space (c : ascii) : bool :=
  ((9 <=? code c) && (code c <=? 13)) || (code c =? 32) || (code c =? 133) || (code c =? 160).

(** The blanks [int] drops around a numeral given as bytes. *)
Definition is_ascii_space (c : ascii) : bool :=
  ((9 <=? code c) && (code c <=? 13)) || (code c =? 32).

(** [sys.get_int_max_str_digits()] as it is by default: a numeral of
    more digits is refused. *)
Definition int_max_str_digits : Z := 4300.

(** [int] on the characters of a numeral: surrounding blanks dropped,
    an optional sign, then the digits. *)
Definition parse_numeral (blank : ascii -> bool) (l : list ascii) : option Z :=
  let l := rstrip_chars blank (lstrip_chars blank l) in
  if int_max_str_digits <? Z.of_nat (List.length (List.filter is_digit l)) then None
  else
    match l with
    | [] => None
    | c :: l' =>
        if Ascii.eqb c "-" then option_map Z.opp (parse_digits l' false 0)
        else if Ascii.eqb c "+" then parse_digits l' false 0
        else parse_digits (c :: l') false 0
    end.

(** [int(s)] for a text [s]. *)
Definition parse_int (s : string) : option Z :=
  parse_numeral is_int_space (list_ascii_of_string s).

(** [int(b)] for a byte string [b]. *)
Definition parse_int_bytes (b : list Byte.byte) : option Z :=
  parse_numeral is_ascii_space (map ascii_of_byte b).

(** [int(v)] *)
Definition py_int (v : pyval) : outcome Z :=
  match v with
  | VInt z => Return z
  | VBool b => Return (if b then 1 else 0)
  | VStr s =>
      match parse_int s with
      | Some z => Return z
      | None => raise ValueError v
      end
  | VBytes b =>
      match parse_int_bytes b with
      | Some z => Return z
      | None => raise ValueError v
      end
  | _ => raise TypeError v
  end.

(** [f"{z}"] *)
Definition str_of_int (z : Z) : string := NilZero.string_of_int (Z.to_int z).

(** [v[key]] for a text key. *)
Definition subscript (v : pyval) (key : string) : outcome pyval :=
  match v with
  | VDict d => dict_item d key
  | _ => raise TypeError v
  end.

(** [v[key] = x] for a text key. *)
Definition store (v : pyval) (key : string) (x : pyval) : outcome pyval :=
  match v with
  | VDict d => Return (VDict (<[key := x]> d))
  | _ => raise TypeError v
  end.

(** [z + v] for an integer [z], as in [z += v]. *)
Definition add_int (z : Z) (v : pyval) : outcome Z :=
  match v with
  | VInt n => Return (z + n)
  | VBool b => Return (z + (if b then 1 else 0))
  | _ => raise TypeError v
  end.

(** What a function offered in both modes hands back: its outcome on
    the spot, or a coroutine object whose awaiting produces it. *)
Inductive answer (A : Type) : Type :=
| Now (o : outcome A)
| Coroutine (o : outcome A).
Arguments Now {A} o.
Arguments Coroutine {A} o.

End Py.
Import Py.

(** ** Response validation: [check_response] (client.py, lines 243-339) *)

Module CheckResponse.

Definition fail (k : exn_kind) (e : errno) (resp : pyval) : outcome pyval :=
  Raise (Exn k (Some e) resp).

(** The arms of [match resp["errno"]]. *)
Definition match_errno (v : pyval) : option (exn_kind * errno) :=
  if eq_int v 99 then Some (LoginError, EIO)
  else if eq_int v 911 then Some (AuthenticationError, EIO)
  else if eq_int v 20004 then Some (FileExistsError, EEXIST)
  else if eq_int v 20009 then Some (FileNotFoundError, ENOENT)
  else if eq_int v 50003 then Some (FileNotFoundError, ENOENT)
  else if eq_int v 90008 then Some (FileNotFoundError, ENOENT)
  else if eq_int v 91002 then Some (NotSupportedError, ENOTSUP)
  else if eq_int v 91004 then Some (NotSupportedError, ENOTSUP)
  else if eq_int v 91005 then Some (OperationalError, ENOSPC)
  else if eq_int v 231011 then Some (FileNotFoundError, ENOENT)
  else if eq_int v 300104 then Some (P115OSError, EFBIG)
  else if eq_int v 980006 then Some (NotSupportedError, ENOSYS)
  else if eq_int v 990005 then Some (BusyOSError, EBUSY)
  else if eq_int v 990009 then Some (BusyOSError, EBUSY)
  else if eq_int v 990023 then Some (OperationalError, ENOTSUP)
  else if eq_int v 40100000 then Some (OperationalError, EINVAL)
  else if eq_int v 40101004 then Some (LoginError, EIO)
  else if eq_int v 40101017 then Some (AuthenticationError, EIO)
  else if eq_int v 40101032 then Some (LoginError, EIO)
  else None.

(** The arms of [match resp["errNo"]]. *)
Definition match_errNo (v : pyval) : option (exn_kind * errno) :=
  if eq_int v 990001 then Some (AuthenticationError, EIO) else None.

(** The arms of [match resp["errcode"]]. *)
Definition match_errcode (v : pyval) : option (exn_kind * errno) :=
  if eq_int v 911 then Some (AuthenticationError, EIO) else None.

(** The arms of [match resp["code"]]. *)
Definition match_code (v : pyval) : option (exn_kind * errno) :=
  if eq_int v 99 then Some (AuthenticationError, EIO) else None.

(** The arms of [match resp["msg_code"]]. *)
Definition match_msg_code (v : pyval) : option (exn_kind * errno) :=
  if eq_int v 50028 then Some (P115OSError, EFBIG)
  else if eq_int v 70004 then Some (IsADirectoryError, EISDIR)
  else if eq_int v 70005 then Some (FileNotFoundError, ENOENT)
  else None.

(** A [match] whose arms all raise; when none applies control falls
    through to the final [raise P115OSError(errno.EIO, resp)]. *)
Definition raise_matched (m : option (exn_kind * errno)) (resp : pyval) : outcome pyval :=
  match m with
  | Some (k, e) => fail k e resp
  | None => fail P115OSError EIO resp
  end.

(** The inner function [check]. *)
Definition check (resp : pyval) : outcome pyval :=
  match resp with
  | VDict d =>
      if truthy (dict_get d "state" (VBool true)) then Return resp
      else
        match d !! "errno" with
        | Some v => raise_matched (match_errno v) resp
        | None =>
        match d !! "errNo" with
        | Some v => raise_matched (match_errNo v) resp
        | None =>
        match d !! "errcode" with
        | Some v => raise_matched (match_errcode v) resp
        | None =>
        match d !! "code" with
        | Some v => raise_matched (match_code v) resp
        | None =>
        match d !! "msg_code" with
        | Some v => raise_matched (match_msg_code v) resp
        | None => fail P115OSError EIO resp
        end end end end end
  | _ => fail P115OSError EIO resp
  end.

(** [await v]: only awaitables can be awaited. *)
Definition await (v : pyval) : outcome pyval :=
  match v with
  | VFuture r => Return r
  | _ => Raise (Exn TypeError None VNone)
  end.

(** [check_response]: a [dict] is checked at once, anything else is
    taken for an awaitable and checked by [check_await]. *)
Definition check_response (resp : pyval) : answer pyval :=
  if is_dict resp then Now (check resp)
  else Coroutine (obind (await resp) check).

(** *** The table of spec section 4.3, row by row *)

Definition validation_table : list (string * Z * exn_kind * errno) :=
  [ ("errno", 99, LoginError, EIO);
    ("errno", 911, AuthenticationError, EIO);
    ("errno", 20004, FileExistsError, EEXIST);
    ("errno", 20009, FileNotFoundError, ENOENT);
    ("errno", 50003, FileNotFoundError, ENOENT);
    ("errno", 90008, FileNotFoundError, ENOENT);
    ("errno", 91002, NotSupportedError, ENOTSUP);
    ("errno", 91004, NotSupportedError, ENOTSUP);
    ("errno", 91005, OperationalError, ENOSPC);
    ("errno", 231011, FileNotFoundError, ENOENT);
    ("errno", 300104, P115OSError, EFBIG);
    ("errno", 980006, NotSupportedError, ENOSYS);
    ("errno", 990005, BusyOSError, EBUSY);
    ("errno", 990009, BusyOSError, EBUSY);
    ("errno", 990023, OperationalError, ENOTSUP);
    ("errno", 40100000, OperationalError, EINVAL);
    ("errno", 40101004, LoginError, EIO);
    ("errno", 40101017, AuthenticationError, EIO);
    ("errno", 40101032, LoginError, EIO);
    ("errNo", 990001, AuthenticationError, EIO);
    ("errcode", 911, AuthenticationError, EIO);
    ("code", 99, AuthenticationError, EIO);
    ("msg_code", 50028, P115OSError, EFBIG);
    ("msg_code", 70004, IsADirectoryError, EISDIR);
    ("msg_code", 70005, FileNotFoundError, ENOENT) ].

(** The keys inspected for a code, in priority order. *)
Definition code_fields : list string :=
  ["errno"; "errNo"; "errcode"; "code"; "msg_code"].

(** The first of the keys [fs] present in the body, with its value. *)
Fixpoint first_present (d : gmap string pyval) (fs : list string) : option (string * pyval) :=
  match fs with
  | [] => None
  | f :: fs' =>
      match d !! f with
      | Some v => Some (f, v)
      | None => first_present d fs'
      end
  end.

Definition code_field (d : gmap string pyval) : option (string * pyval) :=
  first_present d code_fields.

(** The body's ["state"] is present and falsy. *)
Definition failed_state (d : gmap string pyval) : bool :=
  negb (truthy (dict_get d "state" (VBool true))).

End CheckResponse.

(** ** Attribute normalisation: [normalize_attr] (client.py, lines 342-418) *)

Module NormalizeAttr.

(** [attr[name] = int(v)] *)
Definition set_int (name : string) (v : pyval) (attr : gmap string pyval) : outcome (gmap string pyval) :=
  z ← py_int v; mret (<[name := VInt z]> attr).

(** Lines 356-362: the directory flag and the two ids. *)
Definition set_ids (info : gmap string pyval) (attr : gmap string pyval) : outcome (gmap string pyval) :=
  let is_directory := negb (dict_has info "fid") in
  let attr := <["is_directory" := VBool is_directory]> (<["is_dir" := VBool is_directory]> attr) in
  if is_directory then
    cid ← dict_item info "cid";
    attr ← set_int "id" cid attr;
    pid ← dict_item info "pid";
    set_int "parent_id" pid attr
  else
    fid ← dict_item info "fid";
    attr ← set_int "id" fid attr;
    cid ← dict_item info "cid";
    set_int "parent_id" cid attr.

(** Lines 364-365. *)
Definition set_pickcode (info : gmap string pyval) (attr : gmap string pyval) : outcome (gmap string pyval) :=
  match info !! "pc" with
  | Some pc => mret (<["pickcode" := pc]> (<["pick_code" := pc]> attr))
  | None => mret attr
  end.

(** Lines 368-371: name, size, sha1 and labels. *)
Definition set_name (info : gmap string pyval) (attr : gmap string pyval) : outcome (gmap string pyval) :=
  n ← dict_item info "n"; mret (<["name" := n]> attr).

Definition set_size (info : gmap string pyval) (attr : gmap string pyval) : outcome (gmap string pyval) :=
  set_int "size" (py_or (dict_get info "s" VNone) (VInt 0)) attr.

Definition set_sha1 (info : gmap string pyval) (attr : gmap string pyval) : outcome (gmap string pyval) :=
  mret (<["sha1" := dict_get info "sha" VNone]> attr).

Definition set_labels (info : gmap string pyval) (attr : gmap string pyval) : outcome (gmap string pyval) :=
  fl ← dict_item info "fl"; mret (<["labels" := fl]> attr).

(** Lines 372-373. *)
Definition set_score (info : gmap string pyval) (attr : gmap string pyval) : outcome (gmap string pyval) :=
  if dict_has info "score" then
    set_int "score" (py_or (dict_get info "score" VNone) (VInt 0)) attr
  else mret attr.

(** Line 374. *)
Definition set_ico (info : gmap string pyval) (attr : gmap string pyval) : outcome (gmap string pyval) :=
  let is_directory := negb (dict_has info "fid") in
  mret (<["ico" := dict_get info "ico" (VStr (if is_directory then "folder" else ""))]> attr).

(** Lines 375-382: each of the four time stamps that is present. *)
Definition set_stamp (key : string) (names : list string) (info : gmap string pyval)
    (attr : gmap string pyval) : outcome (gmap string pyval) :=
  match info !! key with
  | Some v => z ← py_int v; mret (foldr (fun name a => <[name := VInt z]> a) attr names)
  | None => mret attr
  end.

(** Lines 383-384: [t] is kept when it is a decimal numeral. *)
Definition set_time (info : gmap string pyval) (attr : gmap string pyval) : outcome (gmap string pyval) :=
  let t := dict_get info "t" VNone in
  if truthy t then
    match t with
    | VStr s => if isdecimal s then set_int "time" t attr else mret attr
    | _ => raise AttributeError (VStr "isdecimal")
    end
  else mret attr.

(** Lines 385-398: the flags, true when the raw value is 1. *)
Definition flag_names : list (string * string) :=
  [ ("fdes", "has_desc"); ("hdf", "hidden"); ("issct", "is_shortcut");
    ("ispl", "show_play_long"); ("m", "star"); ("c", "violated"); ("sh", "is_share") ].

Fixpoint set_flags (names : list (string * string)) (info : gmap string pyval)
    (attr : gmap string pyval) : outcome (gmap string pyval) :=
  match names with
  | [] => mret attr
  | (key, name) :: names' =>
      match info !! key with
      | Some v =>
          z ← py_int (py_or v (VInt 0));
          set_flags names' info (<[name := VBool (z =? 1)]> attr)
      | None => set_flags names' info attr
      end
  end.

(** Lines 399-415: the fields copied as they are. *)
Definition copied_names : list (string * string) :=
  [ ("dp", "dir_path"); ("style", "style"); ("ns", "name_show");
    ("cc", "category_cover"); ("sta", "status"); ("class", "class");
    ("u", "thumb"); ("vdi", "video_type"); ("play_long", "play_long");
    ("audio_play_long", "audio_play_long"); ("current_time", "current_time");
    ("last_time", "last_time"); ("played_end", "played_end") ].

Fixpoint copy_fields (names : list (string * string)) (info : gmap string pyval)
    (attr : gmap string pyval) : gmap string pyval :=
  match names with
  | [] => attr
  | (key, name) :: names' =>
      match info !! key with
      | Some v => copy_fields names' info (<[name := v]> attr)
      | None => copy_fields names' info attr
      end
  end.

(** Lines 416-417. *)
Definition set_raw (keep_raw : bool) (info : gmap string pyval) (attr : gmap string pyval) : gmap string pyval :=
  if keep_raw then <["raw" := VDict info]> attr else attr.

(** [normalize_attr(info, keep_raw)] with the default [dict_cls]. *)
Definition normalize_attr (info : gmap string pyval) (keep_raw : bool) : outcome (gmap string pyval) :=
  attr ← set_ids info ∅;
  attr ← set_pickcode info attr;
  attr ← set_name info attr;
  attr ← set_size info attr;
  attr ← set_sha1 info attr;
  attr ← set_labels info attr;
  attr ← set_score info attr;
  attr ← set_ico info attr;
  attr ← set_stamp "te" ["mtime"; "user_utime"] info attr;
  attr ← set_stamp "tp" ["ctime"; "user_ptime"] info attr;
  attr ← set_stamp "to" ["atime"; "user_otime"] info attr;
  attr ← set_stamp "tu" ["utime"] info attr;
  attr ← set_time info attr;
  attr ← set_flags flag_names info attr;
  mret (set_raw keep_raw info (copy_fields copied_names info attr)).

(** The least records the function accepts: a directory carries
    [cid], [pid], [n] and [fl]; a file carries [fid], [cid], [n] and
    [fl]. *)
Definition directory_record (cid pid n fl : pyval) : gmap string pyval :=
  <["cid" := cid]> (<["pid" := pid]> (<["n" := n]> (<["fl" := fl]> ∅))).

Definition file_record (fid cid n fl : pyval) : gmap string pyval :=
  <["fid" := fid]> (<["cid" := cid]> (<["n" := n]> (<["fl" := fl]> ∅))).

(** The keys the function looks for without requiring them. *)
Definition optional_keys : list string :=
  ["pc"; "s"; "sha"; "score"; "ico"; "te"; "tp"; "to"; "tu"; "t"]
  ++ map fst flag_names ++ map fst copied_names.

(** The keys of the result that identify the entry. *)
Definition core (k : string) : Prop :=
  k = "is_dir" \/ k = "id" \/ k = "parent_id" \/ k = "name".

Ltac core_ne := unfold core in *; intuition (subst; discriminate).

End NormalizeAttr.

(** ** Insertion-ordered dictionaries

    [http.cookiejar.CookieJar] keeps its cookies in nested dictionaries
    (domain, then path, then name) and is iterated in insertion order,
    so those are modelled by association lists. *)

Module ADict.

Section Ops.
Context {V : Type}.

(** [d.get(k)] *)
Fixpoint aget (k : string) (d : list (string * V)) : option V :=
  match d with
  | [] => None
  | (k', v) :: d' => if String.eqb k' k then Some v else aget k d'
  end.

(** [d[k] = v]: an existing key keeps its place. *)
Fixpoint aset (k : string) (v : V) (d : list (string * V)) : list (string * V) :=
  match d with
  | [] => [(k, v)]
  | (k', v') :: d' => if String.eqb k' k then (k, v) :: d' else (k', v') :: aset k v d'
  end.

(** [del d[k]] *)
Fixpoint adel (k : string) (d : list (string * V)) : list (string * V) :=
  match d with
  | [] => []
  | (k', v') :: d' => if String.eqb k' k then d' else (k', v') :: adel k d'
  end.

End Ops.
End ADict.
Import ADict.

(** ** The cookie state of [P115Client] (client.py, lines 632-771 and 7003-7011) *)

Module Cookies.

Record cookie : Type := Cookie
  { cookie_domain : string; cookie_path : string; cookie_name : string; cookie_value : string }.

(** [CookieJar._cookies]: domain, then path, then name. *)
Definition cookiejar : Type := list (string * list (string * list (string * cookie))).

(** Iterating over the jar ([deepvalues]). *)
Definition jar_cookies (jar : cookiejar) : list cookie :=
  flat_map (fun dp => flat_map (fun pn => map snd (snd pn)) (snd dp)) jar.

(** [CookieJar.set_cookie] *)
Definition set_cookie (c : cookie) (jar : cookiejar) : cookiejar :=
  let c2 := match aget (cookie_domain c) jar with Some x => x | None => [] end in
  let c3 := match aget (cookie_path c) c2 with Some x => x | None => [] end in
  aset (cookie_domain c) (aset (cookie_path c) (aset (cookie_name c) c c3) c2) jar.

(** [CookieJar.clear(domain, path, name)] for a cookie known to be in
    the jar. *)
Definition clear_cookie (domain path name : string) (jar : cookiejar) : cookiejar :=
  match aget domain jar with
  | Some c2 =>
      match aget path c2 with
      | Some c3 => aset domain (aset path (adel name c3) c2) jar
      | None => jar
      end
  | None => jar
  end.

(** [httpx.Cookies.get(name)]: the value of the one cookie of that
    name, [None] when there is none, an error when there are several. *)
Fixpoint cookies_get_from (name : string) (found : option string) (l : list cookie) : outcome (option string) :=
  match l with
  | [] => Return found
  | c :: l' =>
      if String.eqb (cookie_name c) name then
        match found with
        | Some _ => raise CookieConflict (VStr name)
        | None => cookies_get_from name (Some (cookie_value c)) l'
        end
      else cookies_get_from name found l'
  end.

Definition cookies_get (name : string) (jar : cookiejar) : outcome (option string) :=
  cookies_get_from name None (jar_cookies jar).

(** The client's state as far as cookies go: the jar, the two
    [cached_property] slots in the instance's [__dict__], and the cookie
    file ([None] when no [cookies_path] is configured) with the
    modification times of the file and the one the client last saw. *)
Record client : Type := Client
  { jar : cookiejar;
    cached_user_id : option Z;
    cached_user_key : option string;
    cookies_file : option string;
    file_mtime : Z;
    cookies_mtime : Z }.

Definition with_jar (j : cookiejar) (c : client) : client :=
  Client j (cached_user_id c) (cached_user_key c) (cookies_file c) (file_mtime c) (cookies_mtime c).

Definition with_user_id (u : option Z) (c : client) : client :=
  Client (jar c) u (cached_user_key c) (cookies_file c) (file_mtime c) (cookies_mtime c).

Definition with_user_key (k : option string) (c : client) : client :=
  Client (jar c) (cached_user_id c) k (cookies_file c) (file_mtime c) (cookies_mtime c).

(** Methods read and update the client and may raise. *)
Definition method (A : Type) : Type := client -> outcome A * client.

Definition m_ret {A} (a : A) : method A := fun c => (Return a, c).

Definition m_bind {A B} (m : method A) (k : A -> method B) : method B :=
  fun c =>
    match m c with
    | (Return a, c') => k a c'
    | (Raise e, c') => (Raise e, c')
    end.

Definition m_lift {A} (o : outcome A) : method A := fun c => (o, c).

Definition m_get : method client := fun c => (Return c, c).

Definition m_modify (f : client -> client) : method unit := fun c => (Return tt, f c).

#[global] Instance method_ret : MRet method := @m_ret.
#[global] Instance method_bind : MBind method := fun _ _ k m => m_bind m k.

(** The body of [user_id] (lines 723-727), evaluated on a jar. *)
Definition compute_user_id (j : cookiejar) : outcome Z :=
  cookie_uid ← cookies_get "UID" j;
  match cookie_uid with
  | Some uid =>
      if truthy (VStr uid) then
        match split "_" uid with
        | first :: _ => py_int (VStr first)
        | [] => raise IndexError VNone
        end
      else mret 0
  | None => mret 0
  end.

(** [user_id], a [cached_property]: the body runs when the instance's
    [__dict__] has no value for it, and the result is stored there. *)
Definition user_id : method Z :=
  c ← m_get;
  match cached_user_id c with
  | Some u => mret u
  | None =>
      u ← m_lift (compute_user_id (jar c));
      _ ← m_modify (with_user_id (Some u));
      mret u
  end.

(** [login_ssoent], a plain property (lines 7007-7011). *)
Definition login_ssoent : method (option string) :=
  c ← m_get;
  cookie_uid ← m_lift (cookies_get "UID" (jar c));
  match cookie_uid with
  | Some uid =>
      if truthy (VStr uid) then
        match split "_" uid with
        | _ :: second :: _ => mret (Some second)
        | _ => m_lift (raise IndexError VNone)
        end
      else mret None
  | None => mret None
  end.

(** [_write_cookies(cookies)] (lines 757-771): without a configured
    path nothing happens; otherwise the file is rewritten and its new
    modification time recorded. *)
Definition write_cookies (cookies : string) : method unit :=
  m_modify (fun c =>
    match cookies_file c with
    | None => c
    | Some _ =>
        Client (jar c) (cached_user_id c) (cached_user_key c) (Some cookies)
          (file_mtime c + 1) (file_mtime c + 1)
    end).

(** A segment of a [UID] value holds no underscore. *)
Definition no_underscore (s : string) : bool :=
  forallb (fun c => negb (Ascii.eqb c "_")) (list_ascii_of_string s).

(** What can be assigned to [cookies]; an element of an iterable stands
    for the cookie that [create_cookie("", element)] makes of it. *)
Inductive assigned : Type :=
| CNone
| CStr (s : string)
| CMapping (m : list (string * option string))
| CIterable (l : list cookie).

Section Setter.

(** From outside the file: [P115Cookies.from_cookiejar] (the cookie
    string of the jar), [cookietools.cookies_str_to_dict] and
    [cookietools.create_cookie]. *)
Variable from_cookiejar : list cookie -> string.
Variable cookies_str_to_dict : string -> list (string * option string).
Variable create_cookie : string -> string -> string -> cookie.

(** [cookies_str] *)
Definition cookies_str : method string :=
  c ← m_get; mret (from_cookiejar (jar_cookies (jar c))).

(** Lines 675-678: the first cookie of the jar named [key] is removed. *)
Definition clear_named (key : string) (j : cookiejar) : cookiejar :=
  match filter (fun c => String.eqb (cookie_name c) key) (jar_cookies j) with
  | c :: _ => clear_cookie (cookie_domain c) (cookie_path c) (cookie_name c) j
  | [] => j
  end.

(** Lines 671-678. *)
Fixpoint assign_items (m : list (string * option string)) (j : cookiejar) : cookiejar :=
  match m with
  | [] => j
  | (key, val) :: m' =>
      match val with
      | Some v =>
          if truthy (VStr v) then assign_items m' (set_cookie (create_cookie key v ".115.com") j)
          else assign_items m' (clear_named key j)
      | None => assign_items m' (clear_named key j)
      end
  end.

(** Lines 685-691: the cached ids are refreshed and the file rewritten
    when the cookie string changed. *)
Definition refresh (cookies_old : string) : method unit :=
  uid ← user_id;
  _ ← m_modify (with_user_id None);
  uid' ← user_id;
  _ ← (if uid' =? uid then mret tt else m_modify (with_user_key None));
  cookies_new ← cookies_str;
  if String.eqb cookies_old cookies_new then mret tt
  else (s ← cookies_str; write_cookies s).

(** Lines 665-684, for a mapping. *)
Definition assign_mapping (cookies_old : string) (m : list (string * option string)) : method unit :=
  match m with
  | [] => mret tt
  | _ =>
      _ ← m_modify (fun c => with_jar (assign_items m (jar c)) c);
      refresh cookies_old
  end.

(** The setter of [cookies] (lines 643-691). *)
Definition cookies_setter (cookies : assigned) : method unit :=
  cookies_old ← cookies_str;
  match cookies with
  | CNone =>
      _ ← m_modify (with_jar []);
      if String.eqb cookies_old "" then mret tt else write_cookies ""
  | CStr s =>
      let s := rstrip_char ";" (strip s) in
      if String.eqb s "" then mret tt
      else assign_mapping cookies_old (cookies_str_to_dict s)
  | CMapping m => assign_mapping cookies_old m
  | CIterable l =>
      _ ← m_modify (fun c => with_jar (foldl (fun j ck => set_cookie ck j) (jar c) l) c);
      refresh cookies_old
  end.

End Setter.

End Cookies.

(** ** Regular expressions, as far as [CRE_115_DOMAIN_match] needs them *)

Module Re.

Inductive re : Type :=
| Void
| Eps
| Chr (p : ascii -> bool)
| Cat (r1 r2 : re)
| Alt (r1 r2 : re)
| Star (r : re).

(** The words of a regular expression. *)
Inductive matches : re -> list ascii -> Prop :=
| MEps : matches Eps []
| MChr p c : p c = true -> matches (Chr p) [c]
| MCat r1 r2 w1 w2 : matches r1 w1 -> matches r2 w2 -> matches (Cat r1 r2) (w1 ++ w2)
| MAltL r1 r2 w : matches r1 w -> matches (Alt r1 r2) w
| MAltR r1 r2 w : matches r2 w -> matches (Alt r1 r2) w
| MStarNil r : matches (Star r) []
| MStarCons r w1 w2 : matches r w1 -> matches (Star r) w2 -> matches (Star r) (w1 ++ w2).

Fixpoint nullable (r : re) : bool :=
  match r with
  | Void => false
  | Eps => true
  | Chr _ => false
  | Cat r1 r2 => nullable r1 && nullable r2
  | Alt r1 r2 => nullable r1 || nullable r2
  | Star _ => true
  end.

(** Concatenation and choice that drop [Void] on the way. *)
Definition cat (r1 r2 : re) : re :=
  match r1, r2 with
  | Void, _ => Void
  | _, Void => Void
  | Eps, _ => r2
  | _, _ => Cat r1 r2
  end.

Definition alt (r1 r2 : re) : re :=
  match r1, r2 with
  | Void, _ => r2
  | _, Void => r1
  | _, _ => Alt r1 r2
  end.

(** The derivative of [r] by the character [c]. *)
Fixpoint deriv (c : ascii) (r : re) : re :=
  match r with
  | Void => Void
  | Eps => Void
  | Chr p => if p c then Eps else Void
  | Cat r1 r2 =>
      if nullable r1 then alt (cat (deriv c r1) r2) (deriv c r2)
      else cat (deriv c r1) r2
  | Alt r1 r2 => alt (deriv c r1) (deriv c r2)
  | Star r1 => cat (deriv c r1) (Star r1)
  end.

(** [re.match]: some prefix of the text is a word of [r]. *)
Fixpoint match_prefix (r : re) (s : list ascii) : bool :=
  nullable r ||
  match s with
  | [] => false
  | c :: s' => match_prefix (deriv c r) s'
  end.

(** The pieces of pattern syntax used. *)
Fixpoint lit (l : list ascii) : re :=
  match l with
  | [] => Eps
  | c :: l' => Cat (Chr (Ascii.eqb c)) (lit l')
  end.

Definition literal (s : string) : re := lit (list_ascii_of_string s).
Definition opt (r : re) : re := Alt r Eps.
Definition plus (r : re) : re := Cat r (Star r).

(** [.]: any character but a newline. *)
Definition dot : re := Chr (fun c => negb (Ascii.eqb c "010")).

(** [[^.]] *)
Definition not_a_dot : re := Chr (fun c => negb (Ascii.eqb c ".")).

End Re.

(** ** The header policy of [P115Client.request] (client.py, lines 1368-1458) *)

Module Request.
Import Re.

(** The pattern [https?://(?:[^.]+\.)*115.com] of line 71. *)
Definition CRE_115_DOMAIN : re :=
  Cat (literal "http")
   (Cat (opt (literal "s"))
    (Cat (literal "://")
     (Cat (Star (Cat (plus not_a_dot) (literal ".")))
      (Cat (literal "115") (Cat dot (literal "com")))))).

(** [CRE_115_DOMAIN_match(url) is not None] *)
Definition CRE_115_DOMAIN_match (url : string) : bool :=
  match_prefix CRE_115_DOMAIN (list_ascii_of_string url).

(** [any(k.lower() == "cookie" for k in headers)] *)
Definition has_cookie_key (headers : gmap string string) : bool :=
  existsb (fun kv => String.eqb (lower (fst kv)) "cookie") (map_to_list headers).

(** [{**a, **b}]: the entries of [b] win. *)
Definition merge (a b : gmap string string) : gmap string string := b ∪ a.

(** The two places the header block leaves its result in: the
    ["headers"] entry of [request_kwargs] and the local variable
    [headers].  When the local is a dictionary it is the very object
    stored in [request_kwargs]. *)
Record prepared : Type := Prepared
  { kwargs_headers : option (gmap string string);
    local_headers : option (gmap string string) }.

(** Line 1370 and lines 1373-1374. *)
Definition need_cookie_header (url : string) (custom_request : bool) : bool :=
  let need := negb (CRE_115_DOMAIN_match url) in
  if negb need then custom_request else need.

(** Lines 1379-1387.  [url] is the target once [make_url] has merged
    the query parameters, [custom_request] tells whether the caller
    passed [request], [given] is the caller's ["headers"] keyword. *)
Definition prepare_headers (self_headers : gmap string string) (cookies_str : string)
    (url : string) (custom_request : bool) (given : option (gmap string string)) : prepared :=
  let need := need_cookie_header url custom_request in
  match given with
  | Some h =>
      let headers := merge self_headers h in
      if negb need then
        if negb (has_cookie_key headers) then Prepared (Some headers) None
        else Prepared (Some headers) (Some headers)
      else if negb (has_cookie_key headers) then
        let headers := <["Cookie" := cookies_str]> headers in
        Prepared (Some headers) (Some headers)
      else Prepared (Some headers) (Some headers)
  | None =>
      if need then
        let headers := <["Cookie" := cookies_str]> self_headers in
        Prepared (Some headers) (Some headers)
      else Prepared None None
  end.

(** The headers of the first call of the transport (lines 1388-1458):
    with a re-login policy the loop stores the cookie string under
    ["Cookie"] whenever the local [headers] is a dictionary, and that
    dictionary is the one in [request_kwargs]; without a policy
    [request_kwargs] goes out as prepared. *)
Definition sent_headers (relogin : bool) (cookies_str : string) (p : prepared) : option (gmap string string) :=
  if relogin then
    match local_headers p with
    | Some h => Some (<["Cookie" := cookies_str]> h)
    | None => kwargs_headers p
    end
  else kwargs_headers p.

Definition request_headers (self_headers : gmap string string) (cookies_str : string)
    (relogin : bool) (url : string) (custom_request : bool)
    (given : option (gmap string string)) : option (gmap string string) :=
  sent_headers relogin cookies_str (prepare_headers self_headers cookies_str url custom_request given).

End Request.

(** ** The QR-code login: [login_with_qrcode] (client.py, lines 1044-1094) *)

Module QrLogin.

(** What the generator asks of its driver, in order. *)
Inductive event : Type :=
| Token                                  (* [login_qrcode_token] *)
| PrintAscii (qrcode : pyval)            (* the code printed on the console *)
| StartFile (url : pyval)                (* the code opened in a viewer *)
| ScanStatus (qrcode_token : pyval)      (* [login_qrcode_scan_status] *)
| ScanResult (uid : pyval) (app : string). (* [login_qrcode_scan_result] *)

(** How a run stands when the scripted answers are used up: still
    waiting for the answer of its last request, or over. *)
Inductive run (A : Type) : Type :=
| Waiting
| Over (o : outcome A).
Arguments Waiting {A}.
Arguments Over {A} o.

(** [resp["data"].get("status")] *)
Definition status_of (resp : pyval) : outcome pyval :=
  data ← subscript resp "data";
  match data with
  | VDict d => mret (dict_get d "status" VNone)
  | _ => raise AttributeError (VStr "get")
  end.

(** The verdict of one pass of the [match] statement (lines 1071-1084);
    the progress lines it prints are not recorded. *)
Inductive verdict : Type :=
| KeepPolling
| SignedIn
| Abort (e : exn).

Definition login_error (message : pyval) : exn := Exn LoginError (Some EIO) message.

(** The message of the last arm, [f"qrcode: aborted with {resp!r}"],
    is kept as the response it is built from. *)
Definition aborted_with (resp : pyval) : pyval := VList [VStr "qrcode: aborted with "; resp].

Definition judge (resp : pyval) (status : pyval) : verdict :=
  if eq_int status 0 then KeepPolling
  else if eq_int status 1 then KeepPolling
  else if eq_int status 2 then SignedIn
  else if eq_int status (-1) then Abort (login_error (VStr "[status=-1] qrcode: expired"))
  else if eq_int status (-2) then Abort (login_error (VStr "[status=-2] qrcode: canceled"))
  else Abort (login_error (aborted_with resp)).

(** Lines 1085-1093, entered when the loop is left by [break]. *)
Definition after_loop (app : string) (qrcode_token : pyval) (result : option (outcome pyval))
    (trace : list event) : run pyval * list event :=
  if truthy (VStr app) then
    match subscript qrcode_token "uid" with
    | Return uid =>
        match result with
        | Some o => (Over o, trace ++ [ScanResult uid app])
        | None => (Waiting, trace ++ [ScanResult uid app])
        end
    | Raise e => (Over (Raise e), trace)
    end
  else (Over (Return qrcode_token), trace).

(** The loop of lines 1062-1084 over the scripted answers [polls] of
    the status requests; [result] is the answer of the device exchange,
    if it comes.  An answer that is an exception is swallowed and the
    status asked again. *)
Fixpoint poll_loop (app : string) (qrcode_token : pyval) (polls : list (outcome pyval))
    (result : option (outcome pyval)) (trace : list event) : run pyval * list event :=
  match polls with
  | [] => (Waiting, trace ++ [ScanStatus qrcode_token])
  | answer :: polls' =>
      let trace := trace ++ [ScanStatus qrcode_token] in
      match answer with
      | Raise _ => poll_loop app qrcode_token polls' result trace
      | Return resp =>
          match status_of resp with
          | Raise e => (Over (Raise e), trace)
          | Return status =>
              match judge resp status with
              | KeepPolling => poll_loop app qrcode_token polls' result trace
              | SignedIn => after_loop app qrcode_token result trace
              | Abort e => (Over (Raise e), trace)
              end
          end
      end
  end.

(** [qrcode_token.pop("qrcode")] *)
Definition pop_qrcode (qrcode_token : pyval) : outcome (pyval * pyval) :=
  match qrcode_token with
  | VDict d =>
      match d !! "qrcode" with
      | Some q => Return (q, VDict (delete "qrcode" d))
      | None => raise KeyError (VStr "qrcode")
      end
  | _ => raise AttributeError (VStr "pop")
  end.

(** ["https://qrcodeapi.115.com/api/1.0/web/1.0/qrcode?uid=" + uid] *)
Definition viewer_url (uid : pyval) : outcome pyval :=
  match uid with
  | VStr u => Return (VStr ("https://qrcodeapi.115.com/api/1.0/web/1.0/qrcode?uid=" +:+ u))
  | _ => raise TypeError uid
  end.

(** [login_with_qrcode(app, console_qrcode)], driven with the scripted
    answers [token] (of the token request), [polls] and [result]. *)
Definition login_with_qrcode (app : string) (console_qrcode : bool)
    (token : outcome pyval) (polls : list (outcome pyval)) (result : option (outcome pyval))
    : run pyval * list event :=
  match token with
  | Raise e => (Over (Raise e), [Token])
  | Return resp =>
      match (data ← subscript resp "data"; pop_qrcode data) with
      | Raise e => (Over (Raise e), [Token])
      | Return (qrcode, qrcode_token) =>
          if console_qrcode then
            poll_loop app qrcode_token polls result [Token; PrintAscii qrcode]
          else
            match (uid ← subscript qrcode_token "uid"; viewer_url uid) with
            | Raise e => (Over (Raise e), [Token])
            | Return url => poll_loop app qrcode_token polls result [Token; StartFile url]
            end
      end
  end.

(** An answer after which the loop asks again: an exception, or a
    status of 0 or 1. *)
Definition keeps_polling (answer : outcome pyval) : bool :=
  match answer with
  | Raise _ => true
  | Return resp =>
      match status_of resp with
      | Return status => eq_int status 0 || eq_int status 1
      | Raise _ => false
      end
  end.

(** [n] status requests in a row. *)
Definition polled (qrcode_token : pyval) (n : nat) : list event :=
  repeat (ScanStatus qrcode_token) n.

Definition is_exchange (e : event) : bool :=
  match e with
  | ScanResult _ _ => true
  | _ => false
  end.

(** A response of the status request with the given status. *)
Definition status_response (status : pyval) : pyval :=
  VDict (<["state" := VInt 1]> (<["data" := VDict (<["status" := status]> ∅)]> ∅)).

End QrLogin.

(** ** SHA-1 (FIPS 180-4), the digest [hashlib.sha1] computes

    Used to run the upload negotiation on concrete data. *)

Module Sha1.

Definition w32 (x : Z) : Z := x mod 2 ^ 32.

Definition rotl (n x : Z) : Z := w32 (Z.lor (Z.shiftl x n) (Z.shiftr x (32 - n))).

Definition not32 (x : Z) : Z := Z.lxor x (2 ^ 32 - 1).

(** The message followed by the bit 1, zeros, and its length in bits
    on eight bytes, a multiple of 64 bytes in all. *)
Definition be64 (n : Z) : list Z :=
  map (fun i => Z.shiftr n (8 * (7 - Z.of_nat i)) mod 256) (seq 0 8).

Definition pad (msg : list Z) : list Z :=
  let n := Z.of_nat (length msg) in
  msg ++ [128] ++ repeat 0 (Z.to_nat ((55 - n) mod 64)) ++ be64 (8 * n).

Fixpoint words (l : list Z) : list Z :=
  match l with
  | a :: b :: c :: d :: l' => (((a * 256 + b) * 256 + c) * 256 + d) :: words l'
  | _ => []
  end.

Fixpoint blocks (fuel : nat) (ws : list Z) : list (list Z) :=
  match fuel with
  | O => []
  | S fuel' =>
      match ws with
      | [] => []
      | _ => firstn 16 ws :: blocks fuel' (skipn 16 ws)
      end
  end.

(** The message schedule, latest word first. *)
Fixpoint schedule (n : nat) (rev_w : list Z) : list Z :=
  match n with
  | O => rev_w
  | S n' =>
      let w := rotl 1 (Z.lxor (Z.lxor (nth 2 rev_w 0) (nth 7 rev_w 0))
                              (Z.lxor (nth 13 rev_w 0) (nth 15 rev_w 0))) in
      schedule n' (w :: rev_w)
  end.

Definition round (t : nat) (w : Z) (s : Z * Z * Z * Z * Z) : Z * Z * Z * Z * Z :=
  let '(a, b, c, d, e) := s in
  let '(f, k) :=
    if (t <? 20)%nat then (Z.lor (Z.land b c) (Z.land (not32 b) d), 1518500249)
    else if (t <? 40)%nat then (Z.lxor (Z.lxor b c) d, 1859775393)
    else if (t <? 60)%nat then
      (Z.lor (Z.lor (Z.land b c) (Z.land b d)) (Z.land c d), 2400959708)
    else (Z.lxor (Z.lxor b c) d, 3395469782) in
  (w32 (rotl 5 a + f + e + k + w), a, rotl 30 b, c, d).

Fixpoint rounds (t : nat) (ws : list Z) (s : Z * Z * Z * Z * Z) : Z * Z * Z * Z * Z :=
  match ws with
  | [] => s
  | w :: ws' => rounds (S t) ws' (round t w s)
  end.

Definition compress (h : Z * Z * Z * Z * Z) (block : list Z) : Z * Z * Z * Z * Z :=
  let '(h0, h1, h2, h3, h4) := h in
  let '(a, b, c, d, e) := rounds 0 (rev (schedule 64 (rev block))) h in
  (w32 (h0 + a), w32 (h1 + b), w32 (h2 + c), w32 (h3 + d), w32 (h4 + e)).

Definition initial : Z * Z * Z * Z * Z :=
  (1732584193, 4023233417, 2562383102, 271733878, 3285377520).

Definition hex_digit (z : Z) : ascii :=
  if z <? 10 then char_of (48 + z) else char_of (87 + z).

Definition hex_word (w : Z) : list ascii :=
  map (fun i => hex_digit (Z.shiftr w (4 * (7 - Z.of_nat i)) mod 16)) (seq 0 8).

(** [sha1(data).hexdigest()] *)
Definition hexdigest (data : list Byte.byte) : string :=
  let msg := pad (map (fun b => Z.of_N (Byte.to_N b)) data) in
  let '(h0, h1, h2, h3, h4) := fold_left compress (blocks (length msg) (words msg)) initial in
  string_of_list_ascii (flat_map hex_word [h0; h1; h2; h3; h4]).

End Sha1.

(** ** Step sequences

    A composite operation is written once as a generator ([gen_step])
    whose yields are requests; [run_gen_step] (iterutils) drives it, at
    once in blocking mode and when the coroutine it returns is awaited
    otherwise.  A step sequence is run against an environment that
    answers each request given the requests made so far, and the
    requests are recorded in order. *)

Module Steps.

Definition steps (Ev A : Type) : Type :=
  (list Ev -> Ev -> outcome pyval) -> list Ev -> outcome A * list Ev.

Definition s_ret {Ev A} (a : A) : steps Ev A := fun _ tr => (Return a, tr).

Definition s_bind {Ev A B} (m : steps Ev A) (k : A -> steps Ev B) : steps Ev B :=
  fun env tr =>
    match m env tr with
    | (Return a, tr') => k a env tr'
    | (Raise e, tr') => (Raise e, tr')
    end.

#[global] Instance steps_ret {Ev} : MRet (steps Ev) := @s_ret Ev.
#[global] Instance steps_bind {Ev} : MBind (steps Ev) := fun _ _ k m => s_bind m k.

(** A request is made and its answer received. *)
Definition perform {Ev} (e : Ev) : steps Ev pyval :=
  fun env tr => (env tr e, tr ++ [e]).

(** A step that involves no request. *)
Definition lift {Ev A} (o : outcome A) : steps Ev A := fun _ tr => (o, tr).

(** A call that may fail before its step sequence exists: run from an
    empty record of requests. *)
Definition run {Ev A} (call : outcome (steps Ev A)) (env : list Ev -> Ev -> outcome pyval)
    : outcome A * list Ev :=
  match call with
  | Return g => g env []
  | Raise e => (Raise e, [])
  end.

(** A step sequence only adds to the record of requests. *)
Definition grows {Ev A} (m : steps Ev A) : Prop :=
  forall env tr, exists rest, snd (m env tr) = tr ++ rest.

End Steps.
Import Steps.

(** ** Upload negotiation: [upload_file_init] (client.py, lines 9203-9281) *)

Module Upload.

(** The requests of the step sequence: a negotiation call
    [_upload_file_init(filename, filesize, filesha1, target, sign_key,
    sign_val)], and a call of [read_range_bytes_or_hash(sign_check)]. *)
Inductive event : Type :=
| Negotiate (filename : string) (filesize : Z) (filesha1 : string) (target : string)
    (sign_key sign_val : pyval)
| ReadRange (sign_check : pyval).

Definition need_read_range : pyval :=
  VStr "filesize >= 1 MB, thus need pass the `read_range_bytes_or_hash` argument".

Section WithSha1.

(** [hashlib]'s [sha1(data).hexdigest()]. *)
Variable sha1_hexdigest : list Byte.byte -> string.

(** Lines 9257-9260. *)
Definition sign_val_of (data : pyval) : outcome pyval :=
  match data with
  | VStr s => Return (VStr (upper s))
  | VBytes b => Return (VStr (upper (sha1_hexdigest b)))
  | _ => raise TypeError data
  end.

(** [resp["status"] == 7 and resp["statuscode"] == 701] *)
Definition wants_sign_check (resp : pyval) : outcome bool :=
  status ← subscript resp "status";
  if eq_int status 7 then
    statuscode ← subscript resp "statuscode";
    mret (eq_int statuscode 701)
  else mret false.

(** Lines 9271-9280. *)
Definition with_data (resp : pyval) (filename : string) (filesize : Z) (filesha1 : string)
    (target : string) (pid : Z) : outcome pyval :=
  resp ← store resp "state" (VBool true);
  pickcode ← subscript resp "pickcode";
  store resp "data"
    (VDict (<["target" := VStr target]> (<["file_name" := VStr filename]>
            (<["file_size" := VInt filesize]> (<["sha1" := VStr filesha1]>
            (<["cid" := VInt pid]> (<["pickcode" := pickcode]> ∅))))))).

(** The generator of lines 9236-9280; [capable] tells whether
    [read_range_bytes_or_hash] was supplied. *)
Definition gen_step (filename : string) (filesize : Z) (filesha1 : string) (capable : bool)
    (pid : Z) (target : string) : steps event pyval :=
  resp ← perform (Negotiate filename filesize filesha1 target (VStr "") (VStr ""));
  challenged ← lift (wants_sign_check resp);
  resp ← (if challenged : bool then
            if negb capable then lift (Raise (Exn ValueError None need_read_range))
            else
              sign_key ← lift (subscript resp "sign_key");
              sign_check ← lift (subscript resp "sign_check");
              data ← perform (ReadRange sign_check);
              sign_val ← lift (sign_val_of data);
              perform (Negotiate filename filesize filesha1 target sign_key sign_val)
          else mret resp);
  lift (with_data resp filename filesize filesha1 target pid).

(** [upload_file_init(filename, filesize, filesha1,
    read_range_bytes_or_hash, pid)]: the check of lines 9232-9233 runs
    at the call, the generator is then handed to [run_gen_step]. *)
Definition upload_file_init (filename : string) (filesize : Z) (filesha1 : string)
    (capable : bool) (pid : Z) : outcome (steps event pyval) :=
  if (filesize >=? Z.shiftl 1 20) && negb capable then
    Raise (Exn ValueError None need_read_range)
  else
    let filesha1 := upper filesha1 in
    let target := "U_1_" +:+ str_of_int pid in
    Return (gen_step filename filesize filesha1 capable pid target).

End WithSha1.

End Upload.

(** ** Ranged reads: [read_bytes] and [read_bytes_range] (client.py, lines 10795-10900) *)

Module ReadBytes.

(** A download link: its text and, for a [P115URL], the headers it
    carries. *)
Record link : Type := Link { link_text : string; link_headers : option (gmap string string) }.

(** The keywords forwarded to the dispatcher that this code looks at. *)
Record keywords : Type := Keywords { kw_method : option string; kw_parse : option pyval }.

(** How the body is to be parsed: as given by the caller, left as bytes
    ([False]), or reduced to the total length ([get_total_length]). *)
Inductive parse : Type :=
| ParseGiven (p : pyval)
| ParseFalse
| ParseTotalLength.

(** The one request of [read_bytes_range]: [self.request(url,
    headers=..., method=..., parse=...)]. *)
Record event : Type := Request
  { req_url : string; req_headers : gmap string string; req_method : string; req_parse : parse }.

(** Lines 10892-10897: the headers of the request.  A missing or empty
    [headers] starts from the empty dictionary, the headers of a
    [P115URL] are merged over it, and the two fixed entries are set. *)
Definition range_headers (url : link) (bytes_range : string)
    (headers : option (gmap string string)) : gmap string string :=
  let h := match headers with Some h => h | None => ∅ end in
  let h := match link_headers url with Some extra => extra ∪ h | None => h end in
  <["Range" := "bytes=" +:+ bytes_range]> (<["Accept-Encoding" := "identity"]> h).

(** [read_bytes_range(url, bytes_range, headers, **request_kwargs)];
    [probe] marks the call of line 10818, whose [parse] keyword is the
    total-length reader. *)
Definition read_bytes_range (url : link) (bytes_range : string)
    (headers : option (gmap string string)) (kw : keywords) (probe : bool) : steps event pyval :=
  perform
    (Request (link_text url) (range_headers url bytes_range headers)
       (match kw_method kw with Some m => m | None => "GET" end)
       (if probe then ParseTotalLength
        else match kw_parse kw with Some p => ParseGiven p | None => ParseFalse end)).

(** Lines 10833-10837. *)
Definition closed_range (start : Z) (stop : option Z) : option string :=
  match stop with
  | None => Some (str_of_int start +:+ "-")
  | Some stop =>
      if start >=? stop then None
      else Some (str_of_int start +:+ "-" +:+ str_of_int (stop - 1))
  end.

(** [get_bytes_range(start, stop)] (lines 10816-10837). *)
Definition get_bytes_range (url : link) (headers : option (gmap string string)) (kw : keywords)
    (start : Z) (stop : option Z) : steps event (option string) :=
  if (start <? 0) || match stop with Some s => negb (s =? 0) && (s <? 0) | None => false end then
    length ← read_bytes_range url "-1" headers kw true;
    start ← lift (if start <? 0 then add_int start length else Return start);
    let start := if start <? 0 then 0 else start in
    match stop with
    | None => mret (Some (str_of_int start +:+ "-"))
    | Some s =>
        s ← lift (if s <? 0 then add_int s length else Return s);
        mret (closed_range start (Some s))
    end
  else mret (closed_range start stop).

(** The generator of [read_bytes] (lines 10815-10847). *)
Definition read_bytes (url : link) (start : Z) (stop : option Z)
    (headers : option (gmap string string)) (kw : keywords) : steps event pyval :=
  bytes_range ← get_bytes_range url headers kw start stop;
  match bytes_range with
  | None => mret (VBytes [])
  | Some r =>
      if String.eqb r "" then mret (VBytes [])
      else read_bytes_range url r headers kw false
  end.

End ReadBytes.

(** ** Hashing a download: [hash] and [hashes] (client.py, lines 10646-10767) *)

Module Hashes.

(** A digest specification: a name, one of the two accumulators that
    [convert_digest] substitutes for a name, or an object of the caller. *)
Inductive digest : Type :=
| DName (name : string)
| DCrc32
| DEd2k
| DObject (id : nat).

(** [convert_digest] (lines 197-204). *)
Definition convert_digest (d : digest) : digest :=
  match d with
  | DName name =>
      if String.eqb name "crc32" then DCrc32
      else if String.eqb name "ed2k" then DEd2k
      else d
  | _ => d
  end.

Section WithReader.

(** The file object [self.open(url, start=start, headers=headers)]
    returns (httpfile), with the total length it exposes. *)
Variable reader : Type.
Variable length : reader -> Z.

(** The values that occur as operands and arguments below. *)
Inductive operand : Type :=
| OReader (file : reader)
| ODigest (d : digest)
| OTuple (items : list digest)
| OInt (n : Z).

(** hashtools' [file_digest], [file_mdigest] and their asynchronous
    counterparts, with the [stop] keyword. *)
Variable R : Type.
Variable file_digest file_digest_async : reader -> digest -> option Z -> outcome R.
Variable file_mdigest file_mdigest_async : reader -> list digest -> option Z -> outcome R.

Fixpoint digests_of (args : list operand) : option (list digest) :=
  match args with
  | [] => Some []
  | ODigest d :: args' => option_map (cons d) (digests_of args')
  | _ => None
  end.

(** A call [f(file, *digests, stop=stop)] with the positional
    arguments [args]: the first has to be the file object, the others
    digest specifications. *)
Definition call_mdigest (f : reader -> list digest -> option Z -> outcome R)
    (args : list operand) (stop : option Z) : outcome R :=
  match args with
  | OReader file :: rest =>
      match digests_of rest with
      | Some ds => f file ds stop
      | None => raise TypeError VNone
      end
  | _ => raise TypeError VNone
  end.

(** [a * b]: a sequence is repeated by an integer; a file object
    defines no product. *)
Definition py_mul (a b : operand) : outcome operand :=
  match a, b with
  | OInt m, OInt n => Return (OInt (m * n))
  | OTuple l, OInt n => Return (OTuple (concat (repeat l (Z.to_nat n))))
  | OInt n, OTuple l => Return (OTuple (concat (repeat l (Z.to_nat n))))
  | _, _ => raise TypeError VNone
  end.

(** [stop] counted from the end when negative (lines 10681-10682 and
    their siblings), then made relative to [start]. *)
Definition relative_stop (file : reader) (start stop : Z) : Z :=
  let stop := if stop <? 0 then stop + length file else stop in
  Z.max 0 (stop - start).

(** [hash(url, digest, start, stop, headers, async_)], on the file
    object the call of [open] returned. *)
Definition hash (file : reader) (d : digest) (start : Z) (stop : option Z) (async_ : bool) : answer R :=
  let d := convert_digest d in
  if async_ then
    Coroutine
      match stop with
      | None => file_digest_async file d None
      | Some s => file_digest_async file d (Some (relative_stop file start s))
      end
  else
    Now
      match stop with
      | None => file_digest file d None
      | Some s => file_digest file d (Some (relative_stop file start s))
      end.

(** [hashes(url, digest, *digests, start, stop, headers, async_)].
    Line 10758 reads [file_mdigest_async(file *digests, stop=...)]: its
    one positional argument is the product of the file object and the
    tuple of digests. *)
Definition hashes (file : reader) (d : digest) (ds : list digest) (start : Z) (stop : option Z)
    (async_ : bool) : answer R :=
  let digests := convert_digest d :: map convert_digest ds in
  if async_ then
    Coroutine
      match stop with
      | None => call_mdigest file_mdigest_async (OReader file :: map ODigest digests) None
      | Some s =>
          let stop := relative_stop file start s in
          product ← py_mul (OReader file) (OTuple digests);
          call_mdigest file_mdigest_async [product] (Some stop)
      end
  else
    Now
      match stop with
      | None => call_mdigest file_mdigest (OReader file :: map ODigest digests) None
      | Some s =>
          call_mdigest file_mdigest (OReader file :: map ODigest digests)
            (Some (relative_stop file start s))
      end.

End WithReader.

End Hashes.

(** ** Endpoint addresses: [complete_api], [complete_webapi] and
    [make_ed2k_url] (client.py, lines 107-132 and 228-234) *)

Module Urls.

(** An argument declared [bool | str]. *)
Inductive bool_or_str : Type :=
| BBool (b : bool)
| BStr (s : string).

Definition truthy_arg (a : bool_or_str) : bool :=
  match a with
  | BBool b => b
  | BStr s => truthy (VStr s)
  end.

(** An argument declared [int | str], its value and its text in an
    f-string. *)
Inductive ident : Type :=
| IdInt (z : Z)
| IdStr (s : string).

Definition value_of (i : ident) : pyval :=
  match i with
  | IdInt z => VInt z
  | IdStr s => VStr s
  end.

Definition format (i : ident) : string :=
  match i with
  | IdInt z => str_of_int z
  | IdStr s => s
  end.

(** [s.startswith(ch)] for a one-character [ch]. *)
Definition startswith (ch : ascii) (s : string) : bool :=
  match s with
  | String c _ => Ascii.eqb c ch
  | EmptyString => false
  end.

(** Lines 108-109 and 129-130. *)
Definition rooted (path : string) : string :=
  if truthy (VStr path) && negb (startswith "/" path) then "/" +:+ path else path.

(** [complete_api(path, base, base_url)] *)
Definition complete_api (path base : string) (base_url : bool_or_str) : string :=
  let path := rooted path in
  if truthy_arg base_url then
    let base := if negb (truthy (VStr base)) then "site" else base in
    let base_url :=
      match base_url with
      | BBool _ => "https://v.anxia.com"
      | BStr s => s
      end in
    base_url +:+ "/" +:+ base +:+ path
  else
    let base := if truthy (VStr base) then base +:+ "." else base in
    "https://" +:+ base +:+ "115.com" +:+ path.

(** [complete_webapi(path, base_url, get_prefix)]; [prefix] is what the
    call [get_prefix()] returns, [None] when there is no [get_prefix]. *)
Definition complete_webapi (path : string) (base_url : bool_or_str) (prefix : option string) : string :=
  let path :=
    match prefix with
    | Some p => p +:+ rooted path
    | None => path
    end in
  complete_api path "webapi" base_url.

(** [name.translate(ED2K_NAME_TRANSTAB)]: a slash becomes [%2F], a
    vertical bar [%7C]. *)
Fixpoint translate (name : string) : string :=
  match name with
  | EmptyString => EmptyString
  | String c name' =>
      if Ascii.eqb c "/" then "%2F" +:+ translate name'
      else if Ascii.eqb c "|" then "%7C" +:+ translate name'
      else String c (translate name')
  end.

(** [make_ed2k_url(name, size, hash)] *)
Definition make_ed2k_url (name : string) (size : ident) (hash : string) : string :=
  "ed2k://|file|" +:+ translate name +:+ "|" +:+ format size +:+ "|" +:+ hash +:+ "|/".

(** The text holds no vertical bar. *)
Definition no_bar (s : string) : bool :=
  forallb (fun c => negb (Ascii.eqb c "|")) (list_ascii_of_string s).

(** The text holds no dot. *)
Definition no_dot (s : string) : bool :=
  forallb (fun c => negb (Ascii.eqb c ".")) (list_ascii_of_string s).

End Urls.

(** ** Catalog operations: the payloads of [fs_copy], [fs_delete],
    [fs_hide], [fs_move] and [fs_rename] (client.py, lines 3208-3243,
    3309-3335, 4326-4356, 5304-5335 and 5416-5440) *)

Module Catalog.
Import Urls.

(** A payload declared [int | str | dict | Iterable[int | str]]; an
    iterable stands for the values it yields. *)
Inductive payload : Type :=
| One (id : ident)
| Mapping (d : gmap string pyval)
| Many (ids : list ident).

(** A payload declared [tuple[int | str, str] | dict |
    Iterable[tuple[int | str, str]]]. *)
Inductive renaming : Type :=
| Pair (id : ident) (name : string)
| Names (d : gmap string pyval)
| Pairs (l : list (ident * string)).

(** [self.request(url=api, method="POST", data=payload,
    async_=async_)] *)
Record event : Type := Post
  { post_url : string; post_data : gmap string pyval; post_async : bool }.

(** [{"state": False, "message": "no op"}] *)
Definition no_op : pyval :=
  VDict (<["state" := VBool false]> (<["message" := VStr "no op"]> ∅)).

(** [f"{prefix}[{i}]"] *)
Definition indexed_key (prefix : string) (i : nat) : string :=
  prefix +:+ "[" +:+ str_of_int (Z.of_nat i) +:+ "]".

(** [{f"{prefix}[{i}]": x for i, x in enumerate(ids)}], built entry by
    entry from the index [i] on. *)
Fixpoint enumerated (prefix : string) (i : nat) (ids : list ident) (d : gmap string pyval)
    : gmap string pyval :=
  match ids with
  | [] => d
  | x :: ids' => enumerated prefix (S i) ids' (<[indexed_key prefix i := value_of x]> d)
  end.

(** [{f"files_new_name[{fid}]": name for fid, name in pairs}] *)
Definition name_key (id : ident) : string := "files_new_name[" +:+ format id +:+ "]".

Fixpoint renamed (pairs : list (ident * string)) (d : gmap string pyval) : gmap string pyval :=
  match pairs with
  | [] => d
  | (id, name) :: pairs' => renamed pairs' (<[name_key id := VStr name]> d)
  end.

(** [d.setdefault(key, v)], as far as [d] goes. *)
Definition setdefault (key : string) (v : pyval) (d : gmap string pyval) : gmap string pyval :=
  match d !! key with
  | Some _ => d
  | None => <[key := v]> d
  end.

(** The common body of [fs_copy] and [fs_move]. *)
Definition transfer (api : string) (p : payload) (pid : Z) (async_ : bool) : steps event pyval :=
  match p with
  | One id => perform (Post api (setdefault "pid" (VInt pid) (<["fid[0]" := value_of id]> ∅)) async_)
  | Mapping d => perform (Post api (setdefault "pid" (VInt pid) d) async_)
  | Many ids =>
      let payload := enumerated "fid" 0 ids ∅ in
      if negb (truthy (VDict payload)) then mret no_op
      else perform (Post api (setdefault "pid" (VInt pid) payload) async_)
  end.

Definition fs_copy (p : payload) (pid : Z) (base_url : bool_or_str) (async_ : bool) : steps event pyval :=
  transfer (complete_webapi "/files/copy" base_url None) p pid async_.

Definition fs_move (p : payload) (pid : Z) (base_url : bool_or_str) (async_ : bool) : steps event pyval :=
  transfer (complete_webapi "/files/move" base_url None) p pid async_.

Definition fs_delete (p : payload) (base_url : bool_or_str) (async_ : bool) : steps event pyval :=
  let api := complete_webapi "/rb/delete" base_url None in
  let payload :=
    match p with
    | One id => <["fid[0]" := value_of id]> ∅
    | Mapping d => d
    | Many ids => enumerated "fid" 0 ids ∅
    end in
  if negb (truthy (VDict payload)) then mret no_op
  else perform (Post api payload async_).

Definition fs_hide (p : payload) (base_url : bool_or_str) (async_ : bool) : steps event pyval :=
  let api := complete_webapi "/files/hiddenfiles" base_url None in
  match p with
  | One id => perform (Post api (<["fid[0]" := value_of id]> (<["hidden" := VInt 1]> ∅)) async_)
  | Mapping d => perform (Post api (d ∪ <["hidden" := VInt 1]> ∅) async_)
  | Many ids =>
      let payload := enumerated "f" 0 ids ∅ in
      if negb (truthy (VDict payload)) then mret no_op
      else perform (Post api (<["hidden" := VInt 1]> payload) async_)
  end.

Definition fs_rename (p : renaming) (base_url : bool_or_str) (async_ : bool) : steps event pyval :=
  let api := complete_webapi "/files/batch_rename" base_url None in
  let payload :=
    match p with
    | Pair id name => <[name_key id := VStr name]> ∅
    | Names d => d
    | Pairs l => renamed l ∅
    end in
  if negb (truthy (VDict payload)) then mret no_op
  else perform (Post api payload async_).

(** The name the last pair for the identifier text [key] gives. *)
Fixpoint last_name (key : string) (pairs : list (ident * string)) (found : option string) : option string :=
  match pairs with
  | [] => found
  | (id, name) :: pairs' =>
      last_name key pairs' (if String.eqb (format id) key then Some name else found)
  end.

End Catalog.

(** ** Block reads: [read_block] (client.py, lines 10928-10963) *)

Module ReadBlock.
Import ReadBytes.

(** The generator of [read_block]: nothing is asked for a size of 0;
    otherwise [read_bytes] runs from [offset], up to [offset + size]
    for a positive size and to the end for a negative one. *)
Definition read_block (url : link) (size offset : Z) (headers : option (gmap string string))
    (kw : keywords) : steps event pyval :=
  if size =? 0 then mret (VBytes [])
  else
    let stop := if size >? 0 then Some (offset + size) else None in
    read_bytes url offset stop headers kw.

End ReadBlock.

(** ** The representation invariant of the cookie jar

    [CookieJar._cookies] is a dictionary of dictionaries of
    dictionaries: no key occurs twice at any level, and a cookie is
    filed under its own domain, path and name ([set_cookie] is the only
    writer). *)

Module Jar.
Import Cookies.

Section Keys.
Context {V : Type}.

(** No key of the association list occurs twice. *)
Fixpoint fresh_keys (d : list (string * V)) : bool :=
  match d with
  | [] => true
  | (k, _) :: d' =>
      match aget k d' with
      | None => fresh_keys d'
      | Some _ => false
      end
  end.

End Keys.

(** The cookies filed under [domain] and [path] carry these and their
    own name. *)
Definition filed (domain path : string) (c3 : list (string * cookie)) : bool :=
  forallb (fun nc =>
             String.eqb (cookie_domain (snd nc)) domain
             && String.eqb (cookie_path (snd nc)) path
             && String.eqb (cookie_name (snd nc)) (fst nc)) c3.

Definition well_formed (jar : cookiejar) : bool :=
  fresh_keys jar
  && forallb (fun dc =>
       fresh_keys (snd dc)
       && forallb (fun pc => fresh_keys (snd pc) && filed (fst dc) (fst pc) (snd pc)) (snd dc)) jar.

(** [cookie.name == name] *)
Definition named (name : string) (c : cookie) : bool := String.eqb (cookie_name c) name.

(** No cookie of that name is filed under another domain or path. *)
Definition only_at (domain path name : string) (jar : cookiejar) : bool :=
  forallb (fun c =>
             negb (named name c)
             || (String.eqb (cookie_domain c) domain && String.eqb (cookie_path c) path))
    (jar_cookies jar).

End Jar.

(** ** The cookie file and the retry loop of [P115Client.request]
    (client.py, lines 733-755 and 1388-1458) *)

Module Relogin.
Import Cookies Request.

(** What the loop asks for: a call of the transport with the headers it
    then carries, and a call of [login_another_app(replace=True)]. *)
Inductive event : Type :=
| Send (headers : option (gmap string string))
| Login.

(** One pass of the loop as the environment shapes it: the answer of
    the transport, what the call does to the jar in the meantime (the
    session files the cookies a server sets there), and what other
    threads do to the client while this one waits for the lock. *)
Record attempt : Type := Attempt
  { answer : outcome pyval;
    during : cookiejar -> cookiejar;
    waiting : client -> client }.

(** [cookies_old == cookies_new] for a [cookies_new] that may be [None]. *)
Definition same_cookies (cookies_old : string) (cookies_new : option string) : bool :=
  match cookies_new with
  | Some s => String.eqb cookies_old s
  | None => false
  end.

(** [not res if isinstance(res, bool) else res != 405] *)
Definition gives_up (res : pyval) : bool :=
  match res with
  | VBool b => negb b
  | v => negb (eq_int v 405)
  end.

Section Loop.

Variable from_cookiejar : list cookie -> string.
Variable cookies_str_to_dict : string -> list (string * option string).
Variable create_cookie : string -> string -> string -> cookie.

(** [isinstance(e, AuthenticationError)]; the class hierarchy is that
    of [p115client.exception]. *)
Variable isinstance_AuthenticationError : exn -> bool.

(** The client's [check_for_relogin] when it is callable, and
    [login_another_app(replace=True)]. *)
Variable check_for_relogin : exn -> outcome pyval.
Variable login_another_app : method unit.

(** How the file system answers [stat] and [open] on the cookie file. *)
Variable stat_fails open_fails : bool.

(** [_read_cookies()] (lines 733-755). *)
Definition read_cookies : method (option string) :=
  c ← m_get;
  match cookies_file c with
  | None => mret None
  | Some content =>
      let cookies_mtime_old := cookies_mtime c in
      let mtime := if stat_fails then 0 else file_mtime c in
      if cookies_mtime_old >=? mtime then
        s ← cookies_str from_cookiejar; mret (Some s)
      else if open_fails then mret None
      else
        _ ← cookies_setter from_cookiejar cookies_str_to_dict create_cookie (CStr content);
        _ ← m_modify (fun c =>
               Client (jar c) (cached_user_id c) (cached_user_key c) (cookies_file c)
                 (file_mtime c) mtime);
        mret (Some content)
  end.

(** [self.cookies_str] *)
Definition current (c : client) : string := from_cookiejar (jar_cookies (jar c)).

(** Lines 1441-1456, entered once the policy has approved of a new
    login; [None] stands for the bare [raise]. *)
Definition relogin (i : nat) (a : attempt) (cookies_old : string) (c : client)
    : outcome (option unit) * client * list event :=
  let cookies := current c in
  if negb (String.eqb cookies cookies_old) then (Return (Some tt), c, [])
  else
    let mtime := cookies_mtime c in
    let c := waiting a c in
    let cookies_new := current c in
    let mtime_new := cookies_mtime c in
    if String.eqb cookies cookies_new then
      let need_read_cookies := mtime_new >? mtime in
      match (if need_read_cookies then read_cookies c else (Return (Some cookies_new), c)) with
      | (Raise e, c) => (Raise e, c, [])
      | (Return cookies_new, c) =>
          if negb (Nat.eqb i 0) && same_cookies cookies_old cookies_new then (Return None, c, [])
          else if negb (need_read_cookies
                        && match cookies_new with Some s => truthy (VStr s) | None => false end) then
            match login_another_app c with
            | (Raise e, c) => (Raise e, c, [Login])
            | (Return _, c) => (Return (Some tt), c, [Login])
            end
          else (Return (Some tt), c, [])
      end
    else (Return (Some tt), c, []).

(** The handler of lines 1433-1456 for the exception [e] of pass [i]:
    [Some tt] when the loop goes on, [None] when [e] is raised again. *)
Definition handle (i : nat) (a : attempt) (cookies_old : string) (e : exn) (c : client)
    : outcome (option unit) * client * list event :=
  if isinstance_AuthenticationError e then
    if negb (String.eqb cookies_old (current c)) then (Return (Some tt), c, [])
    else
      match read_cookies c with
      | (Raise e', c) => (Raise e', c, [])
      | (Return r, c) =>
          if negb (same_cookies cookies_old r) then (Return (Some tt), c, [])
          else (Return None, c, [])
      end
  else
    match check_for_relogin e with
    | Raise e' => (Raise e', c, [])
    | Return res =>
        if gives_up res then (Return None, c, [])
        else relogin i a cookies_old c
    end.

(** The loop of lines 1427-1456 over the scripted passes; [p] is the
    header block as prepared before the loop.  When the script is used
    up the last call of the transport is still unanswered. *)
Fixpoint request_loop (p : prepared) (i : nat) (script : list attempt) (c : client)
    (trace : list event) : QrLogin.run pyval * client * list event :=
  let cookies_old := current c in
  let trace := trace ++ [Send (sent_headers true cookies_old p)] in
  match script with
  | [] => (QrLogin.Waiting, c, trace)
  | a :: script' =>
      let c := with_jar (during a (jar c)) c in
      match answer a with
      | Return v => (QrLogin.Over (Return v), c, trace)
      | Raise e =>
          match handle i a cookies_old e c with
          | (Raise e', c, evs) => (QrLogin.Over (Raise e'), c, trace ++ evs)
          | (Return None, c, evs) => (QrLogin.Over (Raise e), c, trace ++ evs)
          | (Return (Some _), c, evs) => request_loop p (S i) script' c (trace ++ evs)
          end
      end
  end.

(** Lines 1388 and 1457-1458: [policy] tells whether the client's
    [check_for_relogin] is callable, which it is not by default.  With
    a policy the loop runs; without one the transport is called once,
    with the headers as prepared, and its answer is the result. *)
Definition request (policy : bool) (p : prepared) (script : list attempt) (c : client)
    : QrLogin.run pyval * client * list event :=
  if policy then request_loop p 0 script c []
  else
    match script with
    | [] => (QrLogin.Waiting, c, [Send (kwargs_headers p)])
    | a :: _ => (QrLogin.Over (answer a), with_jar (during a (jar c)) c, [Send (kwargs_headers p)])
    end.

End Loop.

(** The passes in which nothing else touches the client. *)
Definition quiet (a : attempt) : Prop :=
  (forall j, during a j = j) /\ (forall c, waiting a c = c).

Definition is_send (e : event) : bool :=
  match e with
  | Send _ => true
  | Login => false
  end.

Definition is_login (e : event) : bool := negb (is_send e).

End Relogin.

(** ** Login sequences: [login], [login_app], [login_without_app],
    [login_another_app] and [logout] (client.py, lines 899-915,
    1120-1136, 1235-1255, 1281-1289 and 6453-6463) *)

Module Login.
Import Cookies CheckResponse.

(** What the generators ask for, in order: the methods they yield and
    the assignment [setattr(self, "cookies", ...)]. *)
Inductive event : Type :=
| LoginStatus                                   (* [login_status] *)
| LoginDevice                                   (* [login_device] *)
| QrcodeToken                                   (* [login_qrcode_token] *)
| QrcodeScan (uid : pyval)                      (* [login_qrcode_scan] *)
| QrcodeScanConfirm (uid : pyval)               (* [login_qrcode_scan_confirm] *)
| QrcodeScanResult (uid : pyval) (app : pyval)  (* [login_qrcode_scan_result] *)
| LoginWithQrcode (app : pyval) (console_qrcode : bool)
| AssignCookies (cookies : pyval)
| NewClient (cookies : pyval)                   (* [type(self)(cookies)] *)
| LogoutBySsoent (ssoent : string).

(** What a method hands back: the client itself or a value. *)
Inductive result : Type :=
| Self
| Value (v : pyval).

(** [check_response(resp)[key]] inside a generator: what is not a
    dictionary is taken for an awaitable, and the coroutine object made
    of it cannot be subscripted. *)
Definition checked_item (resp : pyval) (key : string) : outcome pyval :=
  match check_response resp with
  | Now o => r ← o; subscript r key
  | Coroutine _ => raise TypeError VNone
  end.

(** [check_response(resp)] as a statement: a coroutine object made of
    what is not a dictionary is dropped without being awaited. *)
Definition checked (resp : pyval) : outcome unit :=
  match check_response resp with
  | Now o => _ ← o; mret tt
  | Coroutine _ => mret tt
  end.

(** The generator of [login_without_app]. *)
Definition login_without_app : steps event pyval :=
  resp ← perform QrcodeToken;
  data ← lift (checked_item resp "data");
  uid ← lift (subscript data "uid");
  resp ← perform (QrcodeScan uid);
  _ ← lift (checked resp);
  resp ← perform (QrcodeScanConfirm uid);
  _ ← lift (checked resp);
  mret uid.

Definition cannot_determine_app : exn :=
  Exn LoginError (Some EIO) (VStr "can't determine app").

Section WithTable.

(** [SSOENT_TO_APP] of [p115client.const]. *)
Variable SSOENT_TO_APP : gmap string string.

(** The generator of [login_app], for a client in state [c]. *)
Definition login_app (c : client) : steps event pyval :=
  ssoent ← lift (fst (login_ssoent c));
  match ssoent with
  | None => mret VNone
  | Some s =>
      match SSOENT_TO_APP !! s with
      | Some app => mret (VStr app)
      | None =>
          device ← perform LoginDevice;
          match device with
          | VNone => mret VNone
          | _ => lift (subscript device "icon")
          end
      end
  end.

(** The generator of [login_another_app(app, replace)] in blocking
    mode. *)
Definition login_another_app (app : pyval) (replace : bool) (c : client) : steps event result :=
  app ← (if negb (truthy app) then
           app ← login_app c;
           if negb (truthy app) then lift (Raise cannot_determine_app) else mret app
         else mret app);
  uid ← login_without_app;
  resp ← perform (QrcodeScanResult uid app);
  data ← lift (checked_item resp "data");
  cookies ← lift (subscript data "cookie");
  if replace then
    _ ← perform (AssignCookies cookies);
    mret Self
  else
    made ← perform (NewClient cookies);
    mret (Value made).

(** The generator of [login(app, console_qrcode)]. *)
Definition login (app : pyval) (console_qrcode : bool) (c : client) : steps event result :=
  status ← perform LoginStatus;
  if negb (truthy status) then
    app ← (if negb (truthy app) then login_app c else mret app);
    let app := if negb (truthy app) then VStr "qandroid" else app in
    resp ← perform (LoginWithQrcode app console_qrcode);
    data ← lift (subscript resp "data");
    cookies ← lift (subscript data "cookie");
    _ ← perform (AssignCookies cookies);
    mret Self
  else mret Self.

End WithTable.

(** [logout()]: nothing is asked without a [UID] cookie, and the
    answer is then [None] at once or a coroutine that returns [None];
    otherwise [logout_by_ssoent] is called. *)
Definition logout (async_ : bool) (c : client) : outcome (answer pyval + steps event pyval) :=
  ssoent ← fst (login_ssoent c);
  match ssoent with
  | Some s =>
      if truthy (VStr s) then mret (inr (perform (LogoutBySsoent s)))
      else mret (inl (if async_ then Coroutine (Return VNone) else Now (Return VNone)))
  | None => mret (inl (if async_ then Coroutine (Return VNone) else Now (Return VNone)))
  end.

Definition is_qrcode (e : event) : bool :=
  match e with
  | QrcodeToken | QrcodeScan _ | QrcodeScanConfirm _ | QrcodeScanResult _ _ | LoginWithQrcode _ _ => true
  | _ => false
  end.

End Login.

(** ** Attribute normalisation for the app interface:
    [normalize_attr_app] (client.py, lines 421-487) *)

Module NormalizeAttrApp.
Import NormalizeAttr.



(** Lines 436-437. *)
Definition set_ids (info : gmap string pyval) (attr : gmap string pyval) : outcome (gmap string pyval) :=
  fid ← dict_item info "fid";
  attr ← set_int "id" fid attr;
  pid ← dict_item info "pid";
  set_int "parent_id" pid attr.

(** Lines 441-443. *)
Definition set_name (info : gmap string pyval) (attr : gmap string pyval) : outcome (gmap string pyval) :=
  fn ← dict_item info "fn"; mret (<["name" := fn]> attr).

Definition set_size (info : gmap string pyval) (attr : gmap string pyval) : outcome (gmap string pyval) :=
  set_int "size" (py_or (dict_get info "fs" VNone) (VInt 0)) attr.

Definition set_sha1 (info : gmap string pyval) (attr : gmap string pyval) : outcome (gmap string pyval) :=
  mret (<["sha1" := dict_get info "sha1" VNone]> attr).

(** Line 445: the default reads the flag back from the record. *)
Definition set_ico (info : gmap string pyval) (attr : gmap string pyval) : outcome (gmap string pyval) :=
  is_dir ← dict_item attr "is_dir";
  mret (<["ico" := dict_get info "ico" (VStr (if truthy is_dir then "folder" else ""))]> attr).


Section WithFormat.

(** [f"{v}"] for the values of a raw record. *)
Variable format : pyval -> string.





End WithFormat.



End NormalizeAttrApp.

(** ** Download links: [download_url] (client.py, lines 2166-2245) *)

Module Download.
Import CheckResponse.

(** A [P115URL]: the link text and the attributes set on it ([sha1]
    only by the app interface). *)
Record P115URL : Type := MkURL
  { url : pyval;
    id : Z;
    pickcode : pyval;
    name : pyval;
    size : Z;
    sha1 : option pyval;
    is_directory : bool;
    headers : pyval }.

(** The calls [download_url_web(pickcode)] and
    [download_url_app(pickcode)]. *)
Inductive event : Type :=
| DownloadUrlWeb (pickcode : string)
| DownloadUrlApp (pickcode : string).

(** The messages [f"{fid} is a directory, with response {resp}"] and
    [f"no such pickcode: {pickcode!r}, with response {resp}"], kept as
    their parts. *)
Definition is_a_directory (fid : string) (resp : pyval) : exn :=
  Exn IsADirectoryError (Some EISDIR) (VList [VStr fid; VStr " is a directory, with response "; resp]).

Definition no_such_pickcode (pickcode : string) (resp : pyval) : exn :=
  Exn FileNotFoundError (Some ENOENT)
    (VList [VStr "no such pickcode: "; VStr pickcode; VStr ", with response "; resp]).

Definition is_IsADirectoryError (e : exn) : bool :=
  match exn_kind_of e with
  | IsADirectoryError => true
  | _ => false
  end.

(** [get_url] for the web interface (lines 2199-2214).  After the
    assignment of line 2200 [resp] is a dictionary, so that
    [check_response] checks it on the spot. *)
Definition get_url_web (pickcode : string) (strict : bool) (resp : pyval) : outcome P115URL :=
  resp ← store resp "pickcode" (VStr pickcode);
  _ ← match check resp with
      | Return _ => Return tt
      | Raise e => if is_IsADirectoryError e then (if strict then Raise e else Return tt) else Raise e
      end;
  match resp with
  | VDict d =>
      let file_url := dict_get d "file_url" (VStr "") in
      file_id ← dict_item d "file_id";
      id ← py_int file_id;
      file_name ← dict_item d "file_name";
      file_size ← dict_item d "file_size";
      size ← py_int file_size;
      state ← dict_item d "state";
      headers ← dict_item d "headers";
      mret (MkURL file_url id (VStr pickcode) file_name size None (negb (truthy state)) headers)
  | _ => raise TypeError resp
  end.

Section WithOrder.

(** The first entry of a dictionary in its own order (that of the JSON
    document it was read from), if it has one. *)
Variable first_item : gmap string pyval -> option (string * pyval).

(** [get_url] for the app interface (lines 2221-2243). *)
Definition get_url_app (pickcode : string) (strict : bool) (resp : pyval) : outcome P115URL :=
  resp ← store resp "pickcode" (VStr pickcode);
  _ ← check resp;
  data ← subscript resp "data";
  match data with
  | VDict entries =>
      match first_item entries with
      | Some (fid, info) =>
          url ← subscript info "url";
          if strict && negb (truthy url) then Raise (is_a_directory fid resp)
          else
            link ← (if truthy url then subscript url "url" else Return (VStr ""));
            id ← py_int (VStr fid);
            pick_code ← subscript info "pick_code";
            file_name ← subscript info "file_name";
            file_size ← subscript info "file_size";
            size ← py_int file_size;
            sha1 ← subscript info "sha1";
            headers ← subscript resp "headers";
            mret (MkURL link id pick_code file_name size (Some sha1) (negb (truthy url)) headers)
      | None => Raise (no_such_pickcode pickcode resp)
      end
  | _ => raise AttributeError (VStr "items")
  end.

(** [download_url(pickcode, strict, use_web_api)]: the response of the
    interface chosen, then [get_url]. *)
Definition download_url (pickcode : string) (strict use_web_api : bool) : steps event P115URL :=
  if use_web_api then
    resp ← perform (DownloadUrlWeb pickcode);
    lift (get_url_web pickcode strict resp)
  else
    resp ← perform (DownloadUrlApp pickcode);
    lift (get_url_app pickcode strict resp).

End WithOrder.

End Download.

(** ** Sample inputs *)

Module Samples.

(** Three bodies of the shapes quoted in the source: a directory that
    exists (errno 20004), too many files (errno 990023), and a
    directory where a file is expected (msg_code 70004). *)
Definition body_20004 : gmap string pyval :=
  <["state" := VBool false]> (<["errno" := VInt 20004]> (<["errtype" := VStr "war"]> ∅)).
Definition body_990023 : gmap string pyval :=
  <["state" := VBool false]> (<["errno" := VInt 990023]> (<["errtype" := VStr ""]> ∅)).
Definition body_70004 : gmap string pyval :=
  <["state" := VBool false]> (<["msg_code" := VInt 70004]> ∅).

(** The headers a client starts with (lines 713-718), and a caller's
    headers that set a cookie. *)
Definition client_headers : gmap string string :=
  <["Accept" := "application/json, text/plain, */*"]>
  (<["Accept-Encoding" := "gzip, deflate"]>
  (<["Connection" := "keep-alive"]>
  (<["User-Agent" := "Mozilla/5.0 AppleWebKit/600 Safari/600 Chrome/124.0.0.0 115disk/99.99.99.99 115Browser/99.99.99.99"]> ∅))).

Definition caller_cookie : gmap string string := <["cookie" := "UID=9_A1_9"]> ∅.

(** Headers of a caller that replace one of the client's. *)
Definition caller_agent : gmap string string := <["User-Agent" := "curl/8"]> ∅.

(** A service that asks for the second check of a range and accepts
    the answer, and a reader of ranges that returns the bytes of
    [abc]. *)
Definition challenge : pyval :=
  VDict (<["status" := VInt 7]> (<["statuscode" := VInt 701]>
        (<["sign_key" := VStr "k1"]> (<["sign_check" := VStr "2-4"]> ∅)))).

Definition accepted : pyval :=
  VDict (<["status" := VInt 2]> (<["statuscode" := VInt 0]> (<["pickcode" := VStr "pc0"]> ∅))).

Definition abc : list Byte.byte := map byte_of_ascii (list_ascii_of_string "abc").

Definition challenging_service (past : list Upload.event) (e : Upload.event) : outcome pyval :=
  match e with
  | Upload.Negotiate _ _ _ _ _ (VStr "") => Return challenge
  | Upload.Negotiate _ _ _ _ _ _ => Return accepted
  | Upload.ReadRange _ => Return (VBytes abc)
  end.

(** A download link to a content of [total] bytes: the probe is
    answered with the total length, a ranged read with some bytes. *)
Definition plain_link : ReadBytes.link := ReadBytes.Link "https://cdnfhnfile.115cdn.net/f.bin" None.

Definition no_keywords : ReadBytes.keywords := ReadBytes.Keywords None None.

Definition content_of_length (total : Z) (past : list ReadBytes.event) (e : ReadBytes.event)
    : outcome pyval :=
  match ReadBytes.req_parse e with
  | ReadBytes.ParseTotalLength => Return (VInt total)
  | _ => Return (VBytes abc)
  end.

(** A token response of the QR login and the answer of the device
    exchange. *)
Definition token_response : pyval :=
  VDict (<["state" := VInt 1]>
        (<["data" := VDict (<["uid" := VStr "u1"]> (<["time" := VInt 1]>
                           (<["sign" := VStr "s1"]> (<["qrcode" := VStr "q1"]> ∅))))]> ∅)).

Definition bare_token : pyval :=
  VDict (<["uid" := VStr "u1"]> (<["time" := VInt 1]> (<["sign" := VStr "s1"]> ∅))).

Definition exchange_response : pyval :=
  VDict (<["state" := VInt 1]> (<["data" := VDict (<["cookie" := VDict ∅]> ∅)]> ∅)).

(** Modelled from the spec: [P115Cookies.from_cookiejar]
    (p115client/type.py is not among the sources), "a semicolon-joined
    string restricted to the service's apex domain": [name=value] for
    the cookies of [.115.com]. *)
Definition from_cookiejar (l : list Cookies.cookie) : string :=
  String.concat "; "
    (map (fun c => Cookies.cookie_name c +:+ "=" +:+ Cookies.cookie_value c)
       (filter (fun c => String.eqb (Cookies.cookie_domain c) ".115.com") l)).

(** Stand-ins for the two helpers of the cookietools package: a cookie
    text is cut at [;] and [=], and a cookie is created for the root
    path. *)
Definition cookie_pair (s : string) : string * option string :=
  match split "=" (strip s) with
  | name :: value :: _ => (name, Some value)
  | name :: [] => (name, None)
  | [] => ("", None)
  end.

Definition cookies_str_to_dict (s : string) : list (string * option string) :=
  map cookie_pair (split ";" s).

Definition create_cookie (name value domain : string) : Cookies.cookie :=
  Cookies.Cookie domain "/" name value.

(** A client signed in as user 123 on the web slot, nothing cached and
    no cookie file configured. *)
Definition signed_in : Cookies.client :=
  Cookies.Client
    [(".115.com", [("/", [("UID", Cookies.Cookie ".115.com" "/" "UID" "123_A1_1730000000")])])]
    None None None 0 0.

(** The same client with its [user_id] already read. *)
Definition signed_in_cached : Cookies.client :=
  Cookies.Client (Cookies.jar signed_in) (Some 123) None None 0 0.

(** A client without any cookie. *)
Definition signed_out : Cookies.client := Cookies.Client [] None None None 0 0.

(** For the retry loop: passes in which the transport fails with an
    error of its own, or with an authentication error, and nothing else
    happens; a class test that knows [AuthenticationError]; a policy
    that always approves of a new login; a login that files a new [UID]
    cookie; and a header block left empty. *)
Definition failing_pass : Relogin.attempt :=
  Relogin.Attempt (Raise (Exn TransportError None (VInt 405))) (fun j => j) (fun c => c).

Definition refused_pass : Relogin.attempt :=
  Relogin.Attempt (Raise (Exn AuthenticationError (Some EIO) VNone)) (fun j => j) (fun c => c).

Definition is_authentication_error (e : exn) : bool :=
  match exn_kind_of e with
  | AuthenticationError => true
  | _ => false
  end.

Definition approve (e : exn) : outcome pyval := Return (VBool true).

Definition login_again : Cookies.method unit :=
  Cookies.cookies_setter from_cookiejar cookies_str_to_dict create_cookie
    (Cookies.CMapping [("UID", Some "123_A1_1730009999")]).

Definition no_headers : Request.prepared := Request.Prepared None None.

(** For the login sequences: the row [A1 -> web] of the table of
    devices, and a service that reports the session as signed in. *)
Definition ssoent_table : gmap string string := <["A1" := "web"]> ∅.

Definition signed_in_service (past : list Login.event) (e : Login.event) : outcome pyval :=
  match e with
  | Login.LoginStatus => Return (VBool true)
  | _ => Return VNone
  end.




End Samples.
Import Samples.

(** * Properties *)

(** ** Response validation *)

Section CheckResponseFacts.
Import CheckResponse.

Lemma eq_int_cases v c :
  eq_int v c = true -> v = VInt c \/ (v = VBool true /\ c = 1) \/ (v = VBool false /\ c = 0).
Proof.
  destruct v as [| [] | z | | | | |]; cbn [eq_int]; try discriminate;
    intros H; apply Z.eqb_eq in H.
  - right; left. split; [reflexivity | lia].
  - right; right. split; [reflexivity | lia].
  - left. f_equal. lia.
Qed.

Lemma code_field_lookup d f v :
  code_field d = Some (f, v) -> d !! f = Some v.
Proof.
  unfold code_field, code_fields. cbn [first_present]. intros H.
  repeat (match type of H with context [d !! ?k] => destruct (d !! k) eqn:? end;
          cbn in H; try discriminate);
    inversion H; subst; assumption.
Qed.

Lemma check_not_dict v :
  is_dict v = false -> check v = fail P115OSError EIO v.
Proof. destruct v; cbn; intros H; try reflexivity; discriminate. Qed.

Lemma check_success d :
  failed_state d = false -> check (VDict d) = Return (VDict d).
Proof.
  unfold failed_state. intros H. apply negb_false_iff in H.
  unfold check. rewrite H. reflexivity.
Qed.

(** A field and code of the table, found first among the code fields
    of a failed body, decide the exception. *)
Lemma check_table_row d f c k e v :
  failed_state d = true -> In (f, c, k, e) validation_table ->
  code_field d = Some (f, v) -> eq_int v c = true ->
  check (VDict d) = fail k e (VDict d).
Proof.
  intros Hs Hin Hf Hv. unfold failed_state in Hs. apply negb_true_iff in Hs.
  unfold check. rewrite Hs.
  unfold code_field, code_fields in Hf. cbn [first_present] in Hf.
  unfold validation_table in Hin. cbn [In] in Hin.
  destruct (eq_int_cases _ _ Hv) as [-> | [[-> ->] | [-> ->]]].
  - repeat (destruct Hin as [Hin | Hin]; [inversion Hin; subst; clear Hin |]);
      try contradiction;
      repeat (match type of Hf with context [d !! ?key] => destruct (d !! key) eqn:? end;
              cbn in Hf; try discriminate);
      inversion Hf; subst; reflexivity.
  - repeat (destruct Hin as [Hin | Hin]; [discriminate Hin |]). contradiction.
  - repeat (destruct Hin as [Hin | Hin]; [discriminate Hin |]). contradiction.
Qed.

(** Each arm of a [match] of [check] is a row of the table. *)
Lemma match_errno_row v k e :
  match_errno v = Some (k, e) -> exists c, In ("errno", c, k, e) validation_table /\ eq_int v c = true.
Proof.
  unfold match_errno.
  repeat (match goal with |- context [eq_int v ?c] => destruct (eq_int v c) eqn:? end;
          [intros H; inversion H; subst; eexists; split; [| eassumption]; cbn; tauto |]).
  discriminate.
Qed.

Lemma match_errNo_row v k e :
  match_errNo v = Some (k, e) -> exists c, In ("errNo", c, k, e) validation_table /\ eq_int v c = true.
Proof.
  unfold match_errNo.
  repeat (match goal with |- context [eq_int v ?c] => destruct (eq_int v c) eqn:? end;
          [intros H; inversion H; subst; eexists; split; [| eassumption]; cbn; tauto |]).
  discriminate.
Qed.

Lemma match_errcode_row v k e :
  match_errcode v = Some (k, e) -> exists c, In ("errcode", c, k, e) validation_table /\ eq_int v c = true.
Proof.
  unfold match_errcode.
  repeat (match goal with |- context [eq_int v ?c] => destruct (eq_int v c) eqn:? end;
          [intros H; inversion H; subst; eexists; split; [| eassumption]; cbn; tauto |]).
  discriminate.
Qed.

Lemma match_code_row v k e :
  match_code v = Some (k, e) -> exists c, In ("code", c, k, e) validation_table /\ eq_int v c = true.
Proof.
  unfold match_code.
  repeat (match goal with |- context [eq_int v ?c] => destruct (eq_int v c) eqn:? end;
          [intros H; inversion H; subst; eexists; split; [| eassumption]; cbn; tauto |]).
  discriminate.
Qed.

Lemma match_msg_code_row v k e :
  match_msg_code v = Some (k, e) -> exists c, In ("msg_code", c, k, e) validation_table /\ eq_int v c = true.
Proof.
  unfold match_msg_code.
  repeat (match goal with |- context [eq_int v ?c] => destruct (eq_int v c) eqn:? end;
          [intros H; inversion H; subst; eexists; split; [| eassumption]; cbn; tauto |]).
  discriminate.
Qed.

(** A failed body none of whose rows applies raises the generic error. *)
Lemma check_no_row d :
  failed_state d = true ->
  (forall f v c k e, code_field d = Some (f, v) -> In (f, c, k, e) validation_table ->
                     eq_int v c = false) ->
  check (VDict d) = fail P115OSError EIO (VDict d).
Proof.
  intros Hs Hno. unfold failed_state in Hs. apply negb_true_iff in Hs.
  unfold check. rewrite Hs.
  unfold code_field, code_fields in Hno. cbn [first_present] in Hno.
  destruct (d !! "errno") as [v |] eqn:E1.
  { destruct (match_errno v) as [[k e] |] eqn:M; [| reflexivity].
    destruct (match_errno_row _ _ _ M) as (c & Hin & Hc).
    rewrite (Hno _ _ _ _ _ eq_refl Hin) in Hc. discriminate. }
  destruct (d !! "errNo") as [v |] eqn:E2.
  { destruct (match_errNo v) as [[k e] |] eqn:M; [| reflexivity].
    destruct (match_errNo_row _ _ _ M) as (c & Hin & Hc).
    rewrite (Hno _ _ _ _ _ eq_refl Hin) in Hc. discriminate. }
  destruct (d !! "errcode") as [v |] eqn:E3.
  { destruct (match_errcode v) as [[k e] |] eqn:M; [| reflexivity].
    destruct (match_errcode_row _ _ _ M) as (c & Hin & Hc).
    rewrite (Hno _ _ _ _ _ eq_refl Hin) in Hc. discriminate. }
  destruct (d !! "code") as [v |] eqn:E4.
  { destruct (match_code v) as [[k e] |] eqn:M; [| reflexivity].
    destruct (match_code_row _ _ _ M) as (c & Hin & Hc).
    rewrite (Hno _ _ _ _ _ eq_refl Hin) in Hc. discriminate. }
  destruct (d !! "msg_code") as [v |] eqn:E5.
  { destruct (match_msg_code v) as [[k e] |] eqn:M; [| reflexivity].
    destruct (match_msg_code_row _ _ _ M) as (c & Hin & Hc).
    rewrite (Hno _ _ _ _ _ eq_refl Hin) in Hc. discriminate. }
  reflexivity.
Qed.

(** C1, as the code has it.  A body that is a [dict] is checked at the
    call, a pending body when the returned coroutine is awaited, and
    then: a non-mapping raises the generic error with [EIO]; a mapping
    whose ["state"] is truthy or absent is returned unchanged; a mapping
    with a falsy ["state"] whose first code field (errno, errNo,
    errcode, code, msg_code in that order) and code are a row of the
    table of section 4.3 raises the kind and errno of that row; any
    other mapping with a falsy ["state"] raises the generic error with
    [EIO].  A body that is neither a [dict] nor awaitable is taken for a
    pending one, and awaiting the result raises [TypeError]. *)
Theorem check_response_validation :
  (forall d, check_response (VDict d) = Now (check (VDict d))) /\
  (forall v, check_response (VFuture v) = Coroutine (check v)) /\
  (forall v, is_dict v = false -> check v = fail P115OSError EIO v) /\
  (forall d, failed_state d = false -> check (VDict d) = Return (VDict d)) /\
  (forall d f c k e v,
      failed_state d = true -> In (f, c, k, e) validation_table ->
      code_field d = Some (f, v) -> eq_int v c = true ->
      check (VDict d) = fail k e (VDict d)) /\
  (forall d,
      failed_state d = true ->
      (forall f v c k e, code_field d = Some (f, v) -> In (f, c, k, e) validation_table ->
                         eq_int v c = false) ->
      check (VDict d) = fail P115OSError EIO (VDict d)) /\
  (forall v, is_dict v = false -> (forall r, v <> VFuture r) ->
             check_response v = Coroutine (raise TypeError VNone)).
Proof.
  split; [reflexivity |]. split; [reflexivity |].
  split; [exact check_not_dict |]. split; [exact check_success |].
  split; [exact check_table_row |]. split; [exact check_no_row |].
  intros v Hd Hf. unfold check_response. rewrite Hd.
  destruct v; try reflexivity. exfalso. eapply Hf. reflexivity.
Qed.

Lemma check_response_validation_witness :
  check (VDict body_20004) = fail FileExistsError EEXIST (VDict body_20004) /\
  check (VDict body_990023) = fail OperationalError ENOTSUP (VDict body_990023) /\
  check (VDict body_70004) = fail IsADirectoryError EISDIR (VDict body_70004) /\
  check (VList []) = fail P115OSError EIO (VList []).
Proof.
  destruct check_response_validation as (_ & _ & Hnd & _ & Hrow & _).
  split; [| split; [| split]].
  - apply (Hrow body_20004 "errno" 20004 FileExistsError EEXIST (VInt 20004));
      [reflexivity | cbn; tauto | reflexivity | reflexivity].
  - apply (Hrow body_990023 "errno" 990023 OperationalError ENOTSUP (VInt 990023));
      [reflexivity | cbn; tauto | reflexivity | reflexivity].
  - apply (Hrow body_70004 "msg_code" 70004 IsADirectoryError EISDIR (VInt 70004));
      [reflexivity | cbn; tauto | reflexivity | reflexivity].
  - apply Hnd. reflexivity.
Defined.

(** C1 as it is worded fails for a body that is neither a mapping nor
    awaitable: [check_response] hands back a coroutine, and awaiting it
    raises [TypeError], not the generic error with [EIO]. *)
Lemma check_response_list_is_not_eio :
  check_response (VList []) = Coroutine (raise TypeError VNone) /\
  check_response (VList []) <> Now (fail P115OSError EIO (VList [])) /\
  check_response (VList []) <> Coroutine (fail P115OSError EIO (VList [])).
Proof. repeat split; discriminate. Qed.

End CheckResponseFacts.

(** ** The cookie header of a request *)

Section RequestFacts.
Import Request.

Lemma has_cookie_key_true (h : gmap string string) k v :
  h !! k = Some v -> lower k = "cookie" -> has_cookie_key h = true.
Proof.
  intros Hk Hl. unfold has_cookie_key. apply existsb_exists.
  exists (k, v). split.
  - apply list_elem_of_In, elem_of_map_to_list. exact Hk.
  - cbn [fst]. rewrite Hl. reflexivity.
Qed.

Lemma has_cookie_key_false (h : gmap string string) k v :
  has_cookie_key h = false -> h !! k = Some v -> lower k <> "cookie".
Proof.
  intros Hf Hk Hl. rewrite (has_cookie_key_true h k v Hk Hl) in Hf. discriminate.
Qed.

Lemma need_cookie_header_spec url custom :
  need_cookie_header url custom = negb (CRE_115_DOMAIN_match url) || custom.
Proof.
  unfold need_cookie_header. destruct (CRE_115_DOMAIN_match url), custom; reflexivity.
Qed.

(** The caller's headers are laid over the client's. *)
Lemma merge_lookup (a b : gmap string string) k :
  merge a b !! k = match b !! k with Some v => Some v | None => a !! k end.
Proof.
  unfold merge. destruct (b !! k) as [v |] eqn:E.
  - apply lookup_union_Some_l. exact E.
  - apply lookup_union_r. exact E.
Qed.

(** [has_cookie_key] on the merged headers: one of the two
    dictionaries has a key that reads [cookie] in lower case. *)
Lemma has_cookie_key_merge (a b : gmap string string) :
  has_cookie_key (merge a b) = true <->
  exists k, lower k = "cookie" /\ (b !! k <> None \/ a !! k <> None).
Proof.
  split.
  - unfold has_cookie_key. intros H. apply existsb_exists in H as ([k v] & Hin & Hl).
    cbn [fst] in Hl. apply String.eqb_eq in Hl.
    apply list_elem_of_In, elem_of_map_to_list in Hin. rewrite merge_lookup in Hin.
    exists k. split; [exact Hl |].
    destruct (b !! k); [left; discriminate | right; congruence].
  - intros (k & Hl & Hk).
    destruct (merge a b !! k) as [v |] eqn:E.
    + apply (has_cookie_key_true _ k v E Hl).
    + rewrite merge_lookup in E. destruct (b !! k); [discriminate |]. destruct Hk; congruence.
Qed.

(** C2, as the code has it.  The Cookie header is required exactly
    when the URL does not match the 115 pattern or the caller supplied
    a transport.  Without headers of the caller's, the transport gets
    the client's headers with the cookie string under ["Cookie"] when
    the header is required, and no headers at all when it is not.
    With headers of the caller's, it gets the client's headers overlaid
    with the caller's (the caller's value wins), changed at most under
    ["Cookie"]: when neither dictionary has a cookie header (a key
    that reads [cookie] in lower case), ["Cookie"] is the cookie string
    if the header is required and absent if it is not; when one of them
    has, the headers go out as they are without a re-login policy, and
    with the cookie string stored under ["Cookie"] by the retry loop
    with one. *)
Theorem request_cookie_policy
    (self_headers : gmap string string) (cookies_str url : string)
    (custom relogin : bool) (given : option (gmap string string)) :
  let need := need_cookie_header url custom in
  let sent := request_headers self_headers cookies_str relogin url custom given in
  (need = true <-> CRE_115_DOMAIN_match url = false \/ custom = true) /\
  (given = None ->
     sent = if need then Some (<["Cookie" := cookies_str]> self_headers) else None) /\
  (forall g, given = Some g ->
     let cookie_header :=
       exists k, lower k = "cookie" /\ (g !! k <> None \/ self_headers !! k <> None) in
     exists h, sent = Some h /\
       (forall k, k <> "Cookie" ->
          h !! k = match g !! k with Some v => Some v | None => self_headers !! k end) /\
       (~ cookie_header -> h !! "Cookie" = if need then Some cookies_str else None) /\
       (cookie_header ->
          h !! "Cookie" = if relogin then Some cookies_str
                          else match g !! "Cookie" with
                               | Some v => Some v
                               | None => self_headers !! "Cookie"
                               end)).
Proof.
  intros need sent. subst need sent.
  unfold request_headers, prepare_headers, sent_headers.
  split; [| split].
  - rewrite need_cookie_header_spec.
    destruct (CRE_115_DOMAIN_match url), custom; cbn; intuition congruence.
  - intros ->. destruct (need_cookie_header url custom); cbn [local_headers kwargs_headers].
    + destruct relogin; [rewrite insert_insert_eq |]; reflexivity.
    + destruct relogin; reflexivity.
  - intros g ->. cbv zeta.
    set (cookie_header := exists k, lower k = "cookie" /\ (g !! k <> None \/ self_headers !! k <> None)).
    assert (Hc : has_cookie_key (merge self_headers g) = true <-> cookie_header)
      by apply has_cookie_key_merge.
    assert (Hno : has_cookie_key (merge self_headers g) = false -> merge self_headers g !! "Cookie" = None).
    { intros Hf. destruct (merge self_headers g !! "Cookie") as [v |] eqn:E; [| reflexivity].
      exfalso. apply (has_cookie_key_false _ _ _ Hf E). reflexivity. }
    destruct (has_cookie_key (merge self_headers g)) eqn:Hk.
    + assert (C : cookie_header) by (apply Hc; reflexivity).
      exists (if relogin then <["Cookie" := cookies_str]> (merge self_headers g)
              else merge self_headers g).
      split; [destruct (need_cookie_header url custom), relogin; reflexivity |].
      split; [| split].
      * intros k Hne. destruct relogin; [rewrite lookup_insert_ne by congruence |]; apply merge_lookup.
      * intros N. destruct (N C).
      * intros _. destruct relogin; [apply lookup_insert_eq | apply merge_lookup].
    + assert (N : ~ cookie_header) by (intros C; apply Hc in C; discriminate).
      exists (if need_cookie_header url custom then <["Cookie" := cookies_str]> (merge self_headers g)
              else merge self_headers g).
      split.
      { destruct (need_cookie_header url custom), relogin; cbn [negb local_headers kwargs_headers];
          rewrite ?insert_insert_eq; reflexivity. }
      split; [| split].
      * intros k Hne. destruct (need_cookie_header url custom);
          [rewrite lookup_insert_ne by congruence |]; apply merge_lookup.
      * intros _. destruct (need_cookie_header url custom); [apply lookup_insert_eq | apply Hno; reflexivity].
      * intros C. destruct (N C).
Qed.

Lemma request_cookie_policy_witness :
  request_headers client_headers "UID=1_A1_2" false "https://cdnfhnfile.115cdn.net/f.bin" false None
    = Some (<["Cookie" := "UID=1_A1_2"]> client_headers) /\
  request_headers client_headers "UID=1_A1_2" false "https://webapi.115.com/files" true None
    = Some (<["Cookie" := "UID=1_A1_2"]> client_headers) /\
  request_headers client_headers "UID=1_A1_2" false "https://webapi.115.com/files" false None
    = None /\
  (exists h,
     request_headers client_headers "UID=1_A1_2" false "https://webapi.115.com/files" false
       (Some caller_agent) = Some h /\
     h !! "User-Agent" = Some "curl/8" /\ h !! "Connection" = Some "keep-alive" /\
     h !! "Cookie" = None).
Proof.
  split; [| split; [| split]].
  - destruct (request_cookie_policy client_headers "UID=1_A1_2"
                "https://cdnfhnfile.115cdn.net/f.bin" false false None) as (_ & H & _).
    exact (H eq_refl).
  - destruct (request_cookie_policy client_headers "UID=1_A1_2"
                "https://webapi.115.com/files" true false None) as (_ & H & _).
    exact (H eq_refl).
  - destruct (request_cookie_policy client_headers "UID=1_A1_2"
                "https://webapi.115.com/files" false false None) as (_ & H & _).
    exact (H eq_refl).
  - destruct (request_cookie_policy client_headers "UID=1_A1_2"
                "https://webapi.115.com/files" false false (Some caller_agent)) as (_ & _ & H).
    destruct (H caller_agent eq_refl) as (h & Hs & Hk & Hn & _).
    exists h. split; [exact Hs |]. split; [| split].
    + rewrite (Hk "User-Agent") by discriminate. reflexivity.
    + rewrite (Hk "Connection") by discriminate. reflexivity.
    + apply Hn. intros (k & Hl & [Hg | Hs']).
      * destruct (decide (k = "User-Agent")) as [-> | Hne]; [discriminate Hl |].
        apply Hg. unfold caller_agent. rewrite lookup_insert_ne by congruence. apply lookup_empty.
      * assert (E : forall k', client_headers !! k' <> None ->
                      k' = "Accept" \/ k' = "Accept-Encoding" \/ k' = "Connection" \/ k' = "User-Agent").
        { intros k' Hk'. unfold client_headers in Hk'.
          destruct (decide (k' = "Accept")) as [-> | N1]; [tauto |].
          destruct (decide (k' = "Accept-Encoding")) as [-> | N2]; [tauto |].
          destruct (decide (k' = "Connection")) as [-> | N3]; [tauto |].
          destruct (decide (k' = "User-Agent")) as [-> | N4]; [tauto |].
          exfalso. apply Hk'. rewrite !lookup_insert_ne by congruence. apply lookup_empty. }
        destruct (E k Hs') as [-> | [-> | [-> | ->]]]; discriminate Hl.
Defined.

(** C2 as it is worded fails both ways: for a URL outside 115 and the
    default transport the Cookie header is set, and for a 115 URL with
    the default transport no Cookie header is added. *)
Lemma request_cookie_forced_off_domain :
  CRE_115_DOMAIN_match "https://cdnfhnfile.115cdn.net/f.bin" = false /\
  request_headers client_headers "UID=1_A1_2" false "https://cdnfhnfile.115cdn.net/f.bin" false None
    = Some (<["Cookie" := "UID=1_A1_2"]> client_headers) /\
  CRE_115_DOMAIN_match "https://webapi.115.com/files" = true /\
  request_headers client_headers "UID=1_A1_2" false "https://webapi.115.com/files" false None
    = None.
Proof. repeat split; reflexivity. Qed.

End RequestFacts.

(** ** Step sequences only add to the record of requests *)

Section StepsFacts.
Context {Ev : Type}.

Lemma grows_ret {A} (a : A) : grows (mret a : steps Ev A).
Proof. intros env tr. exists []. cbn. rewrite app_nil_r. reflexivity. Qed.

Lemma grows_lift {A} (o : outcome A) : grows (lift o : steps Ev A).
Proof. intros env tr. exists []. cbn. rewrite app_nil_r. reflexivity. Qed.

Lemma grows_perform (e : Ev) : grows (perform e).
Proof. intros env tr. exists [e]. reflexivity. Qed.

Lemma grows_bind {A B} (m : steps Ev A) (k : A -> steps Ev B) :
  grows m -> (forall a, grows (k a)) -> grows (m ≫= k).
Proof.
  intros Hm Hk env tr. unfold mbind, steps_bind, s_bind.
  destruct (Hm env tr) as [r1 H1]. destruct (m env tr) as [[a | e] tr1]; cbn in H1; subst tr1.
  - destruct (Hk a env (tr ++ r1)) as [r2 H2]. exists (r1 ++ r2).
    rewrite H2. rewrite app_assoc. reflexivity.
  - exists r1. reflexivity.
Qed.

End StepsFacts.

(** ** Upload negotiation *)

Section UploadFacts.
Import Upload.

Variable sha1_hexdigest : list Byte.byte -> string.

Lemma one_mebibyte : Z.shiftl 1 20 = 1048576.
Proof. reflexivity. Qed.

(** The generator starts with the negotiation call that carries no
    signature. *)
Lemma gen_step_starts_with_negotiation filename filesize filesha1 capable pid target env :
  exists o rest,
    gen_step sha1_hexdigest filename filesize filesha1 capable pid target env [] =
      (o, Negotiate filename filesize filesha1 target (VStr "") (VStr "") :: rest).
Proof.
  set (first := Negotiate filename filesize filesha1 target (VStr "") (VStr "")).
  set (K := fun resp : pyval =>
    (challenged ← lift (wants_sign_check resp);
     resp ← (if challenged : bool then
               if negb capable then lift (Raise (Exn ValueError None need_read_range))
               else
                 sign_key ← lift (subscript resp "sign_key");
                 sign_check ← lift (subscript resp "sign_check");
                 data ← perform (ReadRange sign_check);
                 sign_val ← lift (sign_val_of sha1_hexdigest data);
                 perform (Negotiate filename filesize filesha1 target sign_key sign_val)
             else mret resp);
     lift (with_data resp filename filesize filesha1 target pid)) : steps event pyval).
  assert (G : forall resp, grows (K resp)).
  { intros resp. unfold K. apply grows_bind; [apply grows_lift |]. intros challenged.
    apply grows_bind; [| intros; apply grows_lift].
    destruct challenged; [| apply grows_ret].
    destruct (negb capable); [apply grows_lift |].
    repeat (apply grows_bind; [first [apply grows_lift | apply grows_perform] | intros]).
    apply grows_perform. }
  assert (E : gen_step sha1_hexdigest filename filesize filesha1 capable pid target
              = (perform first ≫= K)) by reflexivity.
  rewrite E. unfold mbind, steps_bind, s_bind, perform. cbn [app].
  destruct (env [] first) as [resp | e].
  - destruct (G resp env [first]) as [rest Hrest].
    rewrite (surjective_pairing (K resp env [first])), Hrest.
    eexists; eexists. reflexivity.
  - eexists; eexists. reflexivity.
Qed.

(** C3.  With a declared size of 1 MiB or more and no
    [read_range_bytes_or_hash], [upload_file_init] raises [ValueError]
    and no request has been made; below 1 MiB the call does not fail at
    entry, whether or not the capability is supplied: it goes on to the
    first negotiation call. *)
Theorem upload_file_init_entry_check
    (filename : string) (filesize : Z) (filesha1 : string) (pid : Z)
    (env : list event -> event -> outcome pyval) :
  (1048576 <= filesize ->
     run (upload_file_init sha1_hexdigest filename filesize filesha1 false pid) env =
       (Raise (Exn ValueError None need_read_range), [])) /\
  (filesize < 1048576 -> forall capable,
     exists o rest,
       run (upload_file_init sha1_hexdigest filename filesize filesha1 capable pid) env =
         (o, Negotiate filename filesize (upper filesha1) ("U_1_" +:+ str_of_int pid)
               (VStr "") (VStr "") :: rest)).
Proof.
  split.
  - intros H. unfold upload_file_init. rewrite one_mebibyte.
    replace (filesize >=? 1048576) with true by (symmetry; apply Z.geb_le; lia).
    reflexivity.
  - intros H capable. unfold upload_file_init. rewrite one_mebibyte.
    replace (filesize >=? 1048576) with false
      by (symmetry; rewrite Z.geb_leb; apply Z.leb_gt; lia).
    cbn [andb run]. apply gen_step_starts_with_negotiation.
Qed.

(** C4.  When the first negotiation is answered with status 7 and
    status code 701 and the capability is supplied, the range named by
    [sign_check] is read once, the value read (a digest as text, or
    bytes whose SHA-1 is taken) is uppercased into [sign_val], and the
    negotiation is called once more with the [sign_key] of the answer
    and that [sign_val]; these three requests are all that is made. *)
Theorem upload_sign_check_round
    (filename : string) (filesize : Z) (filesha1 : string) (pid : Z)
    (env : list event -> event -> outcome pyval)
    (resp status statuscode sign_key sign_check data : pyval) :
  let target := "U_1_" +:+ str_of_int pid in
  let first := Negotiate filename filesize (upper filesha1) target (VStr "") (VStr "") in
  env [] first = Return resp ->
  subscript resp "status" = Return status -> eq_int status 7 = true ->
  subscript resp "statuscode" = Return statuscode -> eq_int statuscode 701 = true ->
  subscript resp "sign_key" = Return sign_key ->
  subscript resp "sign_check" = Return sign_check ->
  env [first] (ReadRange sign_check) = Return data ->
  (exists s, data = VStr s) \/ (exists b, data = VBytes b) ->
  exists sign_val,
    (forall s, data = VStr s -> sign_val = VStr (upper s)) /\
    (forall b, data = VBytes b -> sign_val = VStr (upper (sha1_hexdigest b))) /\
    let second := Negotiate filename filesize (upper filesha1) target sign_key sign_val in
    run (upload_file_init sha1_hexdigest filename filesize filesha1 true pid) env =
      (resp' ← env [first; ReadRange sign_check] second;
       with_data resp' filename filesize (upper filesha1) target pid,
       [first; ReadRange sign_check; second]).
Proof.
  intros target first Hfirst Hst H7 Hsc H701 Hkey Hcheck Hread Hdata.
  exists (match data with
          | VStr s => VStr (upper s)
          | VBytes b => VStr (upper (sha1_hexdigest b))
          | _ => VNone
          end).
  split; [intros s ->; reflexivity |]. split; [intros b ->; reflexivity |].
  unfold upload_file_init. rewrite andb_false_r. cbn [run].
  fold target. fold first.
  unfold gen_step, mbind, steps_bind, s_bind, perform, lift, mret, steps_ret, s_ret.
  cbn [app]. fold first. rewrite Hfirst.
  unfold wants_sign_check, mbind, outcome_bind, mret, outcome_ret.
  rewrite Hst. cbn [obind]. rewrite H7, Hsc. cbn [obind]. rewrite H701.
  cbn [negb]. rewrite Hkey, Hcheck. cbn [app]. rewrite Hread.
  destruct Hdata as [[s ->] | [b ->]]; cbn [sign_val_of app];
    match goal with
    | |- context [env ?tr ?e] => destruct (env tr e)
    end; reflexivity.
Qed.

End UploadFacts.

Lemma upload_file_init_entry_check_witness :
  run (Upload.upload_file_init Sha1.hexdigest "a.bin" 1048576 "da39a3ee" false 0)
      challenging_service
    = (Raise (Exn ValueError None Upload.need_read_range), []) /\
  exists o rest,
    run (Upload.upload_file_init Sha1.hexdigest "a.bin" 1048575 "da39a3ee" false 0)
        challenging_service
      = (o, Upload.Negotiate "a.bin" 1048575 "DA39A3EE" "U_1_0" (VStr "") (VStr "") :: rest).
Proof.
  destruct (upload_file_init_entry_check Sha1.hexdigest "a.bin" 1048576 "da39a3ee" 0
              challenging_service) as [Hraise _].
  destruct (upload_file_init_entry_check Sha1.hexdigest "a.bin" 1048575 "da39a3ee" 0
              challenging_service) as [_ Hgo].
  split; [apply Hraise; lia | apply (Hgo ltac:(lia) false)].
Defined.

Lemma upload_sign_check_round_witness :
  snd (run (Upload.upload_file_init Sha1.hexdigest "a.bin" 2097152 "da39a3ee" true 0)
           challenging_service)
    = [ Upload.Negotiate "a.bin" 2097152 "DA39A3EE" "U_1_0" (VStr "") (VStr "");
        Upload.ReadRange (VStr "2-4");
        Upload.Negotiate "a.bin" 2097152 "DA39A3EE" "U_1_0" (VStr "k1")
          (VStr "A9993E364706816ABA3E25717850C26C9CD0D89D") ].
Proof.
  destruct (upload_sign_check_round Sha1.hexdigest "a.bin" 2097152 "da39a3ee" 0
              challenging_service challenge (VInt 7) (VInt 701) (VStr "k1") (VStr "2-4")
              (VBytes abc) eq_refl eq_refl eq_refl eq_refl eq_refl eq_refl eq_refl eq_refl
              (or_intror (ex_intro _ abc eq_refl)))
    as (sign_val & _ & Hbytes & Hrun).
  rewrite Hrun, (Hbytes abc eq_refl). reflexivity.
Defined.

(** ** Ranged reads *)

Section ReadBytesFacts.
Import ReadBytes.

Lemma range_headers_range url r headers :
  range_headers url r headers !! "Range" = Some ("bytes=" +:+ r).
Proof. unfold range_headers. apply lookup_insert_eq. Qed.

Lemma range_headers_identity url r headers :
  range_headers url r headers !! "Accept-Encoding" = Some "identity".
Proof.
  unfold range_headers. rewrite lookup_insert_ne by discriminate. apply lookup_insert_eq.
Qed.

Lemma closed_range_not_empty start stop r :
  closed_range start stop = Some r -> String.eqb r "" = false.
Proof.
  unfold closed_range. destruct stop as [s |].
  - destruct (start >=? s); [discriminate |]. intros H. inversion H.
    destruct (str_of_int start); reflexivity.
  - intros H. inversion H. destruct (str_of_int start); reflexivity.
Qed.

(** C5, as the code has it.  When [start] or [stop] is negative, the
    first request is the probe with [Range: bytes=-1]; [start] and
    [stop] are then counted from the end of the content of [total]
    bytes, a [start] that is still negative becoming 0.  Without a
    [stop] exactly one more request follows, for [bytes={first}-]; with
    a [stop], [b""] is returned and the probe is the only request when
    the resolved start is not below the resolved stop, and otherwise
    exactly one more request follows, for [bytes={first}-{last-1}].
    For [start=-10], no [stop] and a content of at least 10 bytes the
    range reads [{total-10}-]. *)
Theorem read_bytes_negative_offsets
    (url : link) (headers : option (gmap string string)) (kw : keywords)
    (env : list event -> event -> outcome pyval) (start : Z) (stop : option Z) (total : Z) :
  let method := match kw_method kw with Some m => m | None => "GET" end in
  let probe := Request (link_text url) (range_headers url "-1" headers) method ParseTotalLength in
  let fetch r :=
    Request (link_text url) (range_headers url r headers) method
      (match kw_parse kw with Some p => ParseGiven p | None => ParseFalse end) in
  let first := if start <? 0 then Z.max 0 (start + total) else start in
  start < 0 \/ (exists s, stop = Some s /\ s < 0) ->
  env [] probe = Return (VInt total) ->
  req_headers probe !! "Range" = Some "bytes=-1" /\
  match stop with
  | None =>
      let r := str_of_int first +:+ "-" in
      read_bytes url start stop headers kw env [] = (env [probe] (fetch r), [probe; fetch r]) /\
      req_headers (fetch r) !! "Range" = Some ("bytes=" +:+ r)
  | Some s =>
      let last := if s <? 0 then s + total else s in
      if first >=? last then
        read_bytes url start stop headers kw env [] = (Return (VBytes []), [probe])
      else
        let r := str_of_int first +:+ "-" +:+ str_of_int (last - 1) in
        read_bytes url start stop headers kw env [] = (env [probe] (fetch r), [probe; fetch r]) /\
        req_headers (fetch r) !! "Range" = Some ("bytes=" +:+ r)
  end /\
  (stop = None -> start = -10 -> 10 <= total -> str_of_int first +:+ "-" = str_of_int (total - 10) +:+ "-").
Proof.
  intros method probe fetch first Hneg Hprobe.
  split; [apply range_headers_range |].
  assert (Hcond : (start <? 0) || match stop with
                                  | Some s => negb (s =? 0) && (s <? 0)
                                  | None => false
                                  end = true).
  { destruct Hneg as [H | (s & -> & H)].
    - apply orb_true_iff. left. apply Z.ltb_lt. exact H.
    - apply orb_true_iff. right. apply andb_true_iff. split.
      + apply negb_true_iff, Z.eqb_neq. lia.
      + apply Z.ltb_lt. exact H. }
  assert (Hp : read_bytes_range url "-1" headers kw true env [] = (Return (VInt total), [probe])).
  { unfold read_bytes_range, perform. cbn [app]. fold method. fold probe.
    rewrite Hprobe. reflexivity. }
  assert (Hf : forall r tr,
             read_bytes_range url r headers kw false env tr = (env tr (fetch r), tr ++ [fetch r]))
    by reflexivity.
  assert (Hfirst : (if start <? 0
                    then (if start + total <? 0 then 0 else start + total)
                    else (if start <? 0 then 0 else start)) = first).
  { subst first. destruct (Z.ltb_spec start 0); [| reflexivity].
    destruct (Z.ltb_spec (start + total) 0); lia. }
  assert (Hne : forall a b, String.eqb (str_of_int a +:+ b) "" = false).
  { intros a b. unfold str_of_int. destruct (Z.to_int a) as [d | d]; cbn.
    - destruct d; reflexivity.
    - reflexivity. }
  split.
  - unfold read_bytes, get_bytes_range. rewrite Hcond.
    unfold mbind, steps_bind, s_bind, lift, mret, steps_ret, s_ret.
    rewrite Hp.
    destruct stop as [s |].
    + destruct (start <? 0) eqn:Hs; cbn [add_int].
      * rewrite Hfirst. destruct (s <? 0) eqn:Hs'; cbn [add_int closed_range];
          (destruct (first >=? _) eqn:Hge;
           [ reflexivity | rewrite Hne, Hf; split; [reflexivity | apply range_headers_range] ]).
      * subst first. rewrite Hs.
        destruct (s <? 0) eqn:Hs'; cbn [add_int closed_range];
          (destruct (start >=? _) eqn:Hge;
           [ reflexivity | rewrite Hne, Hf; split; [reflexivity | apply range_headers_range] ]).
    + destruct (start <? 0) eqn:Hs; cbn [add_int].
      * rewrite Hfirst, Hne, Hf. split; [reflexivity | apply range_headers_range].
      * cbn in Hcond. discriminate.
  - intros -> -> Hl. subst first.
    replace (-10 <? 0) with true by reflexivity.
    replace (Z.max 0 (-10 + total)) with (total - 10) by lia. reflexivity.
Qed.

Lemma read_bytes_negative_offsets_witness :
  map (fun e => req_headers e !! "Range")
      (snd (read_bytes plain_link (-10) None None no_keywords (content_of_length 4096) []))
    = [Some "bytes=-1"; Some "bytes=4086-"] /\
  map (fun e => req_headers e !! "Range")
      (snd (read_bytes plain_link (-10) (Some (-4)) None no_keywords (content_of_length 4096) []))
    = [Some "bytes=-1"; Some "bytes=4086-4091"] /\
  read_bytes plain_link (-10) (Some (-20)) None no_keywords (content_of_length 4096) []
    = (Return (VBytes []),
       [Request "https://cdnfhnfile.115cdn.net/f.bin"
          (<["Range" := "bytes=-1"]> (<["Accept-Encoding" := "identity"]> ∅)) "GET"
          ParseTotalLength]).
Proof.
  split; [| split].
  - destruct (read_bytes_negative_offsets plain_link None no_keywords (content_of_length 4096)
                (-10) None 4096 (or_introl eq_refl) eq_refl) as (_ & Hrun & _).
    destruct Hrun as [Hrun _]. rewrite Hrun. reflexivity.
  - destruct (read_bytes_negative_offsets plain_link None no_keywords (content_of_length 4096)
                (-10) (Some (-4)) 4096 (or_introl eq_refl) eq_refl) as (_ & Hrun & _).
    destruct Hrun as [Hrun _]. rewrite Hrun. reflexivity.
  - destruct (read_bytes_negative_offsets plain_link None no_keywords (content_of_length 4096)
                (-10) (Some (-20)) 4096 (or_introl eq_refl) eq_refl) as (_ & Hrun & _).
    exact Hrun.
Defined.

(** C5 as it is worded fails for a content shorter than 10 bytes: with
    5 bytes, [start=-10] resolves to the range [0-], not to [{L-10}-],
    which would read [-5-]. *)
Lemma read_bytes_short_content_clamps :
  map (fun e => req_headers e !! "Range")
      (snd (read_bytes plain_link (-10) None None no_keywords (content_of_length 5) []))
    = [Some "bytes=-1"; Some "bytes=0-"] /\
  str_of_int (5 - 10) +:+ "-" = "-5-" /\
  "bytes=0-" <> "bytes=" +:+ str_of_int (5 - 10) +:+ "-".
Proof. repeat split; discriminate. Qed.

End ReadBytesFacts.

(** ** Attribute normalisation *)

Section NormalizeAttrFacts.
Import NormalizeAttr.

Lemma obind_return {A B} (o : outcome A) (k : A -> outcome B) b :
  obind o k = Return b -> exists a, o = Return a /\ k a = Return b.
Proof. destruct o as [a | e]; cbn; [eauto | discriminate]. Qed.

Lemma Return_inj {A} (a b : A) : Return a = Return b -> a = b.
Proof. intros H. injection H as H. exact H. Qed.

(** What each step writes. *)
Lemma set_int_frame name v attr attr' k :
  set_int name v attr = Return attr' -> k <> name -> attr' !! k = attr !! k.
Proof.
  unfold set_int. intros H Hk. apply obind_return in H as (z & _ & H).
  inversion H. apply lookup_insert_ne. congruence.
Qed.

Lemma set_int_value name v attr attr' :
  set_int name v attr = Return attr' ->
  exists z, py_int v = Return z /\ attr' !! name = Some (VInt z).
Proof.
  unfold set_int. intros H. apply obind_return in H as (z & Hz & H).
  inversion H. exists z. split; [exact Hz | apply lookup_insert_eq].
Qed.

Lemma set_pickcode_frame info attr attr' k :
  set_pickcode info attr = Return attr' -> core k -> attr' !! k = attr !! k.
Proof.
  unfold set_pickcode. destruct (info !! "pc"); intros H Hk; inversion H; [| reflexivity].
  rewrite !lookup_insert_ne; [reflexivity | |]; intros <-; core_ne.
Qed.

Lemma set_size_frame info attr attr' k :
  set_size info attr = Return attr' -> core k -> attr' !! k = attr !! k.
Proof. intros H Hk. eapply set_int_frame; [exact H |]. intros ->; core_ne. Qed.

Lemma set_sha1_frame info attr attr' k :
  set_sha1 info attr = Return attr' -> core k -> attr' !! k = attr !! k.
Proof.
  unfold set_sha1. intros H Hk. inversion H. apply lookup_insert_ne. intros <-; core_ne.
Qed.

Lemma set_labels_frame info attr attr' k :
  set_labels info attr = Return attr' -> core k -> attr' !! k = attr !! k.
Proof.
  unfold set_labels. intros H Hk. apply obind_return in H as (fl & _ & H).
  inversion H. apply lookup_insert_ne. intros <-; core_ne.
Qed.

Lemma set_score_frame info attr attr' k :
  set_score info attr = Return attr' -> core k -> attr' !! k = attr !! k.
Proof.
  unfold set_score. destruct (dict_has info "score"); intros H Hk.
  - eapply set_int_frame; [exact H |]. intros ->; core_ne.
  - inversion H. reflexivity.
Qed.

Lemma set_ico_frame info attr attr' k :
  set_ico info attr = Return attr' -> core k -> attr' !! k = attr !! k.
Proof.
  unfold set_ico. intros H Hk. inversion H. apply lookup_insert_ne. intros <-; core_ne.
Qed.

Lemma set_stamp_frame key names info attr attr' k :
  set_stamp key names info attr = Return attr' -> ~ In k names -> attr' !! k = attr !! k.
Proof.
  unfold set_stamp. destruct (info !! key) as [v |]; intros H Hk.
  - apply obind_return in H as (z & _ & H). inversion H. clear H H1.
    induction names as [| name names IH]; cbn [foldr]; [reflexivity |].
    rewrite lookup_insert_ne by (intros ->; apply Hk; left; reflexivity).
    apply IH. intros Hin. apply Hk. right. exact Hin.
  - inversion H. reflexivity.
Qed.

Lemma set_time_frame info attr attr' k :
  set_time info attr = Return attr' -> core k -> attr' !! k = attr !! k.
Proof.
  unfold set_time. destruct (truthy (dict_get info "t" VNone)); intros H Hk.
  - destruct (dict_get info "t" VNone); try discriminate.
    destruct (isdecimal s).
    + eapply set_int_frame; [exact H |]. intros ->; core_ne.
    + inversion H. reflexivity.
  - inversion H. reflexivity.
Qed.

Lemma set_flags_frame names info attr attr' k :
  set_flags names info attr = Return attr' -> ~ In k (map snd names) -> attr' !! k = attr !! k.
Proof.
  revert attr. induction names as [| [key name] names IH]; cbn [set_flags map snd]; intros attr H Hk.
  - inversion H. reflexivity.
  - destruct (info !! key) as [v |].
    + apply obind_return in H as (z & _ & H).
      rewrite (IH _ H) by (intros Hin; apply Hk; right; exact Hin).
      apply lookup_insert_ne. intros ->. apply Hk. left. reflexivity.
    + apply (IH _ H). intros Hin. apply Hk. right. exact Hin.
Qed.

Lemma copy_fields_frame names info attr k :
  ~ In k (map snd names) -> copy_fields names info attr !! k = attr !! k.
Proof.
  revert attr. induction names as [| [key name] names IH]; cbn [copy_fields map snd]; intros attr Hk.
  - reflexivity.
  - destruct (info !! key) as [v |].
    + rewrite IH by (intros Hin; apply Hk; right; exact Hin).
      apply lookup_insert_ne. intros ->. apply Hk. left. reflexivity.
    + apply IH. intros Hin. apply Hk. right. exact Hin.
Qed.

Lemma set_raw_frame keep_raw info attr k :
  core k -> set_raw keep_raw info attr !! k = attr !! k.
Proof.
  unfold set_raw. intros Hk. destruct keep_raw; [| reflexivity].
  apply lookup_insert_ne. intros <-; core_ne.
Qed.

Lemma core_not_written k names :
  core k -> forallb (fun n => negb (String.eqb n "is_dir" || String.eqb n "id"
                                     || String.eqb n "parent_id" || String.eqb n "name")) names = true ->
  ~ In k names.
Proof.
  intros Hk Hall Hin. rewrite forallb_forall in Hall. specialize (Hall k Hin).
  unfold core in Hk. intuition (subst; discriminate).
Qed.

(** What [set_ids] leaves in the record. *)
Lemma set_ids_result info attr attr' :
  set_ids info attr = Return attr' ->
  attr' !! "is_dir" = Some (VBool (negb (dict_has info "fid"))) /\
  exists id parent z zp,
    info !! (if dict_has info "fid" then "fid" else "cid") = Some id /\
    info !! (if dict_has info "fid" then "cid" else "pid") = Some parent /\
    py_int id = Return z /\ py_int parent = Return zp /\
    attr' !! "id" = Some (VInt z) /\ attr' !! "parent_id" = Some (VInt zp).
Proof.
  unfold set_ids. intros H.
  destruct (dict_has info "fid") eqn:Hfid; cbn [negb] in *.
  - apply obind_return in H as (fid & Hf & H). apply obind_return in H as (a1 & H1 & H).
    apply obind_return in H as (cid & Hc & H).
    destruct (set_int_value _ _ _ _ H1) as (z & Hz & Hid).
    destruct (set_int_value _ _ _ _ H) as (zp & Hzp & Hpid).
    unfold dict_item in Hf, Hc.
    destruct (info !! "fid") as [x |] eqn:E1; [| discriminate]. inversion Hf; subst x.
    destruct (info !! "cid") as [y |] eqn:E2; [| discriminate]. inversion Hc; subst y.
    split.
    + rewrite (set_int_frame _ _ _ _ "is_dir" H) by discriminate.
      rewrite (set_int_frame _ _ _ _ "is_dir" H1) by discriminate.
      rewrite lookup_insert_ne by discriminate. apply lookup_insert_eq.
    + exists fid, cid, z, zp. repeat split; try assumption.
      rewrite (set_int_frame _ _ _ _ "id" H) by discriminate. exact Hid.
  - apply obind_return in H as (cid & Hc & H). apply obind_return in H as (a1 & H1 & H).
    apply obind_return in H as (pid & Hp & H).
    destruct (set_int_value _ _ _ _ H1) as (z & Hz & Hid).
    destruct (set_int_value _ _ _ _ H) as (zp & Hzp & Hpid).
    unfold dict_item in Hc, Hp.
    destruct (info !! "cid") as [x |] eqn:E1; [| discriminate]. inversion Hc; subst x.
    destruct (info !! "pid") as [y |] eqn:E2; [| discriminate]. inversion Hp; subst y.
    split.
    + rewrite (set_int_frame _ _ _ _ "is_dir" H) by discriminate.
      rewrite (set_int_frame _ _ _ _ "is_dir" H1) by discriminate.
      rewrite lookup_insert_ne by discriminate. apply lookup_insert_eq.
    + exists cid, pid, z, zp. repeat split; try assumption.
      rewrite (set_int_frame _ _ _ _ "id" H) by discriminate. exact Hid.
Qed.

(** The steps after [set_name] leave the four core keys alone. *)
Lemma after_name_frame info keep_raw a0 attr k :
  (attr ← set_size info a0;
   attr ← set_sha1 info attr;
   attr ← set_labels info attr;
   attr ← set_score info attr;
   attr ← set_ico info attr;
   attr ← set_stamp "te" ["mtime"; "user_utime"] info attr;
   attr ← set_stamp "tp" ["ctime"; "user_ptime"] info attr;
   attr ← set_stamp "to" ["atime"; "user_otime"] info attr;
   attr ← set_stamp "tu" ["utime"] info attr;
   attr ← set_time info attr;
   attr ← set_flags flag_names info attr;
   mret (set_raw keep_raw info (copy_fields copied_names info attr))) = Return attr ->
  core k -> attr !! k = a0 !! k.
Proof.
  unfold mbind, outcome_bind, mret, outcome_ret. intros H Hk.
  apply obind_return in H as (a1 & H1 & H). apply obind_return in H as (a2 & H2 & H).
  apply obind_return in H as (a3 & H3 & H). apply obind_return in H as (a4 & H4 & H).
  apply obind_return in H as (a5 & H5 & H). apply obind_return in H as (a6 & H6 & H).
  apply obind_return in H as (a7 & H7 & H). apply obind_return in H as (a8 & H8 & H).
  apply obind_return in H as (a9 & H9 & H). apply obind_return in H as (a10 & H10 & H).
  apply obind_return in H as (a11 & H11 & H). apply Return_inj in H. subst attr.
  assert (W : forall names,
             forallb (fun n => negb (String.eqb n "is_dir" || String.eqb n "id"
                                     || String.eqb n "parent_id" || String.eqb n "name")) names = true ->
             ~ In k names) by (intros names; apply core_not_written; exact Hk).
  etransitivity; [apply set_raw_frame; exact Hk |].
  etransitivity; [apply copy_fields_frame, W; reflexivity |].
  etransitivity; [apply (set_flags_frame _ _ _ _ k H11), W; reflexivity |].
  etransitivity; [apply (set_time_frame _ _ _ k H10 Hk) |].
  etransitivity; [apply (set_stamp_frame _ _ _ _ _ k H9), W; reflexivity |].
  etransitivity; [apply (set_stamp_frame _ _ _ _ _ k H8), W; reflexivity |].
  etransitivity; [apply (set_stamp_frame _ _ _ _ _ k H7), W; reflexivity |].
  etransitivity; [apply (set_stamp_frame _ _ _ _ _ k H6), W; reflexivity |].
  etransitivity; [apply (set_ico_frame _ _ _ k H5 Hk) |].
  etransitivity; [apply (set_score_frame _ _ _ k H4 Hk) |].
  etransitivity; [apply (set_labels_frame _ _ _ k H3 Hk) |].
  etransitivity; [apply (set_sha1_frame _ _ _ k H2 Hk) |].
  apply (set_size_frame _ _ _ k H1 Hk).
Qed.

(** Whenever [normalize_attr] returns, the core of its result is read
    off the raw record. *)
Lemma normalize_attr_core info keep_raw attr :
  normalize_attr info keep_raw = Return attr ->
  attr !! "is_dir" = Some (VBool (negb (dict_has info "fid"))) /\
  (exists n, info !! "n" = Some n /\ attr !! "name" = Some n) /\
  exists id parent z zp,
    info !! (if dict_has info "fid" then "fid" else "cid") = Some id /\
    info !! (if dict_has info "fid" then "cid" else "pid") = Some parent /\
    py_int id = Return z /\ py_int parent = Return zp /\
    attr !! "id" = Some (VInt z) /\ attr !! "parent_id" = Some (VInt zp).
Proof.
  unfold normalize_attr. intros H.
  unfold mbind at 1 2 3 in H. unfold outcome_bind in H.
  apply obind_return in H as (a1 & H1 & H). apply obind_return in H as (a2 & H2 & H).
  apply obind_return in H as (a3 & H3 & H).
  assert (F : forall k, core k -> k <> "name" -> attr !! k = a1 !! k).
  { intros k Hk Hn. rewrite (after_name_frame _ _ _ _ k H Hk).
    unfold set_name in H3. apply obind_return in H3 as (n & _ & H3). inversion H3.
    rewrite lookup_insert_ne by congruence. apply (set_pickcode_frame _ _ _ k H2 Hk). }
  destruct (set_ids_result _ _ _ H1) as (Hdir & id & parent & z & zp & Hi & Hp & Hz & Hzp & Hid & Hpid).
  split; [| split].
  - rewrite F; [exact Hdir | unfold core; tauto | discriminate].
  - unfold set_name in H3. apply obind_return in H3 as (n & Hn & H3). inversion H3. subst a3.
    unfold dict_item in Hn. destruct (info !! "n") as [x |]; [| discriminate]. inversion Hn; subst x.
    exists n. split; [reflexivity |].
    rewrite (after_name_frame _ _ _ _ "name" H) by (unfold core; tauto).
    apply lookup_insert_eq.
  - exists id, parent, z, zp. repeat split; try assumption.
    + rewrite F; [exact Hid | unfold core; tauto | discriminate].
    + rewrite F; [exact Hpid | unfold core; tauto | discriminate].
Qed.

(** *** The least records are accepted *)

Lemma in_by_existsb k l : existsb (String.eqb k) l = true -> In k l.
Proof.
  intros H. apply existsb_exists in H as (x & Hx & E).
  apply String.eqb_eq in E. subst x. exact Hx.
Qed.

Lemma bind_returns {A B} (m : outcome A) (k : A -> outcome B) :
  (exists a, m = Return a) -> (forall a, exists b, k a = Return b) ->
  exists b, (m ≫= k) = Return b.
Proof. intros [a ->] Hk. apply Hk. Qed.

Lemma set_flags_absent names info attr :
  (forall key, In key (map fst names) -> info !! key = None) ->
  set_flags names info attr = Return attr.
Proof.
  induction names as [| [key name] names IH]; cbn [set_flags map fst]; intros H; [reflexivity |].
  rewrite (H key) by (left; reflexivity). apply IH. intros k Hk. apply H. right. exact Hk.
Qed.

Lemma copy_fields_absent names info attr :
  (forall key, In key (map fst names) -> info !! key = None) ->
  copy_fields names info attr = attr.
Proof.
  induction names as [| [key name] names IH]; cbn [copy_fields map fst]; intros H; [reflexivity |].
  rewrite (H key) by (left; reflexivity). apply IH. intros k Hk. apply H. right. exact Hk.
Qed.

(** A record with the two ids convertible, a name and labels, and none
    of the optional keys, is normalised without error. *)
Lemma normalize_attr_least info keep_raw id parent n fl z zp :
  Forall (fun k => info !! k = None) optional_keys ->
  info !! (if dict_has info "fid" then "fid" else "cid") = Some id ->
  info !! (if dict_has info "fid" then "cid" else "pid") = Some parent ->
  py_int id = Return z -> py_int parent = Return zp ->
  info !! "n" = Some n -> info !! "fl" = Some fl ->
  exists attr, normalize_attr info keep_raw = Return attr.
Proof.
  intros Habs Hid Hpar Hz Hzp Hn Hfl.
  assert (A : forall k, existsb (String.eqb k) optional_keys = true -> info !! k = None).
  { intros k Hk. rewrite Forall_forall in Habs. apply Habs, list_elem_of_In, in_by_existsb, Hk. }
  unfold normalize_attr.
  apply bind_returns.
  { unfold set_ids, dict_item, set_int. destruct (dict_has info "fid"); cbn [negb];
      rewrite Hid; cbn; rewrite Hz; cbn; rewrite Hpar; cbn; rewrite Hzp; cbn; eauto. }
  intros a1. apply bind_returns.
  { unfold set_pickcode. rewrite (A "pc") by reflexivity. eauto. }
  intros a2. apply bind_returns.
  { unfold set_name, dict_item. rewrite Hn. cbn. eauto. }
  intros a3. apply bind_returns.
  { unfold set_size, dict_get, set_int. rewrite (A "s") by reflexivity. cbn. eauto. }
  intros a4. apply bind_returns.
  { unfold set_sha1. eauto. }
  intros a5. apply bind_returns.
  { unfold set_labels, dict_item. rewrite Hfl. cbn. eauto. }
  intros a6. apply bind_returns.
  { unfold set_score, dict_has. rewrite (A "score") by reflexivity. eauto. }
  intros a7. apply bind_returns.
  { unfold set_ico. eauto. }
  intros a8. apply bind_returns.
  { unfold set_stamp. rewrite (A "te") by reflexivity. eauto. }
  intros a9. apply bind_returns.
  { unfold set_stamp. rewrite (A "tp") by reflexivity. eauto. }
  intros a10. apply bind_returns.
  { unfold set_stamp. rewrite (A "to") by reflexivity. eauto. }
  intros a11. apply bind_returns.
  { unfold set_stamp. rewrite (A "tu") by reflexivity. eauto. }
  intros a12. apply bind_returns.
  { unfold set_time, dict_get. rewrite (A "t") by reflexivity. cbn. eauto. }
  intros a13. apply bind_returns.
  { rewrite set_flags_absent; [eauto |]. intros key Hk. rewrite Forall_forall in Habs.
    apply Habs, list_elem_of_In. unfold optional_keys. apply in_or_app. right. apply in_or_app. left. exact Hk. }
  intros a14. eexists. reflexivity.
Qed.

Lemma directory_record_lookup cid pid n fl k :
  directory_record cid pid n fl !! k =
    if String.eqb k "cid" then Some cid
    else if String.eqb k "pid" then Some pid
    else if String.eqb k "n" then Some n
    else if String.eqb k "fl" then Some fl
    else None.
Proof.
  unfold directory_record.
  repeat (match goal with |- context [String.eqb k ?s] => destruct (String.eqb_spec k s) as [-> | ?] end;
          [simplify_map_eq; reflexivity |]).
  rewrite !lookup_insert_ne by congruence. apply lookup_empty.
Qed.

Lemma file_record_lookup fid cid n fl k :
  file_record fid cid n fl !! k =
    if String.eqb k "fid" then Some fid
    else if String.eqb k "cid" then Some cid
    else if String.eqb k "n" then Some n
    else if String.eqb k "fl" then Some fl
    else None.
Proof.
  unfold file_record.
  repeat (match goal with |- context [String.eqb k ?s] => destruct (String.eqb_spec k s) as [-> | ?] end;
          [simplify_map_eq; reflexivity |]).
  rewrite !lookup_insert_ne by congruence. apply lookup_empty.
Qed.

(** C6, as the code has it.  A record without [fid] that carries
    [cid], [pid], [n] and [fl], the ids convertible by [int], and none
    of the optional keys (whatever else it carries) is normalised into
    a record with [is_dir == True], [id == int(cid)],
    [parent_id == int(pid)] and [name == n]; a record that carries
    [fid], [cid], [n] and [fl] and none of the optional keys into one
    with [is_dir == False], [id == int(fid)], [parent_id == int(cid)]
    and [name == n]; and whenever [normalize_attr] returns, [is_dir]
    tells whether [fid] is missing, [name] is [n], and [id] and
    [parent_id] are [int(cid)] and [int(pid)] for a directory,
    [int(fid)] and [int(cid)] for a file. *)
Theorem normalize_attr_shape :
  (forall info cid pid n fl zc zp keep_raw,
      info !! "fid" = None ->
      info !! "cid" = Some cid -> info !! "pid" = Some pid ->
      info !! "n" = Some n -> info !! "fl" = Some fl ->
      Forall (fun k => info !! k = None) optional_keys ->
      py_int cid = Return zc -> py_int pid = Return zp ->
      exists attr,
        normalize_attr info keep_raw = Return attr /\
        attr !! "is_dir" = Some (VBool true) /\
        attr !! "id" = Some (VInt zc) /\
        attr !! "parent_id" = Some (VInt zp) /\
        attr !! "name" = Some n) /\
  (forall info fid cid n fl zf zc keep_raw,
      info !! "fid" = Some fid -> info !! "cid" = Some cid ->
      info !! "n" = Some n -> info !! "fl" = Some fl ->
      Forall (fun k => info !! k = None) optional_keys ->
      py_int fid = Return zf -> py_int cid = Return zc ->
      exists attr,
        normalize_attr info keep_raw = Return attr /\
        attr !! "is_dir" = Some (VBool false) /\
        attr !! "id" = Some (VInt zf) /\
        attr !! "parent_id" = Some (VInt zc) /\
        attr !! "name" = Some n) /\
  (forall info keep_raw attr,
      normalize_attr info keep_raw = Return attr ->
      attr !! "is_dir" = Some (VBool (negb (dict_has info "fid"))) /\
      (exists n, info !! "n" = Some n /\ attr !! "name" = Some n) /\
      exists id parent z zp,
        info !! (if dict_has info "fid" then "fid" else "cid") = Some id /\
        info !! (if dict_has info "fid" then "cid" else "pid") = Some parent /\
        py_int id = Return z /\ py_int parent = Return zp /\
        attr !! "id" = Some (VInt z) /\ attr !! "parent_id" = Some (VInt zp)).
Proof.
  split; [| split; [| exact normalize_attr_core]].
  - intros info cid pid n fl zc zp keep_raw Hfid Hcid Hpid Hn Hfl Habs Hc Hp.
    assert (Hd : dict_has info "fid" = false) by (unfold dict_has; rewrite Hfid; reflexivity).
    destruct (normalize_attr_least info keep_raw cid pid n fl zc zp) as [attr Hattr];
      try assumption; try (rewrite Hd; assumption).
    exists attr. split; [exact Hattr |].
    destruct (normalize_attr_core _ _ _ Hattr)
      as (Hdir & (n' & Hn' & Hname) & id & parent & z & zp' & Hi & Hpa & Hz & Hzp & Hid & Hpar).
    rewrite Hd in Hdir, Hi, Hpa. rewrite Hcid in Hi. rewrite Hpid in Hpa. rewrite Hn in Hn'.
    injection Hi as <-. injection Hpa as <-. injection Hn' as <-.
    rewrite Hc in Hz. rewrite Hp in Hzp. apply Return_inj in Hz, Hzp. subst z zp'. auto.
  - intros info fid cid n fl zf zc keep_raw Hfid Hcid Hn Hfl Habs Hf Hc.
    assert (Hd : dict_has info "fid" = true) by (unfold dict_has; rewrite Hfid; reflexivity).
    destruct (normalize_attr_least info keep_raw fid cid n fl zf zc) as [attr Hattr];
      try assumption; try (rewrite Hd; assumption).
    exists attr. split; [exact Hattr |].
    destruct (normalize_attr_core _ _ _ Hattr)
      as (Hdir & (n' & Hn' & Hname) & id & parent & z & zp' & Hi & Hpa & Hz & Hzp & Hid & Hpar).
    rewrite Hd in Hdir, Hi, Hpa. rewrite Hfid in Hi. rewrite Hcid in Hpa. rewrite Hn in Hn'.
    injection Hi as <-. injection Hpa as <-. injection Hn' as <-.
    rewrite Hf in Hz. rewrite Hc in Hzp. apply Return_inj in Hz, Hzp. subst z zp'. auto.
Qed.

Lemma normalize_attr_shape_witness :
  (exists attr,
     normalize_attr (directory_record (VStr "12") (VStr "3") (VStr "docs") (VList [])) false
       = Return attr /\
     attr !! "is_dir" = Some (VBool true) /\ attr !! "id" = Some (VInt 12) /\
     attr !! "parent_id" = Some (VInt 3) /\ attr !! "name" = Some (VStr "docs")) /\
  (exists attr,
     normalize_attr (<["aid" := VStr "1"]> (file_record (VInt 7) (VStr "12") (VStr "a.txt") (VList []))) false
       = Return attr /\
     attr !! "is_dir" = Some (VBool false) /\ attr !! "id" = Some (VInt 7) /\
     attr !! "parent_id" = Some (VInt 12) /\ attr !! "name" = Some (VStr "a.txt")).
Proof.
  destruct normalize_attr_shape as (Hdir & Hfile & _).
  split.
  - apply (Hdir _ (VStr "12") (VStr "3") (VStr "docs") (VList []) 12 3 false);
      try (rewrite directory_record_lookup; reflexivity); try reflexivity.
    unfold optional_keys, flag_names, copied_names. cbn [map fst app].
    repeat constructor; rewrite directory_record_lookup; reflexivity.
  - apply (Hfile _ (VInt 7) (VStr "12") (VStr "a.txt") (VList []) 7 12 false);
      try (rewrite lookup_insert_ne by discriminate; rewrite file_record_lookup; reflexivity);
      try reflexivity.
    unfold optional_keys, flag_names, copied_names. cbn [map fst app].
    repeat constructor; rewrite lookup_insert_ne by discriminate; rewrite file_record_lookup; reflexivity.
Defined.

(** C6 as it is worded fails: a record with only [cid] and [n] is
    refused for its missing [pid], and one with only [fid] and [cid] for
    its missing [n]. *)
Lemma normalize_attr_needs_more_keys :
  normalize_attr (<["cid" := VStr "12"]> (<["n" := VStr "docs"]> ∅)) false
    = Raise (Exn KeyError None (VStr "pid")) /\
  normalize_attr (<["fid" := VStr "7"]> (<["cid" := VStr "12"]> ∅)) false
    = Raise (Exn KeyError None (VStr "n")).
Proof. split; vm_compute; reflexivity. Qed.

End NormalizeAttrFacts.

(** ** The QR-code login *)

Section QrLoginFacts.
Import QrLogin.

Lemma eq_int_unique v a b : eq_int v a = true -> a <> b -> eq_int v b = false.
Proof.
  destruct v as [| [] | z | | | | |]; cbn [eq_int]; try discriminate;
    intros H Hab; apply Z.eqb_eq in H; apply Z.eqb_neq; lia.
Qed.

Lemma polled_snoc token n : polled token (S n) = ScanStatus token :: polled token n.
Proof. reflexivity. Qed.

(** Answers that keep the loop polling are consumed one status request
    each. *)
Lemma poll_loop_keeps_polling app token before rest result trace :
  forallb keeps_polling before = true ->
  poll_loop app token (before ++ rest) result trace =
    poll_loop app token rest result (trace ++ polled token (length before)).
Proof.
  revert trace. induction before as [| answer before IH]; intros trace H.
  - cbn. rewrite app_nil_r. reflexivity.
  - cbn [forallb] in H. apply andb_true_iff in H as [Ha Hb].
    cbn [List.app poll_loop length]. rewrite polled_snoc.
    replace (trace ++ ScanStatus token :: polled token (length before))
      with ((trace ++ [ScanStatus token]) ++ polled token (length before))
      by (rewrite <- app_assoc; reflexivity).
    destruct answer as [resp | e]; [| apply IH, Hb].
    unfold keeps_polling in Ha. destruct (status_of resp) as [status | e]; [| discriminate].
    unfold judge. destruct (eq_int status 0) eqn:H0; [apply IH, Hb |].
    cbn [orb] in Ha. rewrite Ha. apply IH, Hb.
Qed.

Lemma polled_no_exchange token n trace :
  existsb is_exchange trace = false ->
  existsb is_exchange (trace ++ polled token n) = false.
Proof.
  intros H. rewrite existsb_app, H. cbn [orb].
  induction n as [| n IH]; [reflexivity | exact IH].
Qed.

(** C7.  In the polling loop, after any number of answers that are an
    exception or carry status 0 or 1 (each of which only causes another
    status request), an answer with status 2 ends the loop: with an
    [app] the device exchange is then requested, after all the status
    requests, and its answer returned; without one the bare token is
    returned.  An answer with status -1, -2 or any other value raises a
    [LoginError], each of the three with a message of its own, and the
    device exchange is not requested. *)
Theorem qrcode_poll_terminal
    (app : string) (token : pyval) (before after : list (outcome pyval))
    (resp status : pyval) (result : option (outcome pyval)) (trace : list event) :
  forallb keeps_polling before = true ->
  status_of resp = Return status ->
  existsb is_exchange trace = false ->
  let script := before ++ Return resp :: after in
  let seen := trace ++ polled token (S (length before)) in
  let expired := login_error (VStr "[status=-1] qrcode: expired") in
  let canceled := login_error (VStr "[status=-2] qrcode: canceled") in
  let aborted := login_error (aborted_with resp) in
  existsb is_exchange seen = false /\
  (eq_int status 0 = true \/ eq_int status 1 = true ->
     poll_loop app token script result trace = poll_loop app token after result seen) /\
  (eq_int status 2 = true ->
     poll_loop app token script result trace = after_loop app token result seen /\
     (app = "" -> after_loop app token result seen = (Over (Return token), seen)) /\
     (app <> "" -> forall uid o, subscript token "uid" = Return uid -> result = Some o ->
        after_loop app token result seen = (Over o, seen ++ [ScanResult uid app]))) /\
  (eq_int status (-1) = true ->
     poll_loop app token script result trace = (Over (Raise expired), seen)) /\
  (eq_int status (-2) = true ->
     poll_loop app token script result trace = (Over (Raise canceled), seen)) /\
  (eq_int status 0 = false -> eq_int status 1 = false -> eq_int status 2 = false ->
   eq_int status (-1) = false -> eq_int status (-2) = false ->
     poll_loop app token script result trace = (Over (Raise aborted), seen)) /\
  exn_kind_of expired = LoginError /\ exn_kind_of canceled = LoginError /\
  exn_kind_of aborted = LoginError /\
  exn_arg expired <> exn_arg canceled /\ exn_arg expired <> exn_arg aborted /\
  exn_arg canceled <> exn_arg aborted.
Proof.
  intros Hbefore Hstatus Htrace script seen expired canceled aborted.
  assert (Hseen : seen = (trace ++ polled token (length before)) ++ [ScanStatus token]).
  { unfold seen. rewrite <- app_assoc. f_equal.
    unfold polled. cbn [repeat]. apply repeat_cons. }
  assert (Hrun : poll_loop app token script result trace =
                 match judge resp status with
                 | KeepPolling => poll_loop app token after result seen
                 | SignedIn => after_loop app token result seen
                 | Abort e => (Over (Raise e), seen)
                 end).
  { unfold script. rewrite (poll_loop_keeps_polling _ _ _ _ _ _ Hbefore).
    cbn [poll_loop]. rewrite Hstatus, <- Hseen. reflexivity. }
  split; [apply polled_no_exchange, Htrace |].
  split; [| split; [| split; [| split; [| split]]]].
  - intros [H | H]; rewrite Hrun; unfold judge.
    + rewrite H. reflexivity.
    + rewrite H. destruct (eq_int status 0); reflexivity.
  - intros H. split; [| split].
    + rewrite Hrun. unfold judge.
      rewrite (eq_int_unique _ 2 0 H), (eq_int_unique _ 2 1 H), H by lia. reflexivity.
    + intros ->. reflexivity.
    + intros Happ uid o Huid ->. unfold after_loop.
      destruct app as [| c app']; [congruence |]. cbn [truthy String.eqb negb].
      rewrite Huid. reflexivity.
  - intros H. rewrite Hrun. unfold judge.
    rewrite (eq_int_unique _ (-1) 0 H), (eq_int_unique _ (-1) 1 H),
      (eq_int_unique _ (-1) 2 H), H by lia. reflexivity.
  - intros H. rewrite Hrun. unfold judge.
    rewrite (eq_int_unique _ (-2) 0 H), (eq_int_unique _ (-2) 1 H),
      (eq_int_unique _ (-2) 2 H), (eq_int_unique _ (-2) (-1) H), H by lia. reflexivity.
  - intros H0 H1 H2 H3 H4. rewrite Hrun. unfold judge.
    rewrite H0, H1, H2, H3, H4. reflexivity.
  - repeat split; discriminate.
Qed.

Lemma qrcode_poll_terminal_witness :
  login_with_qrcode "web" true (Return token_response)
    [Return (status_response (VInt 0)); Raise (Exn TransportError None VNone);
     Return (status_response (VInt 1)); Return (status_response (VInt 2))]
    (Some (Return exchange_response))
  = (Over (Return exchange_response),
     [Token; PrintAscii (VStr "q1")] ++ polled bare_token 4 ++ [ScanResult (VStr "u1") "web"]) /\
  login_with_qrcode "" true (Return token_response)
    [Return (status_response (VInt 0)); Return (status_response (VInt 2))] None
  = (Over (Return bare_token), [Token; PrintAscii (VStr "q1")] ++ polled bare_token 2) /\
  login_with_qrcode "web" true (Return token_response)
    [Return (status_response (VInt 1)); Return (status_response (VInt (-2)))]
    (Some (Return exchange_response))
  = (Over (Raise (login_error (VStr "[status=-2] qrcode: canceled"))),
     [Token; PrintAscii (VStr "q1")] ++ polled bare_token 2).
Proof.
  split; [| split].
  - destruct (qrcode_poll_terminal "web" bare_token
                [Return (status_response (VInt 0)); Raise (Exn TransportError None VNone);
                 Return (status_response (VInt 1))] []
                (status_response (VInt 2)) (VInt 2) (Some (Return exchange_response))
                [Token; PrintAscii (VStr "q1")] eq_refl eq_refl eq_refl)
      as (_ & _ & Hin & _).
    destruct (Hin eq_refl) as (Hrun & _ & Hexchange).
    transitivity (poll_loop "web" bare_token
                    ([Return (status_response (VInt 0)); Raise (Exn TransportError None VNone);
                      Return (status_response (VInt 1))] ++ [Return (status_response (VInt 2))])
                    (Some (Return exchange_response)) [Token; PrintAscii (VStr "q1")]);
      [reflexivity |].
    rewrite Hrun.
    rewrite (Hexchange ltac:(discriminate) (VStr "u1") (Return exchange_response) eq_refl eq_refl).
    reflexivity.
  - destruct (qrcode_poll_terminal "" bare_token [Return (status_response (VInt 0))] []
                (status_response (VInt 2)) (VInt 2) None
                [Token; PrintAscii (VStr "q1")] eq_refl eq_refl eq_refl)
      as (_ & _ & Hin & _).
    destruct (Hin eq_refl) as (Hrun & Hbare & _).
    transitivity (poll_loop "" bare_token
                    ([Return (status_response (VInt 0))] ++ [Return (status_response (VInt 2))])
                    None [Token; PrintAscii (VStr "q1")]);
      [reflexivity |].
    rewrite Hrun, (Hbare eq_refl). reflexivity.
  - destruct (qrcode_poll_terminal "web" bare_token [Return (status_response (VInt 1))] []
                (status_response (VInt (-2))) (VInt (-2)) (Some (Return exchange_response))
                [Token; PrintAscii (VStr "q1")] eq_refl eq_refl eq_refl)
      as (_ & _ & _ & _ & Hcancel & _).
    transitivity (poll_loop "web" bare_token
                    ([Return (status_response (VInt 1))] ++ [Return (status_response (VInt (-2)))])
                    (Some (Return exchange_response)) [Token; PrintAscii (VStr "q1")]);
      [reflexivity |].
    rewrite (Hcancel eq_refl). reflexivity.
Defined.

End QrLoginFacts.

(** ** Hashing a download *)

Section HashesFacts.
Import Hashes.

Variable reader : Type.
Variable length : reader -> Z.
Variable R : Type.
Variable file_digest file_digest_async : reader -> digest -> option Z -> outcome R.
Variable file_mdigest file_mdigest_async : reader -> list digest -> option Z -> outcome R.

Lemma digests_of_digests (ds : list digest) :
  digests_of reader (map (ODigest reader) ds) = Some ds.
Proof.
  induction ds as [| d ds IH]; [reflexivity |].
  cbn [map digests_of]. rewrite IH. reflexivity.
Qed.

Lemma call_mdigest_file f (file : reader) (ds : list digest) (stop : option Z) :
  call_mdigest reader R f (OReader reader file :: map (ODigest reader) ds) stop = f file ds stop.
Proof. unfold call_mdigest. rewrite digests_of_digests. reflexivity. Qed.

(** [hash] takes the same branches in both modes. *)
Lemma hash_modes_agree (file : reader) (d : digest) (start : Z) (stop : option Z) :
  hash reader length R file_digest file_digest_async file d start stop false =
    Now (file_digest file (convert_digest d)
           (option_map (relative_stop reader length file start) stop)) /\
  hash reader length R file_digest file_digest_async file d start stop true =
    Coroutine (file_digest_async file (convert_digest d)
                 (option_map (relative_stop reader length file start) stop)).
Proof. unfold hash. destruct stop; split; reflexivity. Qed.

(** The two modes of [hashes] differ when [stop] is given (C8): the
    blocking call hands the file and the digests to [file_mdigest] with
    the relative stop, the non-blocking one raises [TypeError] when
    awaited, because the argument it builds is the product of the file
    object and the tuple of digests.  Without [stop] both modes hand the
    same arguments on. *)
Theorem hashes_async_with_stop_raises
    (file : reader) (d : digest) (ds : list digest) (start s : Z) :
  let digests := convert_digest d :: map convert_digest ds in
  hashes reader length R file_mdigest file_mdigest_async file d ds start (Some s) false =
    Now (file_mdigest file digests (Some (relative_stop reader length file start s))) /\
  hashes reader length R file_mdigest file_mdigest_async file d ds start (Some s) true =
    Coroutine (raise TypeError VNone) /\
  hashes reader length R file_mdigest file_mdigest_async file d ds start None false =
    Now (file_mdigest file digests None) /\
  hashes reader length R file_mdigest file_mdigest_async file d ds start None true =
    Coroutine (file_mdigest_async file digests None).
Proof.
  intros digests. unfold hashes. fold digests.
  change (OReader reader file :: ODigest reader (convert_digest d)
            :: map (ODigest reader) (map convert_digest ds))
    with (OReader reader file :: map (ODigest reader) digests).
  repeat split; try (rewrite call_mdigest_file; reflexivity).
Qed.

End HashesFacts.

(** ** The cookie state *)

Section CookiesFacts.
Import Cookies.

Variable from_cookiejar : list cookie -> string.
Variable cookies_str_to_dict : string -> list (string * option string).
Variable create_cookie : string -> string -> string -> cookie.

Lemma rstrip_char_empty ch : rstrip_char ch "" = "".
Proof. reflexivity. Qed.

Lemma write_cookies_jar s c : jar (snd (write_cookies s c)) = jar c.
Proof. unfold write_cookies, m_modify. cbn [snd]. destruct (cookies_file c); reflexivity. Qed.

Lemma write_cookies_returns s c : fst (write_cookies s c) = Return tt.
Proof. reflexivity. Qed.

(** C9, as the code has it.  Assigning [None] to [cookies] empties the
    jar.  Assigning a text that is empty or blank, or an empty mapping,
    returns at once and leaves the client, its jar included, as it
    was. *)
Theorem cookies_setter_empty_values (c : client) :
  fst (cookies_setter from_cookiejar cookies_str_to_dict create_cookie CNone c) = Return tt /\
  jar (snd (cookies_setter from_cookiejar cookies_str_to_dict create_cookie CNone c)) = [] /\
  (forall s, strip s = "" ->
     cookies_setter from_cookiejar cookies_str_to_dict create_cookie (CStr s) c = (Return tt, c)) /\
  cookies_setter from_cookiejar cookies_str_to_dict create_cookie (CMapping []) c = (Return tt, c).
Proof.
  unfold cookies_setter, cookies_str, mbind, method_bind, m_bind, m_get, mret, method_ret, m_ret,
    m_modify.
  split; [| split; [| split]].
  - destruct (String.eqb _ ""); reflexivity.
  - destruct (String.eqb _ ""); [reflexivity |]. apply write_cookies_jar.
  - intros s Hs. rewrite Hs, rstrip_char_empty. reflexivity.
  - reflexivity.
Qed.

(** Assigning [None] empties the jar and leaves the cached [user_id]
    where it is. *)
Lemma cookies_setter_none_state (c : client) :
  let c' := snd (cookies_setter from_cookiejar cookies_str_to_dict create_cookie CNone c) in
  jar c' = [] /\ cached_user_id c' = cached_user_id c.
Proof.
  unfold cookies_setter, cookies_str, mbind, method_bind, m_bind, m_get, mret, method_ret, m_ret,
    m_modify, write_cookies.
  destruct (String.eqb _ ""); cbn; [split; reflexivity |].
  destruct (cookies_file c); split; reflexivity.
Qed.

(** The stale [user_id] (C10): once [user_id] has been read, assigning
    [None] to [cookies] empties the jar but leaves the cached value, so
    [user_id] still answers 123 where its body, run on the jar, gives
    0; [login_ssoent], which is not cached, answers [None]. *)
Lemma user_id_stale_after_clearing :
  let read := user_id signed_in in
  let cleared :=
    snd (cookies_setter from_cookiejar cookies_str_to_dict create_cookie CNone (snd read)) in
  fst read = Return 123 /\
  fst (login_ssoent signed_in) = Return (Some "A1") /\
  jar cleared = [] /\
  compute_user_id (jar cleared) = Return 0 /\
  fst (user_id cleared) = Return 123 /\
  fst (login_ssoent cleared) = Return None.
Proof.
  intros read cleared.
  destruct (cookies_setter_none_state (snd read)) as [Hjar Hcache].
  fold cleared in Hjar, Hcache.
  split; [reflexivity |]. split; [reflexivity |]. split; [exact Hjar |].
  split; [rewrite Hjar; reflexivity |].
  unfold user_id, login_ssoent, mbind, method_bind, m_bind, m_get, m_lift, mret, method_ret, m_ret.
  rewrite Hcache, Hjar. split; reflexivity.
Qed.

End CookiesFacts.

Lemma cookies_setter_empty_values_witness :
  Cookies.jar (snd (Cookies.cookies_setter from_cookiejar cookies_str_to_dict create_cookie
                      Cookies.CNone signed_in)) = [] /\
  Cookies.cookies_setter from_cookiejar cookies_str_to_dict create_cookie (Cookies.CStr "  ")
    signed_in = (Return tt, signed_in).
Proof.
  destruct (cookies_setter_empty_values from_cookiejar cookies_str_to_dict create_cookie signed_in)
    as (_ & Hnone & Hstr & _).
  split; [exact Hnone | apply Hstr; reflexivity].
Defined.

(** C9 as it is worded fails: assigning an empty text, a blank text or
    an empty mapping leaves the jar with its cookie. *)
Lemma cookies_setter_empty_text_keeps_jar :
  Cookies.jar_cookies (Cookies.jar signed_in)
    = [Cookies.Cookie ".115.com" "/" "UID" "123_A1_1730000000"] /\
  Cookies.jar (snd (Cookies.cookies_setter from_cookiejar cookies_str_to_dict create_cookie
                      (Cookies.CStr "") signed_in)) = Cookies.jar signed_in /\
  Cookies.jar (snd (Cookies.cookies_setter from_cookiejar cookies_str_to_dict create_cookie
                      (Cookies.CStr "   ") signed_in)) = Cookies.jar signed_in /\
  Cookies.jar (snd (Cookies.cookies_setter from_cookiejar cookies_str_to_dict create_cookie
                      (Cookies.CMapping []) signed_in)) = Cookies.jar signed_in /\
  Cookies.jar signed_in <> [].
Proof. repeat split; discriminate. Qed.

(** ** The pattern matcher *)

Section ReFacts.
Import Re.

Lemma matches_cat_inv r1 r2 w :
  matches (Cat r1 r2) w -> exists w1 w2, w = w1 ++ w2 /\ matches r1 w1 /\ matches r2 w2.
Proof. intros H. inversion H; subst. eauto. Qed.

Lemma nullable_matches r : nullable r = true <-> matches r [].
Proof.
  induction r as [| | p | r1 IH1 r2 IH2 | r1 IH1 r2 IH2 | r IH]; cbn [nullable].
  - split; [discriminate | intros H; inversion H].
  - split; [intros _; constructor | reflexivity].
  - split; [discriminate | intros H; inversion H].
  - rewrite andb_true_iff, IH1, IH2. split.
    + intros [H1 H2]. apply (MCat r1 r2 [] [] H1 H2).
    + intros H. apply matches_cat_inv in H as (w1 & w2 & E & H1 & H2).
      destruct w1; [| discriminate]. destruct w2; [| discriminate]. auto.
  - rewrite orb_true_iff, IH1, IH2. split.
    + intros [H | H]; [apply MAltL | apply MAltR]; exact H.
    + intros H. inversion H; subst; auto.
  - split; [intros _; constructor | reflexivity].
Qed.

Lemma matches_cat r1 r2 w : matches (cat r1 r2) w <-> matches (Cat r1 r2) w.
Proof.
  assert (V1 : forall r, matches (Cat Void r) w <-> matches Void w).
  { intros r. split; intros H; inversion H; subst.
    match goal with H' : matches Void _ |- _ => inversion H' end. }
  assert (V2 : forall r, matches (Cat r Void) w <-> matches Void w).
  { intros r. split; intros H; inversion H; subst.
    match goal with H' : matches Void _ |- _ => inversion H' end. }
  assert (E : forall r, matches (Cat Eps r) w <-> matches r w).
  { intros r. split; intros H.
    - apply matches_cat_inv in H as (w1 & w2 & -> & H1 & H2). inversion H1; subst. exact H2.
    - apply (MCat Eps r [] w); [constructor | exact H]. }
  destruct r1, r2; cbn [cat]; rewrite ?V1, ?V2, ?E; reflexivity.
Qed.

Lemma matches_alt r1 r2 w : matches (alt r1 r2) w <-> matches (Alt r1 r2) w.
Proof.
  assert (V1 : forall r, matches (Alt Void r) w <-> matches r w).
  { intros r. split; intros H; [| apply MAltR; exact H].
    inversion H; subst; [| assumption].
    match goal with H' : matches Void _ |- _ => inversion H' end. }
  assert (V2 : forall r, matches (Alt r Void) w <-> matches r w).
  { intros r. split; intros H; [| apply MAltL; exact H].
    inversion H; subst; [assumption |].
    match goal with H' : matches Void _ |- _ => inversion H' end. }
  destruct r1, r2; cbn [alt]; rewrite ?V1, ?V2; reflexivity.
Qed.

(** A non-empty word of a starred expression starts with a non-empty
    word of the expression. *)
Lemma matches_star_cons r c w :
  matches (Star r) (c :: w) ->
  exists w1 w2, w = w1 ++ w2 /\ matches r (c :: w1) /\ matches (Star r) w2.
Proof.
  intros H. remember (Star r) as sr eqn:Esr. remember (c :: w) as cw eqn:Ecw.
  revert c w Ecw.
  induction H as [| | | | | | r' u1 u2 H1 _ H2 IH2]; intros c0 w0 Ecw; try discriminate.
  injection Esr as ->.
  destruct u1 as [| c1 u1'].
  - cbn in Ecw. apply (IH2 eq_refl c0 w0 Ecw).
  - cbn in Ecw. injection Ecw as E1 E2; subst. exists u1', u2. auto.
Qed.

Lemma deriv_matches c r w : matches (deriv c r) w <-> matches r (c :: w).
Proof.
  revert w. induction r as [| | p | r1 IH1 r2 IH2 | r1 IH1 r2 IH2 | r IH]; intros w; cbn [deriv].
  - split; intros H; inversion H.
  - split; intros H; inversion H.
  - destruct (p c) eqn:Hp; split; intros H.
    + inversion H; subst. constructor. exact Hp.
    + inversion H; subst. constructor.
    + inversion H.
    + inversion H; subst. congruence.
  - assert (L : matches (Cat (deriv c r1) r2) w <->
                exists w1 w2, w = w1 ++ w2 /\ matches r1 (c :: w1) /\ matches r2 w2).
    { split.
      - intros H. apply matches_cat_inv in H as (w1 & w2 & -> & H1 & H2).
        exists w1, w2. rewrite <- IH1. auto.
      - intros (w1 & w2 & -> & H1 & H2). constructor; [apply IH1, H1 | exact H2]. }
    destruct (nullable r1) eqn:Hn.
    + rewrite matches_alt. split.
      * intros H. inversion H; subst.
        -- match goal with H' : matches (cat _ _) _ |- _ => apply matches_cat, L in H' as (w1 & w2 & -> & H1 & H2) end.
           apply (MCat r1 r2 (c :: w1) w2 H1 H2).
        -- apply (MCat r1 r2 [] (c :: w)); [apply nullable_matches, Hn | apply IH2; assumption].
      * intros H. apply matches_cat_inv in H as (w1 & w2 & E & H1 & H2).
        destruct w1 as [| c1 w1'].
        -- cbn in E. subst w2. apply MAltR, IH2, H2.
        -- cbn in E. injection E as E1 E2; subst. apply MAltL, matches_cat, L. eauto.
    + rewrite matches_cat, L. split.
      * intros (w1 & w2 & -> & H1 & H2). apply (MCat r1 r2 (c :: w1) w2 H1 H2).
      * intros H. apply matches_cat_inv in H as (w1 & w2 & E & H1 & H2).
        destruct w1 as [| c1 w1'].
        -- apply nullable_matches in H1. congruence.
        -- cbn in E. injection E as E1 E2; subst. eauto.
  - rewrite matches_alt. split; intros H; inversion H; subst.
    + apply MAltL, IH1. assumption.
    + apply MAltR, IH2. assumption.
    + apply MAltL, IH1. assumption.
    + apply MAltR, IH2. assumption.
  - rewrite matches_cat. split.
    + intros H. apply matches_cat_inv in H as (w1 & w2 & -> & H1 & H2).
      apply (MStarCons r (c :: w1) w2); [apply IH, H1 | exact H2].
    + intros H. apply matches_star_cons in H as (w1 & w2 & -> & H1 & H2).
      constructor; [apply IH, H1 | exact H2].
Qed.

(** [match_prefix] answers whether a prefix of the text is a word of
    the expression, which is what [re.match] reports. *)
Lemma match_prefix_spec r s :
  match_prefix r s = true <-> exists w rest, s = w ++ rest /\ matches r w.
Proof.
  revert r. induction s as [| c s IH]; intros r; cbn [match_prefix].
  - rewrite orb_false_r, nullable_matches. split.
    + intros H. exists [], []. auto.
    + intros (w & rest & E & H). symmetry in E. apply app_eq_nil in E as [-> _]. exact H.
  - rewrite orb_true_iff, nullable_matches, IH. split.
    + intros [H | (w & rest & -> & H)].
      * exists [], (c :: s). auto.
      * exists (c :: w), rest. split; [reflexivity | apply deriv_matches, H].
    + intros (w & rest & E & H). destruct w as [| c' w'].
      * left. exact H.
      * cbn in E. injection E as E1 E2; subst. right. exists w', rest.
        split; [reflexivity | apply deriv_matches, H].
Qed.


End ReFacts.

(** ** The identity read off the [UID] cookie *)

Section IdentityFacts.
Import Cookies.

Lemma list_ascii_of_string_app (a b : string) :
  list_ascii_of_string (a +:+ b) = list_ascii_of_string a ++ list_ascii_of_string b.
Proof. induction a as [| c a IH]; simpl; [reflexivity | f_equal; exact IH]. Qed.

Lemma split_chars_cut sep (a r : list ascii) :
  forallb (fun c => negb (Ascii.eqb c sep)) a = true ->
  split_chars sep (a ++ sep :: r) = a :: split_chars sep r.
Proof.
  induction a as [| c a IH]; cbn [forallb app split_chars]; intros H.
  - rewrite Ascii.eqb_refl. reflexivity.
  - apply andb_true_iff in H as [Hc Ha]. apply negb_true_iff in Hc.
    rewrite Hc, (IH Ha). reflexivity.
Qed.

Lemma split_chars_nonempty sep l : split_chars sep l <> [].
Proof.
  induction l as [| c l IH]; cbn [split_chars]; [discriminate |].
  destruct (Ascii.eqb c sep); [discriminate |].
  destruct (split_chars sep l); [congruence | discriminate].
Qed.

(** A cookie value [first_second_...], cut at its underscores. *)
Lemma split_uid (first second rest : string) :
  no_underscore first = true -> no_underscore second = true ->
  exists more,
    split "_" (first +:+ "_" +:+ second +:+ "_" +:+ rest) = first :: second :: more.
Proof.
  unfold no_underscore, split. intros H1 H2.
  rewrite !list_ascii_of_string_app.
  change (list_ascii_of_string "_") with ["_"%char]. cbn [app].
  rewrite (split_chars_cut _ _ _ H1), (split_chars_cut _ _ _ H2).
  cbn [map]. rewrite !string_of_list_ascii_of_string. eauto.
Qed.

(** X1: read on a client that has no cached [user_id]: without a [UID]
    cookie [user_id] is 0 and [login_ssoent] is [None]; with a [UID]
    cookie of the form [first_second_rest], [user_id] is [int(first)]
    and [login_ssoent] is [second]. *)
Theorem identity_of_fresh_client (c : client) :
  cached_user_id c = None ->
  (cookies_get "UID" (jar c) = Return None ->
     fst (user_id c) = Return 0 /\ fst (login_ssoent c) = Return None) /\
  (forall first second rest z,
     no_underscore first = true -> no_underscore second = true ->
     parse_int first = Some z ->
     cookies_get "UID" (jar c) = Return (Some (first +:+ "_" +:+ second +:+ "_" +:+ rest)) ->
     fst (user_id c) = Return z /\ fst (login_ssoent c) = Return (Some second)).
Proof.
  intros Hfresh.
  unfold user_id, login_ssoent, compute_user_id, mbind, method_bind, m_bind, m_get, m_lift,
    mret, method_ret, m_ret, m_modify, outcome_bind.
  rewrite Hfresh. split.
  - intros ->. split; reflexivity.
  - intros first second rest z H1 H2 Hz ->. cbn [obind].
    destruct (split_uid first second rest H1 H2) as [more ->].
    assert (T : truthy (VStr (first +:+ "_" +:+ second +:+ "_" +:+ rest)) = true)
      by (destruct first; reflexivity).
    rewrite T. cbn [py_int]. rewrite Hz. split; reflexivity.
Qed.

End IdentityFacts.

Lemma identity_of_fresh_client_witness :
  fst (Cookies.user_id signed_in) = Return 123 /\
  fst (Cookies.login_ssoent signed_in) = Return (Some "A1").
Proof.
  destruct (identity_of_fresh_client signed_in eq_refl) as [_ H].
  apply (H "123" "A1" "1730000000" 123); reflexivity.
Defined.

(** ** Endpoint addresses *)

Section UrlsFacts.
Import Urls Re Request.

Lemma append_assoc (a b c : string) : (a +:+ b) +:+ c = a +:+ (b +:+ c).
Proof.
  induction a as [| x a IH]; [reflexivity |].
  change (String x ((a +:+ b) +:+ c) = String x (a +:+ (b +:+ c))). rewrite IH. reflexivity.
Qed.

Lemma matches_lit l : matches (lit l) l.
Proof.
  induction l as [| c l IH]; cbn [lit]; [constructor |].
  apply (MCat _ _ [c] l); [constructor; apply Ascii.eqb_refl | exact IH].
Qed.

(** A non-empty label without a dot, closed by a dot. *)
Lemma matches_label (l : list ascii) :
  l <> [] -> forallb (fun c => negb (Ascii.eqb c ".")) l = true ->
  matches (Cat (plus not_a_dot) (literal ".")) (l ++ ["."%char]).
Proof.
  intros Hne Hl. constructor; [| apply (matches_lit ["."%char])].
  destruct l as [| c l]; [congruence |]. clear Hne.
  cbn [forallb] in Hl. apply andb_true_iff in Hl as [Hc Hl].
  apply (MCat _ _ [c] l); [constructor; exact Hc |].
  induction l as [| d l IH]; [constructor |].
  cbn [forallb] in Hl. apply andb_true_iff in Hl as [Hd Hl].
  apply (MStarCons _ [d] l); [constructor; exact Hd | exact (IH Hl)].
Qed.

Lemma matches_115_com : matches (Cat (literal "115") (Cat dot (literal "com"))) (list_ascii_of_string "115.com").
Proof.
  apply (MCat _ _ (list_ascii_of_string "115") (list_ascii_of_string ".com")); [apply matches_lit |].
  apply (MCat _ _ ["."%char] (list_ascii_of_string "com")); [constructor; reflexivity | apply matches_lit].
Qed.

(** The host part [https://{base}.115.com] (or [https://115.com]) is a
    word of the pattern of line 71. *)
Lemma host_matches (base : string) :
  no_dot base = true ->
  matches CRE_115_DOMAIN
    (list_ascii_of_string ("https://" +:+ (if truthy (VStr base) then base +:+ "." else base) +:+ "115.com")).
Proof.
  intros Hb. unfold CRE_115_DOMAIN.
  rewrite !list_ascii_of_string_app.
  change (list_ascii_of_string "https://")
    with (list_ascii_of_string "http" ++ ["s"%char] ++ list_ascii_of_string "://").
  rewrite <- !app_assoc.
  constructor; [apply matches_lit |].
  constructor; [apply MAltL, (matches_lit ["s"%char]) |].
  constructor; [apply matches_lit |].
  constructor; [| apply matches_115_com].
  destruct base as [| c base'].
  - cbn. constructor.
  - cbn [truthy String.eqb negb]. rewrite list_ascii_of_string_app.
    rewrite <- (app_nil_r (_ ++ _)).
    constructor; [| constructor].
    apply matches_label; [discriminate | exact Hb].
Qed.

(** X3: every address [complete_api] builds on the 115 host (a falsy
    [base_url], a [base] without a dot) is recognised by
    [CRE_115_DOMAIN_match], whatever the path and whatever query string
    is appended; a request to it through the default transport with no
    headers of the caller's therefore goes out without any header block
    from [request], so without a [Cookie] header of its own. *)
Theorem complete_api_on_115_domain (path base query : string) (base_url : bool_or_str)
    (self_headers : gmap string string) (cookies_str : string) :
  truthy_arg base_url = false ->
  no_dot base = true ->
  CRE_115_DOMAIN_match (complete_api path base base_url +:+ query) = true /\
  request_headers self_headers cookies_str false (complete_api path base base_url +:+ query) false None
    = None.
Proof.
  intros Hu Hb.
  assert (M : CRE_115_DOMAIN_match (complete_api path base base_url +:+ query) = true).
  { unfold CRE_115_DOMAIN_match. apply match_prefix_spec.
    unfold complete_api. rewrite Hu.
    exists (list_ascii_of_string ("https://" +:+ (if truthy (VStr base) then base +:+ "." else base) +:+ "115.com")),
      (list_ascii_of_string (rooted path +:+ query)).
    split; [| apply host_matches, Hb].
    rewrite <- list_ascii_of_string_app. f_equal.
    rewrite !append_assoc. reflexivity. }
  split; [exact M |].
  unfold request_headers, prepare_headers, need_cookie_header. rewrite M. reflexivity.
Qed.
End UrlsFacts.

Lemma complete_api_on_115_domain_witness :
  Request.CRE_115_DOMAIN_match (Urls.complete_api "files" "webapi" (Urls.BBool false) +:+ "?cid=0") = true.
Proof.
  apply (complete_api_on_115_domain "files" "webapi" "?cid=0" (Urls.BBool false) ∅ ""); reflexivity.
Defined.

Section Ed2kFacts.
Import Urls.

Lemma translate_no_bar name : no_bar (translate name) = true.
Proof.
  unfold no_bar. induction name as [| c name IH]; [reflexivity |].
  cbn [translate]. destruct (Ascii.eqb c "/") eqn:E1; [exact IH |].
  destruct (Ascii.eqb c "|") eqn:E2; [exact IH |].
  cbn [list_ascii_of_string forallb]. rewrite E2. exact IH.
Qed.

Lemma translate_no_slash name :
  forallb (fun c => negb (Ascii.eqb c "/")) (list_ascii_of_string (translate name)) = true.
Proof.
  induction name as [| c name IH]; [reflexivity |].
  cbn [translate]. destruct (Ascii.eqb c "/") eqn:E1; [exact IH |].
  destruct (Ascii.eqb c "|") eqn:E2; [exact IH |].
  cbn [list_ascii_of_string forallb]. rewrite E1. exact IH.
Qed.

(** X4: the link [make_ed2k_url] builds, cut at its vertical bars, has
    exactly the six fields [ed2k://], [file], the escaped name, the
    size, the hash and [/], provided the size and the hash hold no
    vertical bar themselves; the escaped name never holds a bar or a
    slash, whatever the name. *)
Theorem make_ed2k_url_fields (name : string) (size : ident) (hash : string) :
  no_bar (format size) = true ->
  no_bar hash = true ->
  split "|" (make_ed2k_url name size hash)
    = ["ed2k://"; "file"; translate name; format size; hash; "/"] /\
  forallb (fun c => negb (Ascii.eqb c "/") && negb (Ascii.eqb c "|"))
    (list_ascii_of_string (translate name)) = true.
Proof.
  intros Hs Hh. split.
  - unfold split, no_bar in *.
    assert (E : list_ascii_of_string (make_ed2k_url name size hash)
                = list_ascii_of_string "ed2k://" ++ "|"%char ::
                  (list_ascii_of_string "file" ++ "|"%char ::
                  (list_ascii_of_string (translate name) ++ "|"%char ::
                  (list_ascii_of_string (format size) ++ "|"%char ::
                  (list_ascii_of_string hash ++ "|"%char :: ["/"%char]))))).
    { unfold make_ed2k_url. rewrite !list_ascii_of_string_app. reflexivity. }
    rewrite E.
    rewrite (split_chars_cut "|" (list_ascii_of_string "ed2k://")) by reflexivity.
    rewrite (split_chars_cut "|" (list_ascii_of_string "file")) by reflexivity.
    rewrite (split_chars_cut "|" _ _ (translate_no_bar name)).
    rewrite (split_chars_cut "|" _ _ Hs).
    rewrite (split_chars_cut "|" _ _ Hh).
    cbn [map split_chars Ascii.eqb]. rewrite !string_of_list_ascii_of_string. reflexivity.
  - pose proof (translate_no_bar name) as H1. pose proof (translate_no_slash name) as H2.
    unfold no_bar in H1. rewrite forallb_forall in *. intros c Hc.
    rewrite (H1 c Hc), (H2 c Hc). reflexivity.
Qed.

End Ed2kFacts.

Lemma make_ed2k_url_fields_witness :
  split "|" (Urls.make_ed2k_url "a/b|c.mkv" (Urls.IdInt 1024) "0123456789ABCDEF0123456789ABCDEF")
    = ["ed2k://"; "file"; "a%2Fb%7Cc.mkv"; "1024"; "0123456789ABCDEF0123456789ABCDEF"; "/"].
Proof.
  apply (make_ed2k_url_fields "a/b|c.mkv" (Urls.IdInt 1024) "0123456789ABCDEF0123456789ABCDEF");
    reflexivity.
Defined.

(** ** Catalog operations *)

Section CatalogFacts.
Import Urls Catalog.

Lemma str_of_int_inj a b : str_of_int a = str_of_int b -> a = b.
Proof.
  unfold str_of_int. intros H. apply DecimalZ.to_int_inj.
  assert (N : forall z, NilZero.int_of_string (NilZero.string_of_int (Z.to_int z)) = Some (Z.to_int z)).
  { intros z. apply NilZero.isi; destruct z; cbn; try discriminate;
      intros E; injection E as E; exact (Unsigned.to_uint_nonnil _ E). }
  pose proof (N a) as Ha. rewrite H, N in Ha. congruence.
Qed.

Lemma append_cancel_l (p a b : string) : p +:+ a = p +:+ b -> a = b.
Proof. apply String.app_inj. Qed.

Lemma append_cancel_r (a b : string) (c : ascii) :
  a +:+ String c "" = b +:+ String c "" -> a = b.
Proof.
  revert b. induction a as [| x a IH]; intros [| y b] H.
  - reflexivity.
  - change (String c "" = String y (b +:+ String c "")) in H. injection H as _ H.
    destruct b; discriminate.
  - change (String x (a +:+ String c "") = String c "") in H. injection H as _ H.
    destruct a; discriminate.
  - change (String x (a +:+ String c "") = String y (b +:+ String c "")) in H.
    injection H as -> H. f_equal. apply IH, H.
Qed.

Lemma indexed_key_inj prefix i j : indexed_key prefix i = indexed_key prefix j -> i = j.
Proof.
  unfold indexed_key. intros H.
  apply append_cancel_l in H. apply (append_cancel_l "[") in H.
  apply append_cancel_r in H. apply str_of_int_inj in H. lia.
Qed.

(** Keys outside the range written keep their value. *)
Lemma enumerated_frame prefix ids i d k :
  (forall j, (i <= j)%nat -> k <> indexed_key prefix j) ->
  enumerated prefix i ids d !! k = d !! k.
Proof.
  revert i d. induction ids as [| x ids IH]; intros i d Hk; cbn [enumerated]; [reflexivity |].
  rewrite IH by (intros j Hj; apply Hk; lia).
  apply lookup_insert_ne. intros E. exact (Hk i (le_n i) (eq_sym E)).
Qed.

Lemma enumerated_lookup prefix ids i d j x :
  ids !! j = Some x ->
  enumerated prefix i ids d !! indexed_key prefix (i + j) = Some (value_of x).
Proof.
  revert i d j. induction ids as [| y ids IH]; intros i d j Hj; [discriminate |].
  cbn [enumerated]. destruct j as [| j].
  - injection Hj as ->. rewrite Nat.add_0_r.
    rewrite enumerated_frame.
    + apply lookup_insert_eq.
    + intros j Hj E. apply indexed_key_inj in E. lia.
  - replace (i + S j)%nat with (S i + j)%nat by lia. apply IH. exact Hj.
Qed.

Lemma enumerated_size prefix ids i d :
  (forall j, (i <= j)%nat -> d !! indexed_key prefix j = None) ->
  size (enumerated prefix i ids d) = (size d + length ids)%nat.
Proof.
  revert i d. induction ids as [| x ids IH]; intros i d Hd; cbn [enumerated length]; [lia |].
  rewrite IH.
  - rewrite map_size_insert_None by (apply Hd; lia). lia.
  - intros j Hj. rewrite lookup_insert_ne; [apply Hd; lia |].
    intros E. apply indexed_key_inj in E. lia.
Qed.

(** Every entry is one of the former entries or an indexed one. *)
Lemma enumerated_keys prefix ids i d k v :
  enumerated prefix i ids d !! k = Some v ->
  d !! k = Some v \/ exists j, k = indexed_key prefix j.
Proof.
  revert i d. induction ids as [| x ids IH]; intros i d H; cbn [enumerated] in H; [left; exact H |].
  apply IH in H as [H | H]; [| right; exact H].
  destruct (decide (indexed_key prefix i = k)) as [<- | Hne].
  - right. eauto.
  - rewrite lookup_insert_ne in H by exact Hne. left. exact H.
Qed.

Lemma truthy_dict_nonempty (d : gmap string pyval) k v : d !! k = Some v -> truthy (VDict d) = true.
Proof.
  intros H. cbn [truthy]. destruct (map_to_list d) eqn:E; [| reflexivity].
  apply map_to_list_empty_iff in E. subst d. rewrite lookup_empty in H. discriminate.
Qed.

Lemma enumerated_truthy prefix x ids : truthy (VDict (enumerated prefix 0 (x :: ids) ∅)) = true.
Proof.
  apply (truthy_dict_nonempty _ (indexed_key prefix 0) (value_of x)).
  apply (enumerated_lookup prefix (x :: ids) 0 ∅ 0 x). reflexivity.
Qed.

Lemma pid_is_not_fid j : "pid" <> indexed_key "fid" j.
Proof. unfold indexed_key. intros E. discriminate E. Qed.

(** X5: [fs_move], [fs_copy] and [fs_delete], given a non-empty
    iterable of identifiers, make exactly one POST to their endpoint;
    its form data holds the i-th identifier under [fid[i]] for every
    index, for [fs_move] and [fs_copy] the target directory under
    [pid], and nothing else. *)
Theorem catalog_ids_payload (ids : list ident) (pid : Z) (base_url : bool_or_str) (async_ : bool)
    (env : list event -> event -> outcome pyval) (tr : list event) :
  ids <> [] ->
  (exists d,
     fs_move (Many ids) pid base_url async_ env tr
       = (let ev := Post (complete_webapi "/files/move" base_url None) d async_ in (env tr ev, tr ++ [ev])) /\
     fs_copy (Many ids) pid base_url async_ env tr
       = (let ev := Post (complete_webapi "/files/copy" base_url None) d async_ in (env tr ev, tr ++ [ev])) /\
     (forall i x, ids !! i = Some x -> d !! indexed_key "fid" i = Some (value_of x)) /\
     d !! "pid" = Some (VInt pid) /\
     size d = S (length ids)) /\
  (exists d,
     fs_delete (Many ids) base_url async_ env tr
       = (let ev := Post (complete_webapi "/rb/delete" base_url None) d async_ in (env tr ev, tr ++ [ev])) /\
     (forall i x, ids !! i = Some x -> d !! indexed_key "fid" i = Some (value_of x)) /\
     size d = length ids).
Proof.
  intros Hne. destruct ids as [| x ids]; [congruence |]. clear Hne.
  pose proof (enumerated_truthy "fid" x ids) as T.
  assert (P : enumerated "fid" 0 (x :: ids) ∅ !! "pid" = None).
  { rewrite enumerated_frame; [apply lookup_empty |].
    intros j _. apply pid_is_not_fid. }
  assert (S0 : size (enumerated "fid" 0 (x :: ids) ∅) = length (x :: ids)).
  { rewrite enumerated_size; [rewrite map_size_empty; lia |]. intros; apply lookup_empty. }
  split.
  - exists (<["pid" := VInt pid]> (enumerated "fid" 0 (x :: ids) ∅)).
    unfold fs_move, fs_copy, transfer, setdefault. rewrite T, P. cbn [negb].
    repeat split.
    + intros i y Hi. rewrite lookup_insert_ne.
      * apply (enumerated_lookup "fid" (x :: ids) 0 ∅ i y Hi).
      * apply pid_is_not_fid.
    + apply lookup_insert_eq.
    + rewrite map_size_insert_None by exact P. rewrite S0. reflexivity.
  - exists (enumerated "fid" 0 (x :: ids) ∅).
    unfold fs_delete. rewrite T. cbn [negb].
    repeat split.
    + intros i y Hi. apply (enumerated_lookup "fid" (x :: ids) 0 ∅ i y Hi).
    + exact S0.
Qed.

Lemma f_is_not_fid i j : indexed_key "f" i <> indexed_key "fid" j.
Proof. unfold indexed_key. intros E. discriminate E. Qed.

Lemma hidden_is_not_indexed prefix j :
  prefix = "f" \/ prefix = "fid" -> "hidden" <> indexed_key prefix j.
Proof. unfold indexed_key. intros [-> | ->] E; discriminate E. Qed.

(** X6: [fs_hide] names the entries of an iterable [f[0]], [f[1]], ...
    while it files a single identifier under [fid[0]]: for a non-empty
    iterable the one POST carries the i-th identifier under [f[i]],
    [hidden] set to 1, nothing else, and so no [fid[...]] entry at
    all. *)
Theorem fs_hide_iterable_keys (ids : list ident) (base_url : bool_or_str) (async_ : bool)
    (env : list event -> event -> outcome pyval) (tr : list event) :
  ids <> [] ->
  exists d,
    fs_hide (Many ids) base_url async_ env tr
      = (let ev := Post (complete_webapi "/files/hiddenfiles" base_url None) d async_ in
         (env tr ev, tr ++ [ev])) /\
    (forall i x, ids !! i = Some x -> d !! indexed_key "f" i = Some (value_of x)) /\
    d !! "hidden" = Some (VInt 1) /\
    size d = S (length ids) /\
    (forall j, d !! indexed_key "fid" j = None).
Proof.
  intros Hne. destruct ids as [| x ids]; [congruence |]. clear Hne.
  pose proof (enumerated_truthy "f" x ids) as T.
  assert (P : enumerated "f" 0 (x :: ids) ∅ !! "hidden" = None).
  { rewrite enumerated_frame; [apply lookup_empty |].
    intros j _. apply hidden_is_not_indexed. left. reflexivity. }
  exists (<["hidden" := VInt 1]> (enumerated "f" 0 (x :: ids) ∅)).
  unfold fs_hide. rewrite T. cbn [negb]. repeat split.
  - intros i y Hi. rewrite lookup_insert_ne.
    + apply (enumerated_lookup "f" (x :: ids) 0 ∅ i y Hi).
    + apply hidden_is_not_indexed. left. reflexivity.
  - apply lookup_insert_eq.
  - rewrite map_size_insert_None by exact P.
    rewrite enumerated_size; [rewrite map_size_empty; reflexivity |]. intros; apply lookup_empty.
  - intros j. rewrite lookup_insert_ne by (apply hidden_is_not_indexed; right; reflexivity).
    rewrite enumerated_frame; [apply lookup_empty |].
    intros i _ E. exact (f_is_not_fid i j (eq_sym E)).
Qed.

Lemma name_key_inj a b : name_key a = name_key b -> format a = format b.
Proof.
  unfold name_key. intros H. apply append_cancel_l in H. apply append_cancel_r in H. exact H.
Qed.

Lemma last_name_found key pairs found :
  last_name key pairs found
    = match last_name key pairs None with Some n => Some n | None => found end.
Proof.
  revert found. induction pairs as [| [id name] pairs IH]; intros found; cbn [last_name]; [reflexivity |].
  rewrite IH. rewrite (IH (if String.eqb (format id) key then Some name else None)).
  destruct (last_name key pairs None); [reflexivity |].
  destruct (String.eqb (format id) key); reflexivity.
Qed.

Lemma renamed_lookup pairs d id :
  renamed pairs d !! name_key id
    = match last_name (format id) pairs None with
      | Some n => Some (VStr n)
      | None => d !! name_key id
      end.
Proof.
  revert d. induction pairs as [| [id' name] pairs IH]; intros d; cbn [renamed last_name]; [reflexivity |].
  rewrite IH.
  rewrite (last_name_found (format id) pairs (if String.eqb (format id') (format id) then Some name else None)).
  destruct (last_name (format id) pairs None); [reflexivity |].
  destruct (String.eqb (format id') (format id)) eqn:E.
  - apply String.eqb_eq in E. unfold name_key. rewrite E. rewrite lookup_insert_eq. reflexivity.
  - apply String.eqb_neq in E. rewrite lookup_insert_ne; [reflexivity |].
    intros H. apply E, name_key_inj, H.
Qed.

(** X7: [fs_rename], given a non-empty iterable of pairs, makes one POST
    whose form data gives, for every identifier, the name of the last
    pair that carries this identifier (as text, so the number 12 and
    the text 12 are the same identifier), and no entry for an
    identifier that no pair carries. *)
Theorem fs_rename_last_pair_wins (pairs : list (ident * string)) (base_url : bool_or_str)
    (async_ : bool) (env : list event -> event -> outcome pyval) (tr : list event) :
  pairs <> [] ->
  exists d,
    fs_rename (Pairs pairs) base_url async_ env tr
      = (let ev := Post (complete_webapi "/files/batch_rename" base_url None) d async_ in
         (env tr ev, tr ++ [ev])) /\
    forall id, d !! name_key id = VStr <$> last_name (format id) pairs None.
Proof.
  intros Hne. exists (renamed pairs ∅).
  assert (L : forall id, renamed pairs ∅ !! name_key id = VStr <$> last_name (format id) pairs None).
  { intros id. rewrite renamed_lookup, lookup_empty.
    destruct (last_name (format id) pairs None); reflexivity. }
  split; [| exact L].
  unfold fs_rename.
  assert (T : truthy (VDict (renamed pairs ∅)) = true).
  { destruct pairs as [| [id name] pairs']; [congruence |].
    destruct (last_name (format id) ((id, name) :: pairs') None) eqn:E.
    - apply (truthy_dict_nonempty _ (name_key id) (VStr s)). rewrite L, E. reflexivity.
    - cbn [last_name] in E. rewrite String.eqb_refl, last_name_found in E.
      destruct (last_name (format id) pairs' None); discriminate. }
  rewrite T. reflexivity.
Qed.

(** X8: an empty payload makes no request.  [fs_delete] answers an
    empty dictionary or an empty iterable, and [fs_move] and [fs_copy]
    an empty iterable, with the [no op] dictionary itself, also when
    [async_] is set, so that the answer cannot be awaited; [fs_move]
    and [fs_copy] given an empty dictionary do make their request, with
    [pid] as the only entry. *)
Theorem catalog_empty_payload (pid : Z) (base_url : bool_or_str) (async_ : bool)
    (env : list event -> event -> outcome pyval) (tr : list event) :
  (forall p, p = Mapping ∅ \/ p = Many [] ->
     fs_delete p base_url async_ env tr = (Return no_op, tr)) /\
  fs_move (Many []) pid base_url async_ env tr = (Return no_op, tr) /\
  fs_copy (Many []) pid base_url async_ env tr = (Return no_op, tr) /\
  CheckResponse.await no_op = Raise (Exn TypeError None VNone) /\
  snd (fs_move (Mapping ∅) pid base_url async_ env tr)
    = tr ++ [Post (complete_webapi "/files/move" base_url None) (<["pid" := VInt pid]> ∅) async_] /\
  snd (fs_copy (Mapping ∅) pid base_url async_ env tr)
    = tr ++ [Post (complete_webapi "/files/copy" base_url None) (<["pid" := VInt pid]> ∅) async_].
Proof.
  repeat split.
  intros p [-> | ->]; reflexivity.
Qed.

End CatalogFacts.

Lemma catalog_ids_payload_witness :
  exists d,
    snd (Catalog.fs_delete (Catalog.Many [Urls.IdInt 7; Urls.IdStr "8"]) (Urls.BBool false) false
           (fun _ _ => Return VNone) [])
      = [Catalog.Post "https://webapi.115.com/rb/delete" d false] /\
    d !! "fid[0]" = Some (VInt 7) /\ d !! "fid[1]" = Some (VStr "8") /\ size d = 2%nat.
Proof.
  destruct (catalog_ids_payload [Urls.IdInt 7; Urls.IdStr "8"] 0 (Urls.BBool false) false
              (fun _ _ => Return VNone) []) as [_ (d & E & L & S)]; [discriminate |].
  exists d. rewrite E. repeat split.
  - apply (L 0%nat (Urls.IdInt 7)). reflexivity.
  - apply (L 1%nat (Urls.IdStr "8")). reflexivity.
  - exact S.
Defined.

Lemma fs_hide_iterable_keys_witness :
  exists d,
    snd (Catalog.fs_hide (Catalog.Many [Urls.IdInt 7]) (Urls.BBool false) false
           (fun _ _ => Return VNone) [])
      = [Catalog.Post "https://webapi.115.com/files/hiddenfiles" d false] /\
    d !! "f[0]" = Some (VInt 7) /\ d !! "fid[0]" = None.
Proof.
  destruct (fs_hide_iterable_keys [Urls.IdInt 7] (Urls.BBool false) false
              (fun _ _ => Return VNone) []) as (d & E & L & _ & _ & N); [discriminate |].
  exists d. rewrite E. repeat split.
  - apply (L 0%nat (Urls.IdInt 7)). reflexivity.
  - apply (N 0%nat).
Defined.

Lemma fs_rename_last_pair_wins_witness :
  exists d,
    snd (Catalog.fs_rename (Catalog.Pairs [(Urls.IdInt 12, "a.txt"); (Urls.IdStr "12", "b.txt")])
           (Urls.BBool false) false (fun _ _ => Return VNone) [])
      = [Catalog.Post "https://webapi.115.com/files/batch_rename" d false] /\
    d !! "files_new_name[12]" = Some (VStr "b.txt").
Proof.
  destruct (fs_rename_last_pair_wins [(Urls.IdInt 12, "a.txt"); (Urls.IdStr "12", "b.txt")]
              (Urls.BBool false) false (fun _ _ => Return VNone) []) as (d & E & L); [discriminate |].
  exists d. rewrite E. split; [reflexivity |].
  apply (L (Urls.IdInt 12)).
Defined.

(** ** Block reads *)

Section ReadBlockFacts.
Import ReadBytes ReadBlock.

Variable url : link.
Variable headers : option (gmap string string).
Variable kw : keywords.
Variable env : list event -> event -> outcome pyval.

(** The probe and the data request of [read_bytes]. *)
Let probe : event :=
  Request (link_text url) (range_headers url "-1" headers)
    (match kw_method kw with Some m => m | None => "GET" end) ParseTotalLength.

Let fetch (r : string) : event :=
  Request (link_text url) (range_headers url r headers)
    (match kw_method kw with Some m => m | None => "GET" end)
    (match kw_parse kw with Some p => ParseGiven p | None => ParseFalse end).

Lemma read_bytes_direct (start : Z) (stop : option Z) (tr : list event) :
  0 <= start ->
  (forall s, stop = Some s -> 0 <= s) ->
  read_bytes url start stop headers kw env tr
    = match closed_range start stop with
      | Some r => (env tr (fetch r), tr ++ [fetch r])
      | None => (Return (VBytes []), tr)
      end.
Proof.
  intros Hs Hstop. unfold read_bytes, get_bytes_range.
  assert (C : (start <? 0) || match stop with
                              | Some s => negb (s =? 0) && (s <? 0)
                              | None => false
                              end = false).
  { apply orb_false_iff. split; [apply Z.ltb_ge; exact Hs |].
    destruct stop as [s |]; [| reflexivity].
    apply andb_false_iff. right. apply Z.ltb_ge. apply Hstop. reflexivity. }
  rewrite C. unfold mbind, steps_bind, s_bind, mret, steps_ret, s_ret.
  destruct (closed_range start stop) as [r |] eqn:Hr; [| reflexivity].
  rewrite (closed_range_not_empty _ _ _ Hr). reflexivity.
Qed.

(** X9: with offsets that are not negative [read_bytes] never probes
    for the length: an empty or inverted range ([stop <= start]) gives
    [b""] without any request, any other range exactly one request
    whose [Range] header is [bytes={start}-{stop-1}], or
    [bytes={start}-] when there is no [stop]; the answer to that
    request is the result. *)
Theorem read_bytes_plain_offsets (start : Z) (stop : option Z) :
  0 <= start ->
  (forall s, stop = Some s -> 0 <= s) ->
  match stop with
  | Some s =>
      if start >=? s then
        read_bytes url start stop headers kw env [] = (Return (VBytes []), [])
      else
        let r := str_of_int start +:+ "-" +:+ str_of_int (s - 1) in
        read_bytes url start stop headers kw env [] = (env [] (fetch r), [fetch r]) /\
        req_headers (fetch r) !! "Range" = Some ("bytes=" +:+ r)
  | None =>
      let r := str_of_int start +:+ "-" in
      read_bytes url start stop headers kw env [] = (env [] (fetch r), [fetch r]) /\
      req_headers (fetch r) !! "Range" = Some ("bytes=" +:+ r)
  end.
Proof.
  intros Hs Hstop. rewrite (read_bytes_direct start stop [] Hs Hstop).
  destruct stop as [s |]; cbn [closed_range].
  - destruct (start >=? s); [reflexivity |].
    split; [reflexivity | apply range_headers_range].
  - split; [reflexivity | apply range_headers_range].
Qed.

(** X10: [read_block] asks for nothing when [size] is 0; with an offset
    that is not negative it makes exactly one request and no probe, for
    the bytes [offset] to [offset + size - 1] when [size] is positive
    and from [offset] to the end when [size] is negative. *)
Theorem read_block_in_bounds (size offset : Z) :
  0 <= offset ->
  (size = 0 -> read_block url size offset headers kw env [] = (Return (VBytes []), [])) /\
  (0 < size ->
     let r := str_of_int offset +:+ "-" +:+ str_of_int (offset + size - 1) in
     read_block url size offset headers kw env [] = (env [] (fetch r), [fetch r]) /\
     req_headers (fetch r) !! "Range" = Some ("bytes=" +:+ r)) /\
  (size < 0 ->
     let r := str_of_int offset +:+ "-" in
     read_block url size offset headers kw env [] = (env [] (fetch r), [fetch r]) /\
     req_headers (fetch r) !! "Range" = Some ("bytes=" +:+ r)).
Proof.
  intros Ho. unfold read_block. repeat split.
  - intros ->. reflexivity.
  - destruct (Z.eqb_spec size 0) as [-> | _]; [lia |].
    destruct (Z.gtb_spec size 0) as [_ | ?]; [| lia].
    rewrite read_bytes_direct; [| exact Ho | intros s [= <-]; lia].
    cbn [closed_range].
    destruct (Z.geb_spec offset (offset + size)) as [? | _]; [lia |].
    reflexivity.
  - apply range_headers_range.
  - destruct (Z.eqb_spec size 0) as [-> | _]; [lia |].
    destruct (Z.gtb_spec size 0) as [? | _]; [lia |].
    rewrite read_bytes_direct; [reflexivity | exact Ho | discriminate].
  - apply range_headers_range.
Qed.

(** X11: a negative [offset] together with a positive [size] that reaches
    the end of the content ([offset + size >= 0]) is not read as the
    tail of the content: [read_block] hands [offset + size] to
    [read_bytes] as an absolute [stop], and for a content of at least
    [size] bytes the resolved start is not below it, so the probe is the
    only request and the result is [b""].  In particular the last [k]
    bytes cannot be had with [size=k, offset=-k]. *)
Theorem read_block_tail_is_empty (size offset total : Z) :
  offset < 0 ->
  0 < size ->
  0 <= offset + size ->
  size <= total ->
  env [] probe = Return (VInt total) ->
  read_block url size offset headers kw env [] = (Return (VBytes []), [probe]).
Proof.
  intros Ho Hs Hsum Ht Hp. unfold read_block.
  destruct (Z.eqb_spec size 0) as [-> | _]; [lia |].
  destruct (Z.gtb_spec size 0) as [_ | ?]; [| lia].
  unfold read_bytes, get_bytes_range.
  destruct (Z.ltb_spec offset 0) as [_ | ?]; [| lia].
  cbn [orb].
  unfold mbind, steps_bind, s_bind, mret, steps_ret, s_ret, lift.
  assert (P : read_bytes_range url "-1" headers kw true env [] = (Return (VInt total), [probe])).
  { unfold read_bytes_range, perform. cbn [app]. fold probe. rewrite Hp. reflexivity. }
  rewrite P. cbn [add_int].
  destruct (Z.ltb_spec (offset + total) 0) as [? | _]; [lia |].
  destruct (Z.ltb_spec (offset + size) 0) as [? | _]; [lia |].
  cbn [closed_range].
  destruct (Z.geb_spec (offset + total) (offset + size)) as [_ | ?]; [| lia].
  reflexivity.
Qed.

End ReadBlockFacts.

Lemma read_bytes_plain_offsets_witness :
  map (fun e => ReadBytes.req_headers e !! "Range")
      (snd (ReadBytes.read_bytes plain_link 10 (Some 20) None no_keywords (content_of_length 4096) []))
    = [Some "bytes=10-19"] /\
  ReadBytes.read_bytes plain_link 20 (Some 20) None no_keywords (content_of_length 4096) []
    = (Return (VBytes []), []).
Proof.
  split.
  - destruct (read_bytes_plain_offsets plain_link None no_keywords (content_of_length 4096) 10 (Some 20))
      as [E _]; [lia | intros s [= <-]; lia |].
    rewrite E. reflexivity.
  - apply (read_bytes_plain_offsets plain_link None no_keywords (content_of_length 4096) 20 (Some 20));
      [lia | intros s [= <-]; lia].
Defined.

Lemma read_block_in_bounds_witness :
  map (fun e => ReadBytes.req_headers e !! "Range")
      (snd (ReadBlock.read_block plain_link 16 100 None no_keywords (content_of_length 4096) []))
    = [Some "bytes=100-115"].
Proof.
  destruct (read_block_in_bounds plain_link None no_keywords (content_of_length 4096) 16 100)
    as (_ & H & _); [lia |].
  destruct H as [E _]; [lia |]. rewrite E. reflexivity.
Defined.

Lemma read_block_tail_is_empty_witness :
  map (fun e => ReadBytes.req_headers e !! "Range")
      (snd (ReadBlock.read_block plain_link 10 (-10) None no_keywords (content_of_length 4096) []))
    = [Some "bytes=-1"] /\
  fst (ReadBlock.read_block plain_link 10 (-10) None no_keywords (content_of_length 4096) [])
    = Return (VBytes []).
Proof.
  rewrite (read_block_tail_is_empty plain_link None no_keywords (content_of_length 4096) 10 (-10) 4096);
    [split; reflexivity | lia | lia | lia | lia | reflexivity].
Defined.

(** ** The result of the upload negotiation *)

Section UploadResultFacts.
Import Upload CheckResponse.

Variable sha1_hexdigest : list Byte.byte -> string.

(** The [data] entry of lines 9272-9279. *)
Let data_block (filename : string) (filesize : Z) (filesha1 target : string) (pid : Z)
    (pickcode : pyval) : pyval :=
  VDict (<["target" := VStr target]> (<["file_name" := VStr filename]>
         (<["file_size" := VInt filesize]> (<["sha1" := VStr filesha1]>
         (<["cid" := VInt pid]> (<["pickcode" := pickcode]> ∅)))))).

Lemma with_data_result resp filename filesize filesha1 target pid v :
  with_data resp filename filesize filesha1 target pid = Return v ->
  exists d pickcode,
    resp = VDict d /\ d !! "pickcode" = Some pickcode /\
    v = VDict (<["data" := data_block filename filesize filesha1 target pid pickcode]>
               (<["state" := VBool true]> d)).
Proof.
  unfold with_data. fold (data_block filename filesize filesha1 target pid).
  destruct resp as [| | | | | | d |]; try discriminate.
  unfold store, mbind, outcome_bind, obind, subscript, dict_item.
  rewrite lookup_insert_ne by discriminate.
  destruct (d !! "pickcode") as [pc |] eqn:Hpc; [| discriminate].
  intros H. apply Return_inj in H. subst v. exists d, pc. auto.
Qed.

(** A dictionary whose [state] is [True] passes [check]. *)
Lemma check_state_true (d : gmap string pyval) :
  d !! "state" = Some (VBool true) -> check (VDict d) = Return (VDict d).
Proof. intros H. unfold check, dict_get. rewrite H. reflexivity. Qed.

(** X12: whatever the server answered, a result that [upload_file_init]
    returns is the last response with [state] set to [True] and a
    [data] entry that repeats the call ([target] is [U_1_{pid}], the
    name, the size, the SHA-1 in upper case, [pid] under [cid]) next to
    the response's [pickcode]; it therefore passes [check_response].
    Never more than three requests are made: two negotiations and one
    read of the range to sign.  A first response that carries a
    [pickcode] and whose [status] is not 7 is returned in this way after
    that one negotiation. *)
Theorem upload_file_init_result (filename : string) (filesize : Z) (filesha1 : string)
    (capable : bool) (pid : Z) (env : list event -> event -> outcome pyval) :
  let call := upload_file_init sha1_hexdigest filename filesize filesha1 capable pid in
  let target := "U_1_" +:+ str_of_int pid in
  let first := Negotiate filename filesize (upper filesha1) target (VStr "") (VStr "") in
  (forall v, fst (run call env) = Return v ->
     exists d pickcode,
       v = VDict d /\
       d !! "state" = Some (VBool true) /\
       d !! "data" = Some (data_block filename filesize (upper filesha1) target pid pickcode) /\
       check_response v = Now (Return v)) /\
  (length (snd (run call env)) <= 3)%nat /\
  (forall d status pickcode,
     (filesize >=? Z.shiftl 1 20) && negb capable = false ->
     env [] first = Return (VDict d) ->
     d !! "status" = Some status -> eq_int status 7 = false ->
     d !! "pickcode" = Some pickcode ->
     run call env
       = (Return (VDict (<["data" := data_block filename filesize (upper filesha1) target pid pickcode]>
                         (<["state" := VBool true]> d))), [first])).
Proof.
  intros call target N1. subst call. unfold upload_file_init.
  destruct ((filesize >=? Z.shiftl 1 20) && negb capable).
  { split; [discriminate |]. split; [cbn; lia |]. intros; discriminate. }
  cbn [run]. unfold gen_step. fold target. fold N1.
  unfold mbind, steps_bind, s_bind, perform, lift, mret, steps_ret, s_ret. cbn [app].
  assert (Fin : forall resp (tr : list event) v,
            fst (with_data resp filename filesize (upper filesha1) target pid, tr) = Return v ->
            exists d pickcode,
               v = VDict d /\ d !! "state" = Some (VBool true) /\
               d !! "data" = Some (data_block filename filesize (upper filesha1) target pid pickcode) /\
               check_response v = Now (Return v)).
  { intros resp tr v H. cbn [fst] in H.
    apply with_data_result in H as (d & pc & -> & Hpc & ->).
    eexists _, pc. split; [reflexivity |].
    assert (S1 : (<["data" := data_block filename filesize (upper filesha1) target pid pc]>
                    (<["state" := VBool true]> d) : gmap string pyval) !! "state" = Some (VBool true)).
    { rewrite lookup_insert_ne by discriminate. apply lookup_insert_eq. }
    split; [exact S1 |]. split; [apply lookup_insert_eq |].
    unfold check_response. cbn [is_dict]. rewrite (check_state_true _ S1). reflexivity. }
  destruct (env [] N1) as [r1 | e1] eqn:E1;
    [| split; [discriminate | split; [cbn; lia | intros; discriminate]]].
  destruct (wants_sign_check r1) as [[|] | e] eqn:W.
  - assert (Third : forall (run1 : outcome pyval * list event) d status pickcode,
              r1 = VDict d -> d !! "status" = Some status -> eq_int status 7 = false ->
              run1 = (Return (VDict (<["data" := data_block filename filesize (upper filesha1) target pid pickcode]>
                                     (<["state" := VBool true]> d))), [N1])).
    { intros run1 d status pickcode -> Hst H7. exfalso. revert W.
      unfold wants_sign_check, mbind, outcome_bind, obind, subscript, dict_item.
      rewrite Hst, H7. discriminate. }
    destruct capable; cbn [negb];
      [| split; [discriminate | split; [cbn; lia |]];
         intros d st pc _ Hr; apply Return_inj in Hr; eauto].
    destruct (subscript r1 "sign_key") as [sign_key | e];
      [| split; [discriminate | split; [cbn; lia |]];
         intros d st pc _ Hr; apply Return_inj in Hr; eauto].
    destruct (subscript r1 "sign_check") as [sign_check | e];
      [| split; [discriminate | split; [cbn; lia |]];
         intros d st pc _ Hr; apply Return_inj in Hr; eauto].
    destruct (env [N1] (ReadRange sign_check)) as [data | e];
      [| split; [discriminate | split; [cbn; lia |]];
         intros d st pc _ Hr; apply Return_inj in Hr; eauto].
    destruct (sign_val_of sha1_hexdigest data) as [sign_val | e];
      [| split; [discriminate | split; [cbn; lia |]];
         intros d st pc _ Hr; apply Return_inj in Hr; eauto].
    cbn [app].
    destruct (env _ (Negotiate filename filesize (upper filesha1) target sign_key sign_val))
      as [r2 | e];
      [| split; [discriminate | split; [cbn; lia |]];
         intros d st pc _ Hr; apply Return_inj in Hr; eauto].
    split; [apply Fin |]. split; [cbn; lia |].
    intros d st pc _ Hr. apply Return_inj in Hr. eauto.
  - split; [apply Fin |]. split; [cbn; lia |].
    intros d st pc _ Hr _ _ Hpc. apply Return_inj in Hr. subst r1.
    unfold with_data, store, mbind, outcome_bind, obind, subscript, dict_item.
    rewrite lookup_insert_ne by discriminate. rewrite Hpc. reflexivity.
  - split; [discriminate |]. split; [cbn; lia |].
    intros d st pc _ Hr Hst H7. apply Return_inj in Hr. subst r1. exfalso. revert W.
    unfold wants_sign_check, mbind, outcome_bind, obind, subscript, dict_item.
    rewrite Hst, H7. discriminate.
Qed.

End UploadResultFacts.

(** ** The cookie jar *)

Section JarFacts.
Import Cookies Jar.

Lemma aget_aset_eq {V} k (v : V) d : aget k (aset k v d) = Some v.
Proof.
  induction d as [| [k' v'] d IH]; cbn [aset aget].
  - rewrite String.eqb_refl. reflexivity.
  - destruct (String.eqb k' k) eqn:E; cbn [aget]; rewrite ?String.eqb_refl, ?E; [reflexivity | exact IH].
Qed.

Lemma aget_aset_ne {V} k k' (v : V) d : k' <> k -> aget k' (aset k v d) = aget k' d.
Proof.
  intros Hne. induction d as [| [k0 v0] d IH]; cbn [aset aget].
  - apply String.eqb_neq in Hne. rewrite String.eqb_sym, Hne. reflexivity.
  - destruct (String.eqb k0 k) eqn:E; cbn [aget].
    + apply String.eqb_eq in E. subst k0.
      apply String.eqb_neq in Hne. rewrite String.eqb_sym, Hne. reflexivity.
    + rewrite IH. reflexivity.
Qed.

Lemma aget_In {V} k (v : V) d : aget k d = Some v -> In (k, v) d.
Proof.
  induction d as [| [k' v'] d IH]; cbn [aget]; [discriminate |].
  destruct (String.eqb k' k) eqn:E.
  - apply String.eqb_eq in E. intros [= ->]. left. congruence.
  - intros H. right. apply IH, H.
Qed.

Lemma fresh_keys_aset {V} k (v : V) d : fresh_keys d = true -> fresh_keys (aset k v d) = true.
Proof.
  induction d as [| [k' v'] d IH]; cbn [aset fresh_keys aget]; [reflexivity |].
  destruct (aget k' d) eqn:G; [discriminate |]. intros F.
  destruct (String.eqb k' k) eqn:E; cbn [fresh_keys].
  - apply String.eqb_eq in E. subst k'. rewrite G. exact F.
  - apply String.eqb_neq in E. rewrite (aget_aset_ne k k' v d E), G. apply IH, F.
Qed.

Lemma forallb_aset {V} (P : string * V -> bool) k v d :
  forallb P d = true -> P (k, v) = true -> forallb P (aset k v d) = true.
Proof.
  intros Hd Hv. induction d as [| [k' v'] d IH]; cbn [aset forallb].
  - rewrite Hv. reflexivity.
  - cbn [forallb] in Hd. apply andb_true_iff in Hd as [H1 H2].
    destruct (String.eqb k' k); cbn [forallb]; [rewrite Hv, H2 | rewrite H1, (IH H2)]; reflexivity.
Qed.

(** When only the entry written can contribute, it is all there is. *)
Lemma flat_map_aset_only {V A} (G : string * V -> list A) k v d :
  fresh_keys d = true ->
  (forall k' x, In (k', x) d -> k' <> k -> G (k', x) = []) ->
  flat_map G (aset k v d) = G (k, v).
Proof.
  induction d as [| [k' v'] d IH]; cbn [aset fresh_keys flat_map]; intros F H.
  - apply app_nil_r.
  - destruct (aget k' d) eqn:Gk; [discriminate |].
    destruct (String.eqb k' k) eqn:E; cbn [flat_map].
    + apply String.eqb_eq in E. subst k'.
      assert (R : flat_map G d = []).
      { clear IH F. induction d as [| [k1 v1] d IH]; [reflexivity |]. cbn [flat_map].
        cbn [aget] in Gk. destruct (String.eqb k1 k) eqn:E1; [discriminate |].
        apply String.eqb_neq in E1.
        rewrite (H k1 v1); [| right; left; reflexivity | exact E1].
        apply IH; [exact Gk |]. intros k' x Hin. apply H. destruct Hin as [Hin | Hin].
        - left. exact Hin.
        - right. right. exact Hin. }
      rewrite R. apply app_nil_r.
    + apply String.eqb_neq in E. rewrite (H k' v'); [| left; reflexivity | exact E].
      apply IH; [exact F |]. intros k1 x Hin. apply H. right. exact Hin.
Qed.

Lemma filter_flat_map {A B} (f : B -> bool) (g : A -> list B) l :
  List.filter f (flat_map g l) = flat_map (fun x => List.filter f (g x)) l.
Proof.
  induction l as [| x l IH]; [reflexivity |]. cbn [flat_map].
  rewrite List.filter_app, IH. reflexivity.
Qed.

(** Within one domain and path a name selects the cookie filed under it. *)
Lemma filter_named domain path name c3 :
  fresh_keys c3 = true -> filed domain path c3 = true ->
  List.filter (named name) (map snd c3) = match aget name c3 with Some ck => [ck] | None => [] end.
Proof.
  unfold filed. induction c3 as [| [k ck] c3 IH]; cbn [fresh_keys forallb map List.filter aget fst snd];
    [reflexivity |].
  destruct (aget k c3) eqn:G; [discriminate |]. intros F H.
  apply andb_true_iff in H as [Hk H]. apply andb_true_iff in Hk as [_ Hk].
  apply String.eqb_eq in Hk. unfold named at 1. rewrite Hk.
  destruct (String.eqb k name) eqn:E.
  - apply String.eqb_eq in E. rewrite (IH F H), <- E, G. reflexivity.
  - apply (IH F H).
Qed.

Lemma nil_if_no_member {A} (l : list A) : (forall x, ~ In x l) -> l = [].
Proof. destruct l as [| x l]; [reflexivity |]. intros H. destruct (H x). left. reflexivity. Qed.

Lemma in_jar_cookies jar domain c2 path c3 ck :
  In (domain, c2) jar -> In (path, c3) c2 -> In ck (map snd c3) -> In ck (jar_cookies jar).
Proof.
  intros H1 H2 H3. unfold jar_cookies. apply in_flat_map. exists (domain, c2). split; [exact H1 |].
  apply in_flat_map. exists (path, c3). split; [exact H2 | exact H3].
Qed.

Lemma well_formed_domain jar domain c2 :
  well_formed jar = true -> In (domain, c2) jar ->
  fresh_keys c2 = true /\
  forall path c3, In (path, c3) c2 -> fresh_keys c3 = true /\ filed domain path c3 = true.
Proof.
  unfold well_formed. intros W Hin. apply andb_true_iff in W as [_ W].
  rewrite forallb_forall in W. specialize (W _ Hin). cbn [fst snd] in W.
  apply andb_true_iff in W as [F W]. split; [exact F |].
  intros path c3 Hp. rewrite forallb_forall in W. specialize (W _ Hp). cbn [fst snd] in W.
  apply andb_true_iff in W. exact W.
Qed.

Lemma filed_member domain path c3 ck :
  filed domain path c3 = true -> In ck (map snd c3) ->
  cookie_domain ck = domain /\ cookie_path ck = path.
Proof.
  unfold filed. intros H Hin. apply in_map_iff in Hin as ([n ck'] & E & Hin). cbn in E. subst ck'.
  rewrite forallb_forall in H. specialize (H _ Hin). cbn [fst snd] in H.
  apply andb_true_iff in H as [H _]. apply andb_true_iff in H as [H1 H2].
  apply String.eqb_eq in H1, H2. auto.
Qed.

Lemma only_at_member domain path name jar ck :
  only_at domain path name jar = true -> In ck (jar_cookies jar) -> named name ck = true ->
  cookie_domain ck = domain /\ cookie_path ck = path.
Proof.
  unfold only_at. intros H Hin Hn. rewrite forallb_forall in H. specialize (H _ Hin).
  rewrite Hn in H. cbn [negb orb] in H. apply andb_true_iff in H as [H1 H2].
  apply String.eqb_eq in H1, H2. auto.
Qed.

(** The cookies of a given name after [set_cookie]. *)
Lemma named_after_set_cookie jar c :
  well_formed jar = true ->
  only_at (cookie_domain c) (cookie_path c) (cookie_name c) jar = true ->
  List.filter (named (cookie_name c)) (jar_cookies (set_cookie c jar)) = [c].
Proof.
  intros W O. unfold jar_cookies, set_cookie.
  set (d := cookie_domain c). set (p := cookie_path c). set (n := cookie_name c).
  rewrite filter_flat_map.
  assert (Wj : fresh_keys jar = true).
  { unfold well_formed in W. apply andb_true_iff in W as [W _]. exact W. }
  set (c2 := match aget d jar with Some x => x | None => [] end).
  set (c3 := match aget p c2 with Some x => x | None => [] end).
  assert (W2 : fresh_keys c2 = true /\
               forall path c3', In (path, c3') c2 -> fresh_keys c3' = true /\ filed d path c3' = true).
  { subst c2. destruct (aget d jar) as [x |] eqn:G.
    - apply (well_formed_domain jar d x W). apply aget_In, G.
    - split; [reflexivity | intros ? ? []]. }
  destruct W2 as [F2 W2].
  assert (W3 : fresh_keys c3 = true /\ filed d p c3 = true).
  { subst c3. destruct (aget p c2) as [x |] eqn:G.
    - apply W2. apply aget_In, G.
    - split; reflexivity. }
  destruct W3 as [F3 H3].
  rewrite flat_map_aset_only; [| exact Wj |].
  - cbn [snd]. rewrite filter_flat_map.
    rewrite flat_map_aset_only; [| exact F2 |].
    + cbn [snd].
      rewrite (filter_named d p n (aset n c c3)).
      * rewrite aget_aset_eq. reflexivity.
      * apply fresh_keys_aset, F3.
      * unfold filed. apply forallb_aset; [exact H3 |]. cbn [fst snd].
        subst d p n. rewrite !String.eqb_refl. reflexivity.
    + intros p' c3' Hin Hne. cbn [snd]. apply nil_if_no_member. intros ck Hck.
      apply List.filter_In in Hck as [Hck Hn].
      destruct (W2 p' c3' Hin) as [_ Hf].
      destruct (filed_member d p' c3' ck Hf Hck) as [_ Hp].
      assert (Hd : In (d, c2) jar).
      { subst c2. destruct (aget d jar) as [x |] eqn:G; [apply aget_In, G | destruct Hin]. }
      destruct (only_at_member d p n jar ck O (in_jar_cookies jar d c2 p' c3' ck Hd Hin Hck) Hn)
        as [_ Hp'].
      congruence.
  - intros d' c2' Hin Hne. cbn [snd]. apply nil_if_no_member. intros ck Hck.
    apply List.filter_In in Hck as [Hck Hn].
    apply in_flat_map in Hck as ([p' c3'] & Hp' & Hck). cbn [snd] in Hck.
    destruct (well_formed_domain jar d' c2' W Hin) as [_ Hw].
    destruct (Hw p' c3' Hp') as [_ Hf].
    destruct (filed_member d' p' c3' ck Hf Hck) as [Hd _].
    destruct (only_at_member d p n jar ck O (in_jar_cookies jar d' c2' p' c3' ck Hin Hp' Hck) Hn)
      as [Hd' _].
    congruence.
Qed.

Lemma cookies_get_from_none name found l :
  List.filter (named name) l = [] -> cookies_get_from name found l = Return found.
Proof.
  revert found. induction l as [| c l IH]; intros found; cbn [List.filter cookies_get_from]; [reflexivity |].
  unfold named at 1. destruct (String.eqb (cookie_name c) name); [discriminate |]. apply IH.
Qed.

Lemma cookies_get_from_one name l ck :
  List.filter (named name) l = [ck] -> cookies_get_from name None l = Return (Some (cookie_value ck)).
Proof.
  induction l as [| c l IH]; cbn [List.filter cookies_get_from]; [discriminate |].
  unfold named at 1. destruct (String.eqb (cookie_name c) name).
  - intros [= -> H]. apply cookies_get_from_none, H.
  - exact IH.
Qed.

Lemma well_formed_set_cookie jar c : well_formed jar = true -> well_formed (set_cookie c jar) = true.
Proof.
  intros W. unfold set_cookie.
  set (d := cookie_domain c). set (p := cookie_path c). set (n := cookie_name c).
  set (c2 := match aget d jar with Some x => x | None => [] end).
  set (c3 := match aget p c2 with Some x => x | None => [] end).
  assert (W2 : fresh_keys c2 = true /\
               forallb (fun pc => fresh_keys (snd pc) && filed d (fst pc) (snd pc)) c2 = true).
  { subst c2. destruct (aget d jar) as [x |] eqn:G; [| split; reflexivity].
    apply aget_In in G. unfold well_formed in W. apply andb_true_iff in W as [_ W].
    rewrite forallb_forall in W. specialize (W _ G). cbn [fst snd] in W.
    apply andb_true_iff in W. exact W. }
  destruct W2 as [F2 W2].
  assert (W3 : fresh_keys c3 = true /\ filed d p c3 = true).
  { subst c3. destruct (aget p c2) as [x |] eqn:G; [| split; reflexivity].
    apply aget_In in G. rewrite forallb_forall in W2. specialize (W2 _ G). cbn [fst snd] in W2.
    apply andb_true_iff in W2. exact W2. }
  destruct W3 as [F3 H3].
  unfold well_formed in *. apply andb_true_iff in W as [Wj W]. apply andb_true_iff. split.
  - apply fresh_keys_aset, Wj.
  - apply forallb_aset; [exact W |]. cbn [fst snd]. apply andb_true_iff. split.
    + apply fresh_keys_aset, F2.
    + apply forallb_aset; [exact W2 |]. cbn [fst snd]. apply andb_true_iff. split.
      * apply fresh_keys_aset, F3.
      * unfold filed. apply forallb_aset; [exact H3 |]. cbn [fst snd].
        subst d p n. rewrite !String.eqb_refl. reflexivity.
Qed.

(** A cookie put into the jar is the one [cookies.get] finds under its
    name, provided the jar holds no cookie of that name for another
    domain or path (which would make the lookup ambiguous); the jar
    stays well formed. *)
Lemma set_cookie_then_get (jar : cookiejar) (c : cookie) :
  well_formed jar = true ->
  only_at (cookie_domain c) (cookie_path c) (cookie_name c) jar = true ->
  cookies_get (cookie_name c) (set_cookie c jar) = Return (Some (cookie_value c)) /\
  well_formed (set_cookie c jar) = true.
Proof.
  intros W O. split; [| apply well_formed_set_cookie, W].
  unfold cookies_get. apply cookies_get_from_one. apply named_after_set_cookie; assumption.
Qed.

Variable from_cookiejar : list cookie -> string.
Variable cookies_str_to_dict : string -> list (string * option string).
Variable create_cookie : string -> string -> string -> cookie.

(** The refresh of lines 685-691 leaves the jar alone, whether it
    returns or raises. *)
Lemma user_id_jar c : jar (snd (user_id c)) = jar c.
Proof.
  unfold user_id, mbind, method_bind, m_bind, m_get, m_lift, m_modify, mret, method_ret, m_ret.
  destruct (cached_user_id c); [reflexivity |].
  destruct (compute_user_id (jar c)); reflexivity.
Qed.

Lemma refresh_jar cookies_old c : jar (snd (refresh from_cookiejar cookies_old c)) = jar c.
Proof.
  unfold refresh. unfold mbind at 1, method_bind at 1, m_bind at 1.
  pose proof (user_id_jar c) as J1.
  destruct (user_id c) as [[uid | e] c1]; cbn [snd] in *; [| exact J1].
  unfold mbind at 1, method_bind at 1, m_bind at 1. unfold m_modify at 1.
  unfold mbind at 1, method_bind at 1, m_bind at 1.
  pose proof (user_id_jar (with_user_id None c1)) as J2.
  destruct (user_id (with_user_id None c1)) as [[uid' | e] c2]; cbn [snd with_user_id jar] in *;
    [| congruence].
  assert (Tail : forall (c3 : client),
            jar c3 = jar c2 ->
            jar (snd ((cookies_new ← cookies_str from_cookiejar;
                       if String.eqb cookies_old cookies_new then mret tt
                       else s ← cookies_str from_cookiejar; write_cookies s) c3)) = jar c).
  { intros c3 J3.
    unfold cookies_str, mbind, method_bind, m_bind, m_get, mret, method_ret, m_ret, write_cookies,
      m_modify.
    destruct (String.eqb cookies_old (from_cookiejar (jar_cookies (jar c3)))); cbn [snd]; [congruence |].
    destruct (cookies_file c3); cbn [jar]; congruence. }
  unfold mbind at 1, method_bind at 1, m_bind at 1.
  destruct (uid' =? uid).
  - apply Tail. reflexivity.
  - unfold m_modify at 1. apply Tail. reflexivity.
Qed.

(** X13: a cookie assigned through the [cookies] setter as a one-entry
    mapping [{name: value}] with a truthy value is the one
    [cookies.get(name)] finds afterwards, whether the refresh that
    follows returns or raises, provided [create_cookie] keeps the name,
    the value and the domain it is given and the jar holds no cookie of
    that name for another domain or path (the lookup would be
    ambiguous); the jar stays well formed. *)
Theorem cookies_assign_then_get (name value : string) (c : client) :
  (forall k v d, cookie_name (create_cookie k v d) = k /\
                 cookie_value (create_cookie k v d) = v /\
                 cookie_domain (create_cookie k v d) = d) ->
  well_formed (jar c) = true ->
  only_at ".115.com" (cookie_path (create_cookie name value ".115.com")) name (jar c) = true ->
  truthy (VStr value) = true ->
  let c' := snd (cookies_setter from_cookiejar cookies_str_to_dict create_cookie
                   (CMapping [(name, Some value)]) c) in
  jar c' = set_cookie (create_cookie name value ".115.com") (jar c) /\
  cookies_get name (jar c') = Return (Some value) /\
  well_formed (jar c') = true.
Proof.
  intros Hc W O T c'.
  destruct (Hc name value ".115.com") as (Hn & Hv & Hd).
  assert (J : jar c' = set_cookie (create_cookie name value ".115.com") (jar c)).
  { subst c'. unfold cookies_setter.
    unfold mbind at 1, method_bind at 1, m_bind at 1. unfold cookies_str at 1.
    unfold mbind at 1, method_bind at 1, m_bind at 1, m_get at 1, mret at 1, method_ret at 1, m_ret at 1.
    unfold assign_mapping. unfold mbind at 1, method_bind at 1, m_bind at 1. unfold m_modify at 1.
    rewrite refresh_jar. cbn [with_jar jar assign_items]. rewrite T. reflexivity. }
  split; [exact J |]. rewrite J.
  destruct (set_cookie_then_get (jar c) (create_cookie name value ".115.com")) as [G W'].
  - exact W.
  - rewrite Hn, Hd. exact O.
  - rewrite Hn, Hv in G. split; [exact G | exact W'].
Qed.

End JarFacts.

Lemma cookies_assign_then_get_witness :
  Cookies.cookies_get "UID"
    (Cookies.jar
       (snd (Cookies.cookies_setter from_cookiejar cookies_str_to_dict create_cookie
               (Cookies.CMapping [("UID", Some "456_A1_1730009999")]) signed_in_cached)))
    = Return (Some "456_A1_1730009999").
Proof.
  apply (cookies_assign_then_get from_cookiejar cookies_str_to_dict create_cookie
           "UID" "456_A1_1730009999" signed_in_cached); try reflexivity.
  intros k v d. repeat split.
Defined.

(** ** The cached identity after an assignment of cookies *)

Section SetterFacts.
Import Cookies.

Variable from_cookiejar : list cookie -> string.
Variable cookies_str_to_dict : string -> list (string * option string).
Variable create_cookie : string -> string -> string -> cookie.

Lemma user_id_returns c u c' :
  user_id c = (Return u, c') ->
  jar c' = jar c /\ cached_user_id c' = Some u /\
  (cached_user_id c = None -> compute_user_id (jar c) = Return u).
Proof.
  unfold user_id, mbind, method_bind, m_bind, m_get, m_lift, m_modify, mret, method_ret, m_ret.
  destruct (cached_user_id c) as [u0 |] eqn:E.
  - intros [= <- <-]. rewrite E. repeat split. discriminate.
  - destruct (compute_user_id (jar c)) as [u1 | e]; [| discriminate].
    intros [= <- <-]. repeat split.
Qed.

(** The refresh of lines 685-691 leaves the cache in agreement with
    the jar. *)
Lemma refresh_coherent cookies_old c c' :
  refresh from_cookiejar cookies_old c = (Return tt, c') ->
  jar c' = jar c /\
  exists u, cached_user_id c' = Some u /\ compute_user_id (jar c) = Return u.
Proof.
  unfold refresh. unfold mbind at 1, method_bind at 1, m_bind at 1.
  destruct (user_id c) as [[uid | e] c1] eqn:U1; [| discriminate].
  apply user_id_returns in U1 as (J1 & _ & _).
  unfold mbind at 1, method_bind at 1, m_bind at 1. unfold m_modify at 1.
  unfold mbind at 1, method_bind at 1, m_bind at 1.
  destruct (user_id (with_user_id None c1)) as [[uid' | e] c2] eqn:U2; [| discriminate].
  apply user_id_returns in U2 as (J2 & C2 & K2). specialize (K2 eq_refl).
  cbn [with_user_id jar] in J2, K2.
  assert (Tail : forall (c3 : client),
            jar c3 = jar c2 -> cached_user_id c3 = cached_user_id c2 ->
            (cookies_new ← cookies_str from_cookiejar;
             if String.eqb cookies_old cookies_new then mret tt
             else s ← cookies_str from_cookiejar; write_cookies s) c3 = (Return tt, c') ->
            jar c' = jar c /\
            exists u, cached_user_id c' = Some u /\ compute_user_id (jar c) = Return u).
  { intros c3 J3 C3.
    unfold cookies_str, mbind, method_bind, m_bind, m_get, mret, method_ret, m_ret, write_cookies,
      m_modify.
    destruct (String.eqb cookies_old (from_cookiejar (jar_cookies (jar c3)))).
    - intros [= <-]. split; [congruence |]. exists uid'. split; [congruence | congruence].
    - destruct (cookies_file c3); intros [= <-]; cbn [jar cached_user_id];
        (split; [congruence |]); exists uid'; split; congruence. }
  unfold mbind at 1, method_bind at 1, m_bind at 1.
  destruct (uid' =? uid).
  - apply Tail; reflexivity.
  - unfold m_modify at 1. apply Tail; reflexivity.
Qed.

(** X14: an assignment to [cookies] that reaches the refresh of lines
    685-691 (a non-empty mapping, an iterable of cookies, or a text
    that parses into a non-empty mapping) and returns leaves the cached
    [user_id] equal to what the jar now gives, whatever was cached
    before; a later read of [user_id] returns that value.  (The
    assignment of [None] returns before the refresh.) *)
Theorem cookies_setter_refreshes_user_id (cookies : assigned) (c c' : client) :
  match cookies with
  | CNone => False
  | CStr s =>
      let s := rstrip_char ";" (strip s) in
      String.eqb s "" = false /\ cookies_str_to_dict s <> []
  | CMapping m => m <> []
  | CIterable _ => True
  end ->
  cookies_setter from_cookiejar cookies_str_to_dict create_cookie cookies c = (Return tt, c') ->
  exists u,
    cached_user_id c' = Some u /\
    compute_user_id (jar c') = Return u /\
    fst (user_id c') = Return u.
Proof.
  intros Hc H.
  assert (G : exists c0 old, refresh from_cookiejar old c0 = (Return tt, c')).
  { revert H. unfold cookies_setter.
    unfold mbind at 1, method_bind at 1, m_bind at 1. unfold cookies_str at 1.
    unfold mbind at 1, method_bind at 1, m_bind at 1, m_get at 1, mret at 1, method_ret at 1, m_ret at 1.
    destruct cookies as [| s | m | l]; [destruct Hc | | |].
    - destruct Hc as [E N]. cbv zeta. rewrite E. unfold assign_mapping.
      destruct (cookies_str_to_dict (rstrip_char ";" (strip s))) as [| x m']; [congruence |].
      unfold mbind, method_bind, m_bind, m_modify. eauto.
    - unfold assign_mapping. destruct m as [| x m']; [congruence |].
      unfold mbind, method_bind, m_bind, m_modify. eauto.
    - unfold mbind, method_bind, m_bind, m_modify. eauto. }
  destruct G as (c0 & old & R).
  apply refresh_coherent in R as (J & u & Cu & Ku).
  exists u. split; [exact Cu |]. split; [congruence |].
  unfold user_id, mbind, method_bind, m_bind, m_get, mret, method_ret, m_ret. rewrite Cu. reflexivity.
Qed.

End SetterFacts.

Lemma cookies_setter_refreshes_user_id_witness :
  Cookies.cached_user_id
    (snd (Cookies.cookies_setter from_cookiejar cookies_str_to_dict create_cookie
            (Cookies.CMapping [("UID", Some "456_A1_1730009999")]) signed_in_cached))
    = Some 456.
Proof.
  destruct (cookies_setter_refreshes_user_id from_cookiejar cookies_str_to_dict create_cookie
              (Cookies.CMapping [("UID", Some "456_A1_1730009999")]) signed_in_cached
              (snd (Cookies.cookies_setter from_cookiejar cookies_str_to_dict create_cookie
                      (Cookies.CMapping [("UID", Some "456_A1_1730009999")]) signed_in_cached)))
    as (u & Hu & Hj & _); [discriminate | reflexivity |].
  rewrite Hu. f_equal.
  assert (E : Cookies.compute_user_id
                (Cookies.jar
                   (snd (Cookies.cookies_setter from_cookiejar cookies_str_to_dict create_cookie
                           (Cookies.CMapping [("UID", Some "456_A1_1730009999")]) signed_in_cached)))
              = Return 456) by reflexivity.
  rewrite E in Hj. injection Hj as Hj. symmetry. exact Hj.
Defined.

(** ** The retry loop of [request] *)

Section ReloginFacts.
Import Cookies Request Relogin.

Variable from_cookiejar : list cookie -> string.
Variable cookies_str_to_dict : string -> list (string * option string).
Variable create_cookie : string -> string -> string -> cookie.
Variable isinstance_AuthenticationError : exn -> bool.
Variable check_for_relogin : exn -> outcome pyval.
Variable login_another_app : method unit.
Variable stat_fails open_fails : bool.

Let loop :=
  request_loop from_cookiejar cookies_str_to_dict create_cookie isinstance_AuthenticationError
    check_for_relogin login_another_app stat_fails open_fails.

Let call :=
  request from_cookiejar cookies_str_to_dict create_cookie isinstance_AuthenticationError
    check_for_relogin login_another_app stat_fails open_fails.

Lemma with_jar_same c : with_jar (jar c) c = c.
Proof. destruct c. reflexivity. Qed.

(** With nobody else at work the handler of a failure that is no
    authentication error raises on every pass but the first, and logs in
    anew on the first if the policy approves. *)
Lemma handle_quiet i a e c :
  quiet a -> isinstance_AuthenticationError e = false ->
  handle from_cookiejar cookies_str_to_dict create_cookie isinstance_AuthenticationError
    check_for_relogin login_another_app stat_fails open_fails i a (current from_cookiejar c) e c
  = match check_for_relogin e with
    | Raise e' => (Raise e', c, [])
    | Return res =>
        if gives_up res then (Return None, c, [])
        else if negb (Nat.eqb i 0) then (Return None, c, [])
        else
          match login_another_app c with
          | (Raise e', c') => (Raise e', c', [Login])
          | (Return _, c') => (Return (Some tt), c', [Login])
          end
    end.
Proof.
  intros [_ Q] A. unfold handle. rewrite A.
  destruct (check_for_relogin e) as [res | e']; [| reflexivity].
  destruct (gives_up res); [reflexivity |].
  unfold relogin. rewrite Q, !String.eqb_refl. cbn [negb].
  destruct (Z.gtb_spec (cookies_mtime c) (cookies_mtime c)) as [? | _]; [lia |].
  cbn [andb same_cookies]. rewrite String.eqb_refl, andb_true_r.
  destruct (negb (Nat.eqb i 0)); reflexivity.
Qed.

(** X15: as long as no other thread and no server touches the cookies
    and the transport raises no authentication error, one call of
    [request] logs in anew at most once and calls the transport at most
    twice: its requests are an initial part of "send, log in, send",
    the second send carrying the cookie string of the new login, and
    the second answer ends the call even if the policy approves of
    another login.  With two scripted answers the call is over. *)
Theorem request_relogs_at_most_once (p : prepared) (script : list attempt) (c : client) :
  Forall quiet script ->
  Forall (fun a => forall e, answer a = Raise e -> isinstance_AuthenticationError e = false) script ->
  let out := loop p 0 script c [] in
  let c' := snd (login_another_app c) in
  (exists rest,
     [Send (sent_headers true (current from_cookiejar c) p); Login;
      Send (sent_headers true (current from_cookiejar c') p)] = snd out ++ rest) /\
  ((2 <= length script)%nat -> fst (fst out) <> QrLogin.Waiting).
Proof.
  intros Q A out c'. subst out loop.
  destruct script as [| a1 script]; [split; [eexists; reflexivity | cbn; lia] |].
  inversion Q as [| ? ? Q1 Q']; subst. inversion A as [| ? ? A1 A']; subst.
  cbn [request_loop app]. destruct Q1 as [D1 W1]. rewrite D1, with_jar_same.
  destruct (answer a1) as [v | e1] eqn:E1; [split; [eexists; reflexivity | discriminate] |].
  rewrite (handle_quiet 0 a1 e1 c (conj D1 W1) (A1 e1 eq_refl)).
  destruct (check_for_relogin e1) as [res | e'];
    [| split; [eexists; reflexivity | discriminate]].
  destruct (gives_up res); [split; [eexists; reflexivity | discriminate] |].
  cbn [Nat.eqb negb]. subst c'.
  destruct (login_another_app c) as [[u | e'] c1];
    [| split; [eexists; reflexivity | discriminate]].
  cbn [snd app].
  destruct script as [| a2 script]; [split; [exists []; reflexivity | cbn; lia] |].
  inversion Q' as [| ? ? Q2 _]; subst. inversion A' as [| ? ? A2 _]; subst.
  cbn [request_loop app]. destruct Q2 as [D2 W2]. rewrite D2, with_jar_same.
  destruct (answer a2) as [v | e2] eqn:E2; [split; [exists []; reflexivity | discriminate] |].
  rewrite (handle_quiet 1 a2 e2 c1 (conj D2 W2) (A2 e2 eq_refl)).
  destruct (check_for_relogin e2) as [res2 | e'];
    [| split; [exists []; reflexivity | discriminate]].
  destruct (gives_up res2); split; try (exists []; reflexivity); discriminate.
Qed.

Lemma read_cookies_no_file c :
  cookies_file c = None ->
  read_cookies from_cookiejar cookies_str_to_dict create_cookie stat_fails open_fails c
    = (Return None, c).
Proof.
  intros H. unfold read_cookies, mbind, method_bind, m_bind, m_get. rewrite H. reflexivity.
Qed.

(** The loop answers an authentication error with another call as long
    as there is no cookie file. *)
Lemma request_loop_retries (p : prepared) (script : list attempt) (i : nat)
    (c : client) (trace : list event) :
  cookies_file c = None ->
  Forall (fun a => exists e, answer a = Raise e /\ isinstance_AuthenticationError e = true) script ->
  let out := loop p i script c trace in
  fst (fst out) = QrLogin.Waiting /\
  length (List.filter is_send (snd out)) = (length (List.filter is_send trace) + S (length script))%nat /\
  List.filter is_login (snd out) = List.filter is_login trace.
Proof.
  intros F A out. subst out loop. revert i c trace F.
  induction A as [| a script (e & E & Ia) _ IH]; intros i c trace F.
  - cbn [request_loop fst snd]. rewrite !List.filter_app. cbn. rewrite length_app, app_nil_r. cbn.
    repeat split; lia.
  - cbn [request_loop]. rewrite E. unfold handle. rewrite Ia.
    set (c1 := with_jar (during a (jar c)) c).
    assert (F1 : cookies_file c1 = None) by exact F.
    set (tr1 := trace ++ [Send (sent_headers true (current from_cookiejar c) p)]).
    assert (S1 : length (List.filter is_send tr1) = S (length (List.filter is_send trace))).
    { subst tr1. rewrite List.filter_app, length_app. cbn. lia. }
    assert (L1 : List.filter is_login tr1 = List.filter is_login trace).
    { subst tr1. rewrite List.filter_app. cbn. apply app_nil_r. }
    destruct (negb (String.eqb (current from_cookiejar c) (current from_cookiejar c1))).
    + rewrite app_nil_r. destruct (IH (S i) c1 tr1 F1) as (H1 & H2 & H3).
      rewrite H1, H2, H3, S1, L1. cbn [length]. repeat split; lia.
    + rewrite (read_cookies_no_file c1 F1). cbn [same_cookies negb]. rewrite app_nil_r.
      destruct (IH (S i) c1 tr1 F1) as (H1 & H2 & H3).
      rewrite H1, H2, H3, S1, L1. cbn [length]. repeat split; lia.
Qed.

(** X16: with a re-login policy (a callable [check_for_relogin]), a
    client without a cookie file never gives up on an authentication
    error of the transport: [_read_cookies()] is [None] there, which
    differs from any cookie string, so the failure is answered with
    another call, however often it comes, without any new login in
    between.  Without a policy, as by default, the transport is called
    once and its error is the result. *)
Theorem authentication_error_is_retried (p : prepared) (script : list attempt) (c : client) :
  cookies_file c = None ->
  Forall (fun a => exists e, answer a = Raise e /\ isinstance_AuthenticationError e = true) script ->
  (let out := call true p script c in
   fst (fst out) = QrLogin.Waiting /\
   length (List.filter is_send (snd out)) = S (length script) /\
   List.filter is_login (snd out) = []) /\
  (forall a rest, script = a :: rest ->
     call false p script c
       = (QrLogin.Over (answer a), with_jar (during a (jar c)) c, [Send (kwargs_headers p)])).
Proof.
  intros F A. split.
  - apply (request_loop_retries p script 0 c [] F A).
  - intros a rest ->. reflexivity.
Qed.



End ReloginFacts.

Lemma request_relogs_at_most_once_witness :
  fst (fst (Relogin.request_loop from_cookiejar cookies_str_to_dict create_cookie
              is_authentication_error approve login_again false false
              no_headers 0 [failing_pass; failing_pass] signed_in []))
    <> QrLogin.Waiting.
Proof.
  apply (request_relogs_at_most_once from_cookiejar cookies_str_to_dict create_cookie
           is_authentication_error approve login_again false false
           no_headers [failing_pass; failing_pass] signed_in).
  - repeat (apply List.Forall_cons; [split; reflexivity |]). apply List.Forall_nil.
  - repeat (apply List.Forall_cons; [intros e [= <-]; reflexivity |]). apply List.Forall_nil.
  - cbn [length]. lia.
Defined.

Lemma authentication_error_is_retried_witness :
  fst (fst (Relogin.request from_cookiejar cookies_str_to_dict create_cookie
              is_authentication_error approve login_again false false
              true no_headers [refused_pass; refused_pass; refused_pass] signed_in))
    = QrLogin.Waiting /\
  fst (fst (Relogin.request from_cookiejar cookies_str_to_dict create_cookie
              is_authentication_error approve login_again false false
              false no_headers [refused_pass; refused_pass; refused_pass] signed_in))
    = QrLogin.Over (Raise (Exn AuthenticationError (Some EIO) VNone)).
Proof.
  destruct (authentication_error_is_retried from_cookiejar cookies_str_to_dict create_cookie
              is_authentication_error approve login_again false false
              no_headers [refused_pass; refused_pass; refused_pass] signed_in) as [H1 H2].
  - reflexivity.
  - repeat (apply List.Forall_cons; [eexists; split; reflexivity |]). apply List.Forall_nil.
  - split; [apply H1 |]. rewrite (H2 refused_pass [refused_pass; refused_pass] eq_refl). reflexivity.
Defined.



(** ** Login sequences *)

Section LoginFacts.
Import Cookies CheckResponse Login.

Variable SSOENT_TO_APP : gmap string string.

Lemma checked_item_returns resp key v :
  checked_item resp key = Return v ->
  exists d, resp = VDict d /\ check resp = Return resp /\ d !! key = Some v.
Proof.
  unfold checked_item, check_response. destruct (is_dict resp) eqn:D; [| discriminate].
  destruct resp as [| | | | | | d |]; try discriminate.
  unfold mbind, outcome_bind. intros H. apply obind_return in H as (r & Hc & Hs).
  assert (r = VDict d).
  { revert Hc. unfold check. destruct (truthy (dict_get d "state" (VBool true))).
    - intros [= <-]. reflexivity.
    - unfold raise_matched, fail.
      repeat match goal with
             | |- context [match ?x with _ => _ end] => destruct x
             end; discriminate. }
  subst r. exists d. split; [reflexivity |]. split; [exact Hc |].
  unfold subscript, dict_item in Hs. destruct (d !! key); [congruence | discriminate].
Qed.

(** X17: [login_without_app] returns a [uid] only after the three
    requests token, scan and confirmation, in this order and the last
    two for that same [uid], which is the [data.uid] of a token response
    that passed [check_response]; a token response that fails the check
    ends the sequence with that failure after the one request, and a
    failing scan response ends it before the confirmation. *)
Theorem login_without_app_sequence (env : list event -> event -> outcome pyval) :
  (forall uid, fst (login_without_app env []) = Return uid ->
     snd (login_without_app env []) = [QrcodeToken; QrcodeScan uid; QrcodeScanConfirm uid] /\
     exists d data,
       env [] QrcodeToken = Return (VDict d) /\ check (VDict d) = Return (VDict d) /\
       d !! "data" = Some data /\ subscript data "uid" = Return uid) /\
  (forall resp e, env [] QrcodeToken = Return resp -> check_response resp = Now (Raise e) ->
     login_without_app env [] = (Raise e, [QrcodeToken])) /\
  (forall token data uid resp e,
     env [] QrcodeToken = Return token -> checked_item token "data" = Return data ->
     subscript data "uid" = Return uid ->
     env [QrcodeToken] (QrcodeScan uid) = Return resp -> check_response resp = Now (Raise e) ->
     login_without_app env [] = (Raise e, [QrcodeToken; QrcodeScan uid])).
Proof.
  unfold login_without_app, mbind, steps_bind, s_bind, perform, lift, mret, steps_ret, s_ret.
  cbn [List.app]. split; [| split].
  - intros uid.
    destruct (env [] QrcodeToken) as [token | e]; [| discriminate].
    destruct (checked_item token "data") as [data | e] eqn:Hd; [| discriminate].
    destruct (subscript data "uid") as [u | e] eqn:Hu; [| discriminate].
    destruct (env [QrcodeToken] (QrcodeScan u)) as [r1 | e]; [| discriminate].
    destruct (checked r1) as [[] | e]; [| discriminate].
    destruct (env [QrcodeToken; QrcodeScan u] (QrcodeScanConfirm u)) as [r2 | e]; [| discriminate].
    destruct (checked r2) as [[] | e]; [| discriminate].
    cbn [fst snd]. intros [= ->]. split; [reflexivity |].
    apply checked_item_returns in Hd as (d & -> & Hc & Hk). exists d, data. auto.
  - intros resp e -> Hc. unfold checked_item. rewrite Hc. reflexivity.
  - intros token data uid resp e -> -> -> -> Hc. unfold checked. rewrite Hc. reflexivity.
Qed.

(** The requests of [login_app]: none, or the one for the device. *)
Lemma login_app_requests c env tr :
  snd (login_app SSOENT_TO_APP c env tr) = tr \/
  snd (login_app SSOENT_TO_APP c env tr) = tr ++ [LoginDevice].
Proof.
  unfold login_app, mbind, steps_bind, s_bind, perform, lift, mret, steps_ret, s_ret.
  destruct (fst (login_ssoent c)) as [[s |] | e]; [| left; reflexivity | left; reflexivity].
  destruct (SSOENT_TO_APP !! s); [left; reflexivity |].
  destruct (env tr LoginDevice) as [device | e]; [| right; reflexivity].
  destruct device; right; try reflexivity.
  all: cbn; match goal with |- context [subscript ?v ?k] => destruct (subscript v k) end; reflexivity.
Qed.

(** X18: [login_another_app] called without an app name that
    [login_app] cannot supply either (it answers [None] or another
    falsy value) raises [LoginError(EIO, "can't determine app")] before
    any QR-code request is made: the only request, if any, is the one
    for the current device.  A client without a [UID] cookie and no
    app name makes no request at all. *)
Theorem login_another_app_needs_app (app : pyval) (replace : bool) (c : client)
    (env : list event -> event -> outcome pyval) :
  truthy app = false ->
  (forall v tr, login_app SSOENT_TO_APP c env [] = (Return v, tr) -> truthy v = false ->
     login_another_app SSOENT_TO_APP app replace c env [] = (Raise cannot_determine_app, tr) /\
     (tr = [] \/ tr = [LoginDevice])) /\
  (cookies_get "UID" (jar c) = Return None ->
     login_another_app SSOENT_TO_APP app replace c env [] = (Raise cannot_determine_app, [])).
Proof.
  intros Ha. split.
  - intros v tr Hl Hv. split.
    + unfold login_another_app. rewrite Ha. cbn [negb].
      unfold mbind at 1, steps_bind at 1, s_bind at 1.
      unfold mbind at 1, steps_bind at 1, s_bind at 1.
      rewrite Hl, Hv. reflexivity.
    + destruct (login_app_requests c env []) as [H | H]; rewrite Hl in H; cbn in H; auto.
  - intros Hc. unfold login_another_app. rewrite Ha. cbn [negb].
    unfold login_app, login_ssoent.
    unfold mbind, steps_bind, s_bind, method_bind, m_bind, m_get, m_lift, lift, mret, steps_ret, s_ret,
      method_ret, m_ret.
    rewrite Hc. reflexivity.
Qed.

(** X19: [login] signs in only when [login_status] answers falsy: with a
    truthy status the status request is its only step and no cookie is
    assigned.  Otherwise the QR-code login runs for the app given, or,
    when none is given and [login_app] finds none, for [qandroid]; the
    cookie assigned is the [data.cookie] of its response. *)
Theorem login_only_when_signed_out (app : pyval) (console_qrcode : bool) (c : client)
    (env : list event -> event -> outcome pyval) (status : pyval) :
  env [] LoginStatus = Return status ->
  (truthy status = true ->
     login SSOENT_TO_APP app console_qrcode c env [] = (Return Self, [LoginStatus])) /\
  (truthy status = false -> truthy app = true ->
     forall resp data cookie,
       env [LoginStatus] (LoginWithQrcode app console_qrcode) = Return resp ->
       subscript resp "data" = Return data -> subscript data "cookie" = Return cookie ->
       snd (login SSOENT_TO_APP app console_qrcode c env [])
         = [LoginStatus; LoginWithQrcode app console_qrcode; AssignCookies cookie]) /\
  (truthy status = false -> truthy app = false ->
     cookies_get "UID" (jar c) = Return None ->
     forall resp data cookie,
       env [LoginStatus] (LoginWithQrcode (VStr "qandroid") console_qrcode) = Return resp ->
       subscript resp "data" = Return data -> subscript data "cookie" = Return cookie ->
       snd (login SSOENT_TO_APP app console_qrcode c env [])
         = [LoginStatus; LoginWithQrcode (VStr "qandroid") console_qrcode; AssignCookies cookie]).
Proof.
  intros Hs. unfold login.
  split; [| split];
    (unfold mbind at 1, steps_bind at 1, s_bind at 1, perform at 1; cbn [List.app]; rewrite Hs).
  - intros Ht. rewrite Ht. reflexivity.
  - intros Ht Ha resp data cookie Hr Hd Hk. rewrite Ht. cbn [negb]. rewrite Ha. cbn [negb].
    unfold mbind, steps_bind, s_bind, perform, lift, mret, steps_ret, s_ret. cbn [List.app].
    rewrite Ha. cbn [negb]. rewrite Hr, Hd, Hk.
    destruct (env _ (AssignCookies cookie)); reflexivity.
  - intros Ht Ha Hc resp data cookie Hr Hd Hk. rewrite Ht. cbn [negb]. rewrite Ha. cbn [negb].
    unfold login_app, login_ssoent.
    unfold mbind, steps_bind, s_bind, method_bind, m_bind, m_get, m_lift, perform, lift, mret,
      steps_ret, s_ret, method_ret, m_ret. cbn [List.app].
    rewrite Hc. cbn [fst truthy negb List.app]. rewrite Hr, Hd, Hk.
    destruct (env _ (AssignCookies cookie)); reflexivity.
Qed.

End LoginFacts.

Lemma login_another_app_needs_app_witness :
  Login.login_another_app ssoent_table VNone true signed_out signed_in_service []
    = (Raise Login.cannot_determine_app, []).
Proof.
  apply (login_another_app_needs_app ssoent_table VNone true signed_out signed_in_service);
    reflexivity.
Defined.

Lemma login_only_when_signed_out_witness :
  Login.login ssoent_table VNone true signed_in signed_in_service []
    = (Return Login.Self, [Login.LoginStatus]).
Proof.
  apply (login_only_when_signed_out ssoent_table VNone true signed_in signed_in_service (VBool true));
    reflexivity.
Defined.

(** ** Attribute normalisation for the app interface *)

Section NormalizeAttrAppFacts.
Import NormalizeAttr NormalizeAttrApp.

Variable format : pyval -> string.

















End NormalizeAttrAppFacts.

(** ** Download links *)

Section DownloadFacts.
Import CheckResponse Download.

Variable first_item : gmap string pyval -> option (string * pyval).

(** A response that passes [check] has no falsy [state]. *)
Lemma check_returns_state resp r :
  check resp = Return r ->
  r = resp /\ exists d, resp = VDict d /\ truthy (dict_get d "state" (VBool true)) = true.
Proof.
  unfold check. destruct resp as [| | | | | | d |]; try discriminate.
  destruct (truthy (dict_get d "state" (VBool true))) eqn:T.
  - intros [= <-]. eauto.
  - unfold raise_matched, fail.
    repeat match goal with
           | |- context [match ?x with _ => _ end] => destruct x
           end; discriminate.
Qed.

(** A response that fails [check] has a falsy [state]. *)
Lemma check_raises_state d e :
  check (VDict d) = Raise e ->
  exists state, d !! "state" = Some state /\ truthy state = false.
Proof.
  unfold check, dict_get. destruct (d !! "state") as [state |] eqn:S; [| discriminate].
  destruct (truthy state) eqn:T; [discriminate |]. eauto.
Qed.

Lemma get_url_web_strict pickcode resp u :
  get_url_web pickcode true resp = Return u -> is_directory u = false /\ Download.pickcode u = VStr pickcode.
Proof.
  unfold get_url_web, mbind, outcome_bind. intros H.
  apply obind_return in H as (r & Hs & H). apply obind_return in H as ([] & Hc & H).
  destruct (check r) as [r' | e] eqn:C.
  - apply check_returns_state in C as (_ & d & -> & T).
    apply obind_return in H as (file_id & _ & H). apply obind_return in H as (z & _ & H).
    apply obind_return in H as (file_name & _ & H). apply obind_return in H as (file_size & _ & H).
    apply obind_return in H as (sz & _ & H). apply obind_return in H as (state & Hst & H).
    apply obind_return in H as (hd & _ & H). apply Return_inj in H. subst u. cbn [is_directory Download.pickcode].
    split; [| reflexivity].
    unfold dict_item in Hst. unfold dict_get in T.
    destruct (d !! "state") as [s |]; [| discriminate]. apply Return_inj in Hst. subst s.
    rewrite T. reflexivity.
  - destruct (is_IsADirectoryError e); discriminate.
Qed.

Lemma get_url_app_strict pickcode resp u :
  get_url_app first_item pickcode true resp = Return u -> is_directory u = false.
Proof.
  unfold get_url_app, mbind, outcome_bind. intros H.
  apply obind_return in H as (r & Hs & H). apply obind_return in H as (r' & Hc & H).
  apply obind_return in H as (data & Hd & H).
  destruct data as [| | | | | | entries |]; try discriminate.
  destruct (first_item entries) as [[fid info] |]; [| discriminate].
  apply obind_return in H as (link0 & Hu & H).
  destruct (truthy link0) eqn:T; cbn [negb andb] in H; [| discriminate].
  apply obind_return in H as (link & _ & H). apply obind_return in H as (z & _ & H).
  apply obind_return in H as (pc & _ & H). apply obind_return in H as (fname & _ & H).
  apply obind_return in H as (fsize & _ & H). apply obind_return in H as (sz & _ & H).
  apply obind_return in H as (sh & _ & H). apply obind_return in H as (hd & _ & H).
  apply Return_inj in H. subst u. reflexivity.
Qed.

(** X21: with [strict] set (the default) a link that [download_url]
    returns is never a directory, through either interface.  Without
    [strict], a web response that [check_response] refuses as a
    directory (and only such a refusal) is turned into a link marked as
    a directory, with the response's [file_url] or the empty text; every
    other refusal is raised as it is. *)
Theorem download_url_strict_is_no_directory (pickcode : string) (use_web_api : bool)
    (env : list event -> event -> outcome pyval) :
  (forall u, fst (download_url first_item pickcode true use_web_api env []) = Return u ->
     is_directory u = false) /\
  (forall d e file_id file_name file_size hd z sz,
     env [] (DownloadUrlWeb pickcode) = Return (VDict d) ->
     check (VDict (<["pickcode" := VStr pickcode]> d)) = Raise e ->
     exn_kind_of e = IsADirectoryError ->
     d !! "file_id" = Some file_id -> py_int file_id = Return z ->
     d !! "file_name" = Some file_name ->
     d !! "file_size" = Some file_size -> py_int file_size = Return sz ->
     d !! "headers" = Some hd ->
     fst (download_url first_item pickcode false true env [])
       = Return (MkURL (dict_get d "file_url" (VStr "")) z (VStr pickcode) file_name sz None true hd)) /\
  (forall strict d e,
     env [] (DownloadUrlWeb pickcode) = Return (VDict d) ->
     check (VDict (<["pickcode" := VStr pickcode]> d)) = Raise e ->
     exn_kind_of e <> IsADirectoryError ->
     fst (download_url first_item pickcode strict true env []) = Raise e).
Proof.
  split; [| split].
  - intros u. unfold download_url, mbind, steps_bind, s_bind, perform, lift.
    destruct use_web_api.
    + destruct (env [] (DownloadUrlWeb pickcode)) as [resp | e]; [| discriminate].
      cbn [fst]. intros H. apply (get_url_web_strict _ _ _ H).
    + destruct (env [] (DownloadUrlApp pickcode)) as [resp | e]; [| discriminate].
      cbn [fst]. intros H. apply (get_url_app_strict _ _ _ H).
  - intros d e file_id file_name file_size hd z sz He Hc Hk Hid Hz Hn Hs Hsz Hh.
    unfold download_url, mbind, steps_bind, s_bind, perform, lift. rewrite He. cbn [fst].
    unfold get_url_web, store, mbind, outcome_bind, mret, outcome_ret. cbn [obind]. rewrite Hc.
    unfold is_IsADirectoryError. rewrite Hk. cbn [obind].
    apply check_raises_state in Hc as (state & Hst & T).
    unfold dict_item, dict_get.
    rewrite !(lookup_insert_ne d "pickcode") by discriminate.
    rewrite (lookup_insert_ne d "pickcode") in Hst by discriminate.
    rewrite Hid. cbn [obind]. rewrite Hz. cbn [obind]. rewrite Hn. cbn [obind].
    rewrite Hs. cbn [obind]. rewrite Hsz. cbn [obind]. rewrite Hst. cbn [obind].
    rewrite Hh. cbn [obind]. rewrite T. reflexivity.
  - intros strict d e He Hc Hk.
    unfold download_url, mbind, steps_bind, s_bind, perform, lift. rewrite He. cbn [fst].
    unfold get_url_web, store, mbind, outcome_bind. cbn [obind]. rewrite Hc.
    unfold is_IsADirectoryError. destruct (exn_kind_of e); try reflexivity. congruence.
Qed.

End DownloadFacts.
